(** * Nutrient scaling, aggregation and formatting of [server.js]

    A shallow embedding of the calculation core of the recipe backend:
    [calculateVitaminD], [calculateScaledNutrition], and the aggregation
    loop and formatting code of the [POST /api/recipes] handler, followed
    by the properties proved about them.  The other nutrient formulas,
    the functions that read the nutrient and unit sheets, the read routes
    and the route table are embedded after the core, and their
    properties follow those of the core.

    JavaScript numbers are IEEE 754 binary64 values; they are modelled by
    Rocq's primitive floats, whose operations are the same binary64
    operations (round to nearest, ties to even) and whose specification
    is [SpecFloat].  Strings are modelled by [string], holding the bytes
    of the UTF-8 encoding of the JavaScript string. *)

From Stdlib Require Import ZArith Floats String Ascii DecimalString DecimalN.
From Stdlib Require Import List Bool Lia.
From stdpp Require Import gmap strings list.

Set Warnings "-inexact-float".

Local Open Scope Z_scope.

(** ** The JavaScript built-ins the code relies on *)

Module JS.

(** The Number type. *)
Abbreviation number := float.

(** The values that the handler stores in spreadsheet rows: strings,
    Numbers, and [undefined] from reading a property that is not there. *)
Inductive value :=
| VUndefined
| VNumber (x : number)
| VString (s : string).

(** [ToBoolean] on a Number: [NaN], [+0] and [-0] are falsy. *)
Definition ToBoolean (x : number) : bool :=
  negb (is_nan x || is_zero x).

(** [x || y] on Numbers. *)
Definition or_else (x y : number) : number :=
  if ToBoolean x then x else y.

(** [ToNumber] on the result of reading a property that holds a Number
    when it is there: [undefined] becomes [NaN]. *)
Definition ToNumber (v : option number) : number :=
  match v with
  | Some x => x
  | None => nan
  end.

(** [ToString] on the result of reading a property that holds a string
    when it is there. *)
Definition ToString (v : option string) : string :=
  match v with
  | Some s => s
  | None => "undefined"
  end.

(** The value read from a property that holds a Number when it is
    there. *)
Definition of_property (v : option number) : value :=
  match v with
  | Some x => VNumber x
  | None => VUndefined
  end.

(** The value read from a property that holds a string when it is
    there. *)
Definition of_text (v : option string) : value :=
  match v with
  | Some s => VString s
  | None => VUndefined
  end.

(** *** Relational comparison of strings

    [IsLessThan] on two strings: the first position where the code
    units differ decides; a proper prefix is smaller. *)
Fixpoint str_lt (px py : string) : bool :=
  match px, py with
  | String cx px', String cy py' =>
      if (nat_of_ascii cx <? nat_of_ascii cy)%nat then true
      else if (nat_of_ascii cy <? nat_of_ascii cx)%nat then false
      else str_lt px' py'
  | EmptyString, String _ _ => true
  | _, EmptyString => false
  end.

(** [x <= y] is [!(y < x)] and [x >= y] is [!(x < y)]. *)
Definition str_le (x y : string) : bool := negb (str_lt y x).
Definition str_ge (x y : string) : bool := negb (str_lt x y).

(** *** [parseFloat] *)

Definition is_digit (c : ascii) : bool :=
  let n := nat_of_ascii c in ((48 <=? n) && (n <=? 57))%nat.

Definition digit_value (c : ascii) : Z := Z.of_nat (nat_of_ascii c) - 48.

(** White space and line terminators, in the UTF-8 encoding of the
    string.  One byte: tab, line feed, vertical tab, form feed, carriage
    return and space. *)
Definition is_space (c : ascii) : bool :=
  let n := nat_of_ascii c in
  ((n =? 9) || (n =? 10) || (n =? 11) || (n =? 12) || (n =? 13) || (n =? 32))%nat.

(** Two bytes: the no-break space U+00A0. *)
Definition is_space2 (c1 c2 : ascii) : bool :=
  ((nat_of_ascii c1 =? 194) && (nat_of_ascii c2 =? 160))%nat.

(** Three bytes: U+1680, U+2000 to U+200A, the line and paragraph
    separators U+2028 and U+2029, U+202F, U+205F, U+3000 and U+FEFF. *)
Definition is_space3 (c1 c2 c3 : ascii) : bool :=
  let n1 := nat_of_ascii c1 in
  let n2 := nat_of_ascii c2 in
  let n3 := nat_of_ascii c3 in
  ((n1 =? 225) && (n2 =? 154) && (n3 =? 128)
   || (n1 =? 226) && (n2 =? 128)
      && ((128 <=? n3) && (n3 <=? 138) || (n3 =? 168) || (n3 =? 169) || (n3 =? 175))
   || (n1 =? 226) && (n2 =? 129) && (n3 =? 159)
   || (n1 =? 227) && (n2 =? 128) && (n3 =? 128)
   || (n1 =? 239) && (n2 =? 187) && (n3 =? 191))%nat.

(** [TrimString(s, start)]. *)
Fixpoint trim_start (s : string) : string :=
  match s with
  | String c1 s1 =>
      if is_space c1 then trim_start s1
      else
        match s1 with
        | String c2 s2 =>
            if is_space2 c1 c2 then trim_start s2
            else
              match s2 with
              | String c3 s3 =>
                  if is_space3 c1 c2 c3 then trim_start s3 else s
              | EmptyString => s
              end
        | EmptyString => s
        end
  | EmptyString => s
  end.

(** Reads the longest run of decimal digits: the number they denote
    after [acc], how many were read on top of [cnt], and the rest of the
    string. *)
Fixpoint read_digits (s : string) (acc : Z) (cnt : nat) : Z * nat * string :=
  match s with
  | String c s' =>
      if is_digit c then read_digits s' (10 * acc + digit_value c) (S cnt)
      else (acc, cnt, s)
  | EmptyString => (acc, cnt, s)
  end.

(** An optional sign: [true] for [-]. *)
Definition read_sign (s : string) : bool * string :=
  match s with
  | String c s' =>
      if Ascii.eqb c "-" then (true, s')
      else if Ascii.eqb c "+" then (false, s')
      else (false, s)
  | EmptyString => (false, s)
  end.

(** The point and the digits after it, after [icnt] digits denoting
    [ip]: the number all the digits denote, how many follow the point,
    and the rest.  A point with no digit on either side is not part of a
    literal. *)
Definition read_fraction (s : string) (ip : Z) (icnt : nat)
  : Z * nat * string :=
  match s with
  | String c s' =>
      if Ascii.eqb c "." then
        let '(m, fcnt, rest) := read_digits s' ip 0%nat in
        match icnt, fcnt with
        | O, O => (ip, 0%nat, s)
        | _, _ => (m, fcnt, rest)
        end
      else (ip, 0%nat, s)
  | EmptyString => (ip, 0%nat, s)
  end.

(** The exponent part: [e] or [E], an optional sign and at least one
    digit; an incomplete exponent part is not part of the literal. *)
Definition read_exponent (s : string) : Z :=
  match s with
  | String c s' =>
      if (Ascii.eqb c "e" || Ascii.eqb c "E")%bool then
        let '(neg, s'') := read_sign s' in
        let '(e, cnt, _) := read_digits s'' 0 0%nat in
        match cnt with
        | O => 0
        | S _ => if neg then - e else e
        end
      else 0
  | EmptyString => 0
  end.

(** The Number value of [(-1)^neg * m * 10^e]: the binary64 value
    nearest to it, ties to even. *)
Definition decimal_to_SF (neg : bool) (m : Z) (e : Z) : spec_float :=
  match m with
  | Z0 => S754_zero neg
  | Zpos p =>
      if 0 <=? e then
        binary_round prec emax neg (p * Z.to_pos (10 ^ e)) 0
      else
        let '(q, e', l) :=
          SFdiv_core_binary prec emax (Zpos p) 0 (10 ^ (- e)) 0 in
        binary_round_aux prec emax neg q e' l
  | Zneg _ => S754_nan
  end.

(** [parseFloat(s)]: the longest prefix of the trimmed string that is a
    [StrDecimalLiteral] is converted; [NaN] when there is none. *)
Definition parseFloat (s : string) : number :=
  let '(neg, s1) := read_sign (trim_start s) in
  if String.prefix "Infinity" s1 then
    if neg then neg_infinity else infinity
  else
    let '(ip, icnt, s2) := read_digits s1 0 0%nat in
    let '(m, fcnt, s3) := read_fraction s2 ip icnt in
    match icnt, fcnt with
    | O, O => nan
    | _, _ => SF2Prim (decimal_to_SF neg m (read_exponent s3 - Z.of_nat fcnt))
    end.

(** *** [Number.prototype.toFixed] *)

(** The decimal digits of a non-negative integer. *)
Definition decimal_digits (n : Z) : string :=
  NilZero.string_of_uint (N.to_uint (Z.to_N n)).

Fixpoint zeros (k : nat) : string :=
  match k with
  | O => EmptyString
  | S k' => String "0" (zeros k')
  end.

(** The integer [n] for which [n / 10^f - m * 2^e] is as close to zero
    as possible, the larger one when there are two. *)
Definition nearest_scaled (m : positive) (e : Z) (f : nat) : Z :=
  let s := Zpos m * 10 ^ Z.of_nat f in
  if 0 <=? e then s * 2 ^ e
  else (2 * s + 2 ^ (- e)) / 2 ^ (1 - e).

(** The digits of [n] with a decimal point before the last [f] of
    them, padded on the left with zeros up to [f + 1] digits. *)
Definition fixed_point (n : Z) (f : nat) : string :=
  let m := decimal_digits n in
  match f with
  | O => m
  | S _ =>
      let k := String.length m in
      let m := if (k <=? f)%nat then (zeros (f + 1 - k) ++ m)%string else m in
      let k := String.length m in
      (String.substring 0 (k - f) m ++ "." ++ String.substring (k - f) f m)%string
  end.

(** [Number::toString] on a finite positive [x] with an integer value
    [v >= 10^21]: the shortest digit string [s] (of [k] digits) with
    [s * 10^(n-k)] rounding to [x], the one closest to [x] when there
    are several, in exponential notation. *)
Fixpoint shortest_digits (fuel k : nat) (x : spec_float) (v : Z) (n : nat)
  : Z * nat :=
  match fuel with
  | O => (v, n)
  | S fuel' =>
      let p := 10 ^ Z.of_nat (n - k) in
      let lo := v / p in
      let hi := lo + 1 in
      let ok c := SFeqb (binary_normalize prec emax (c * p) 0 false) x in
      match ok lo, ok hi with
      | true, true => if v - lo * p <=? hi * p - v then (lo, k) else (hi, k)
      | true, false => (lo, k)
      | false, true => (hi, k)
      | false, false => shortest_digits fuel' (S k) x v n
      end
  end.

(** Removes the zeros at the end of the decimal digits of [s]. *)
Fixpoint strip_trailing_zeros (fuel : nat) (s : Z) : Z :=
  match fuel with
  | O => s
  | S fuel' =>
      if (s mod 10 =? 0) && (0 <? s) then strip_trailing_zeros fuel' (s / 10)
      else s
  end.

Definition exponential (x : spec_float) (v : Z) : string :=
  let n := String.length (decimal_digits v) in
  let '(s, k) := shortest_digits 17 1%nat x v n in
  let n := if s =? 10 ^ Z.of_nat k then S n else n in
  let d := decimal_digits (strip_trailing_zeros n s) in
  let e := decimal_digits (Z.of_nat (n - 1)) in
  match d with
  | String c EmptyString => (String c "e+" ++ e)%string
  | String c rest => (String c "." ++ rest ++ "e+" ++ e)%string
  | EmptyString => d
  end.

(** [x.toFixed(f)] for [0 <= f <= 100]. *)
Definition toFixed (x : number) (f : nat) : string :=
  match Prim2SF x with
  | S754_nan => "NaN"
  | S754_infinity false => "Infinity"
  | S754_infinity true => "-Infinity"
  | S754_zero _ => fixed_point 0 f
  | S754_finite s m e =>
      let sign := if s then "-" else ""%string in
      if (0 <=? e) && (10 ^ 21 <=? Zpos m * 2 ^ e) then
        (sign ++ exponential (S754_finite false m e) (Zpos m * 2 ^ e))%string
      else
        (sign ++ fixed_point (nearest_scaled m e f) f)%string
  end.

End JS.

(** ** The calculation core of [server.js] *)

Module Server.
Import JS.
Local Open Scope float_scope.
Local Open Scope string_scope.

(** *** Nutrient calculation functions *)

Definition calculateVitaminD (foodCode : string) (chocal oh25d3 : number)
  : number :=
  if str_ge foodCode "A001" && str_le foodCode "L004" then
    chocal
  else if str_ge foodCode "M001" && str_le foodCode "S010" then
    chocal + (5 * oh25d3)
  else 0.

(** *** Scaling a nutrient record to a quantity

    A nutrient record is the object [getNutrientData] builds for a
    spreadsheet row: a map from header names to cell strings. *)
Abbreviation NutrientRecord := (gmap string string).

(** The object [calculateScaledNutrition] returns. *)
Abbreviation Scaled := (gmap string number).

(** The names are those of the source file, byte for byte. *)
Definition numericFields : list string :=
  [ "Protein (g)"; "Fat (g)"; "Total fibre (g)"; "Carbohydrate (g)";
    "Energy (Kcal)"; "Energy (KJ)"; "Thiamine, B1 (mg)"; "Riboflavin, B2 (mg)";
    "Niacin, B3 (mg)"; "Pantothenic Acid B5 (mg)"; "Pyridoxine B6 (mg)";
    "Biotin, B7 (Âµg)"; "Folate, B9 (Âµg)"; "Vitamin C (mg)"; "Vitamin A (Âµg)";
    "Vitamin D (Âµg)"; "VITE (mg)"; "VITK1 (Âµg)"; "Iron (Fe) mg";
    "Calcium (Ca) mg"; "Magnesium (Mg) mg"; "Zinc (Zn) mg"; "Selenium (Se) Âµg";
    "Sodium (Na) mg"; "Potassium (K) mg"; "Phosphorus (P) mg"; "Cobalt (Co) mg";
    "Omega 3 (mg)"; "Omega 6 (mg)"; "MUFA"; "PUFA"; "SATURATED FAT";
    "TOTAL SUGAR (g)" ].

(** The value of a field before scaling: [parseFloat(record[field]) || 0]. *)
Definition field_value (nutrientData : NutrientRecord) (field : string)
  : number :=
  or_else (parseFloat (ToString (nutrientData !! field))) 0.

Definition calculateScaledNutrition (nutrientData : NutrientRecord)
    (quantity : number) : Scaled :=
  let factor := quantity / 100 in
  foldl (fun (scaled : Scaled) field =>
           let value := field_value nutrientData field in
           <[field := value * factor]> scaled)
        ∅ numericFields.

(** *** The request and the accumulator of the recipe handler *)

(** An ingredient line of the request.  The handler checks none of its
    fields: each is [None] when the line leaves it out, and reading it
    gives [undefined]. *)
Record Ingredient := {
  lineNo : option number;
  code : option string;
  name : option string;
  quantityInGrams : option number
}.

Record TotalNutrition := {
  energy : number;
  protein : number;
  fat : number;
  carbs : number;
  fiber : number;
  vitaminD : number;
  vitaminA : number;
  omega3 : number;
  omega6 : number;
  energyKJ : number;
  thiamine : number;
  riboflavin : number;
  niacin : number;
  pantothenicAcid : number;
  pyridoxine : number;
  biotin : number;
  folate : number;
  vitaminC : number;
  vitaminE : number;
  vitaminK1 : number;
  iron : number;
  calcium : number;
  magnesium : number;
  zinc : number;
  selenium : number;
  sodium : number;
  potassium : number;
  phosphorus : number;
  cobalt : number;
  mufa : number;
  pufa : number;
  saturatedFat : number;
  totalSugar : number
}.

(** The initial value of [totalNutrition]. *)
Definition totalNutrition_init : TotalNutrition :=
  {| energy := 0; protein := 0; fat := 0; carbs := 0; fiber := 0;
     vitaminD := 0; vitaminA := 0; omega3 := 0; omega6 := 0; energyKJ := 0;
     thiamine := 0; riboflavin := 0; niacin := 0; pantothenicAcid := 0;
     pyridoxine := 0; biotin := 0; folate := 0; vitaminC := 0; vitaminE := 0;
     vitaminK1 := 0; iron := 0; calcium := 0; magnesium := 0; zinc := 0;
     selenium := 0; sodium := 0; potassium := 0; phosphorus := 0; cobalt := 0;
     mufa := 0; pufa := 0; saturatedFat := 0; totalSugar := 0 |}.

(** [acc += v] for the result [v] of reading a property of the scaled
    record. *)
Definition add_assign (acc : number) (v : option number) : number :=
  acc + ToNumber v.

(** The block "Add to total nutrition" of the loop body. *)
Definition add_to_total (t : TotalNutrition) (scaled : Scaled)
  : TotalNutrition :=
  {| energy := add_assign (energy t) (scaled !! "Energy (Kcal)");
     protein := add_assign (protein t) (scaled !! "Protein (g)");
     fat := add_assign (fat t) (scaled !! "Fat (g)");
     carbs := add_assign (carbs t) (scaled !! "Carbohydrate (g)");
     fiber := add_assign (fiber t) (scaled !! "Total fibre (g)");
     vitaminD := add_assign (vitaminD t) (scaled !! "Vitamin D (Âµg)");
     vitaminA := add_assign (vitaminA t) (scaled !! "Vitamin A (Âµg)");
     omega3 := add_assign (omega3 t) (scaled !! "Omega 3 (mg)");
     omega6 := add_assign (omega6 t) (scaled !! "Omega 6 (mg)");
     energyKJ := add_assign (energyKJ t) (scaled !! "Energy (KJ)");
     thiamine := add_assign (thiamine t) (scaled !! "Thiamine, B1 (mg)");
     riboflavin := add_assign (riboflavin t) (scaled !! "Riboflavin, B2 (mg)");
     niacin := add_assign (niacin t) (scaled !! "Niacin, B3 (mg)");
     pantothenicAcid :=
       add_assign (pantothenicAcid t) (scaled !! "Pantothenic Acid B5 (mg)");
     pyridoxine := add_assign (pyridoxine t) (scaled !! "Pyridoxine B6 (mg)");
     biotin := add_assign (biotin t) (scaled !! "Biotin, B7 (Âµg)");
     folate := add_assign (folate t) (scaled !! "Folate, B9 (Âµg)");
     vitaminC := add_assign (vitaminC t) (scaled !! "Vitamin C (mg)");
     vitaminE := add_assign (vitaminE t) (scaled !! "VITE (mg)");
     vitaminK1 := add_assign (vitaminK1 t) (scaled !! "VITK1 (Âµg)");
     iron := add_assign (iron t) (scaled !! "Iron (Fe) mg");
     calcium := add_assign (calcium t) (scaled !! "Calcium (Ca) mg");
     magnesium := add_assign (magnesium t) (scaled !! "Magnesium (Mg) mg");
     zinc := add_assign (zinc t) (scaled !! "Zinc (Zn) mg");
     selenium := add_assign (selenium t) (scaled !! "Selenium (Se) Âµg");
     sodium := add_assign (sodium t) (scaled !! "Sodium (Na) mg");
     potassium := add_assign (potassium t) (scaled !! "Potassium (K) mg");
     phosphorus := add_assign (phosphorus t) (scaled !! "Phosphorus (P) mg");
     cobalt := add_assign (cobalt t) (scaled !! "Cobalt (Co) mg");
     mufa := add_assign (mufa t) (scaled !! "MUFA");
     pufa := add_assign (pufa t) (scaled !! "PUFA");
     saturatedFat := add_assign (saturatedFat t) (scaled !! "SATURATED FAT");
     totalSugar := add_assign (totalSugar t) (scaled !! "TOTAL SUGAR (g)") |}.

(** The row pushed onto [recipeItems] for one ingredient. *)
Definition item_row (timestamp recipeId : string) (ingredient : Ingredient)
    (scaled : Scaled) : list value :=
  [ VString timestamp;
    VString recipeId;
    of_property (lineNo ingredient);
    of_text (code ingredient);
    of_text (name ingredient);
    of_property (quantityInGrams ingredient);
    of_property (scaled !! "Energy (Kcal)");
    of_property (scaled !! "Protein (g)");
    of_property (scaled !! "Fat (g)");
    of_property (scaled !! "Carbohydrate (g)");
    of_property (scaled !! "Total fibre (g)");
    of_property (scaled !! "Vitamin D (Âµg)");
    of_property (scaled !! "Vitamin A (Âµg)");
    of_property (scaled !! "Omega 3 (mg)");
    of_property (scaled !! "Omega 6 (mg)");
    of_property (scaled !! "Energy (KJ)");
    of_property (scaled !! "Thiamine, B1 (mg)");
    of_property (scaled !! "Riboflavin, B2 (mg)");
    of_property (scaled !! "Niacin, B3 (mg)");
    of_property (scaled !! "Pantothenic Acid B5 (mg)");
    of_property (scaled !! "Pyridoxine B6 (mg)");
    of_property (scaled !! "Biotin, B7 (Âµg)");
    of_property (scaled !! "Folate, B9 (Âµg)");
    of_property (scaled !! "Vitamin C (mg)");
    of_property (scaled !! "VITE (mg)");
    of_property (scaled !! "VITK1 (Âµg)");
    of_property (scaled !! "Iron (Fe) mg");
    of_property (scaled !! "Calcium (Ca) mg");
    of_property (scaled !! "Magnesium (Mg) mg");
    of_property (scaled !! "Zinc (Zn) mg");
    of_property (scaled !! "Selenium (Se) Âµg");
    of_property (scaled !! "Sodium (Na) mg");
    of_property (scaled !! "Potassium (K) mg");
    of_property (scaled !! "Phosphorus (P) mg");
    of_property (scaled !! "Cobalt (Co) mg");
    of_property (scaled !! "MUFA");
    of_property (scaled !! "PUFA");
    of_property (scaled !! "SATURATED FAT");
    of_property (scaled !! "TOTAL SUGAR (g)") ].

(** [a === b] for two values that are strings when they are there:
    two strings are compared, and [undefined] equals [undefined] only. *)
Definition strict_equals (a b : option string) : bool :=
  match a, b with
  | Some s, Some t => String.eqb s t
  | None, None => true
  | _, _ => false
  end.

(** [nutrientData.find(n => n['Food code'] === code)]. *)
Definition find_nutrient (nutrientData : list NutrientRecord)
    (c : option string) : option NutrientRecord :=
  List.find (fun n => strict_equals (n !! "Food code") c) nutrientData.

(** The two variables the loop over [ingredients] updates. *)
Record LoopState := {
  totalNutrition : TotalNutrition;
  recipeItems : list (list value)
}.

Definition loop_init : LoopState :=
  {| totalNutrition := totalNutrition_init; recipeItems := [] |}.

(** One iteration of [for (const ingredient of ingredients)].  The
    scaler divides the quantity by 100, which makes a Number of it. *)
Definition loop_body (timestamp recipeId : string)
    (nutrientData : list NutrientRecord) (st : LoopState)
    (ingredient : Ingredient) : LoopState :=
  match find_nutrient nutrientData (code ingredient) with
  | None => st
  | Some nutrient =>
      let scaled :=
        calculateScaledNutrition nutrient
          (ToNumber (quantityInGrams ingredient)) in
      {| totalNutrition := add_to_total (totalNutrition st) scaled;
         recipeItems :=
           recipeItems st ++ [item_row timestamp recipeId ingredient scaled] |}
  end.

Definition aggregate (timestamp recipeId : string)
    (nutrientData : list NutrientRecord) (ingredients : list Ingredient)
  : LoopState :=
  foldl (loop_body timestamp recipeId nutrientData) loop_init ingredients.

(** *** Formatting and the response *)

(** The fields of the request body that the handler reads.  It checks
    none of them: each is [None] when the request leaves it out.  The
    texts and the yield are passed to the recipe row as they are, and the
    divisions by the yield make a Number of it.  [ingredients] is the
    array that the loop runs over. *)
Record RequestBody := {
  recipeName : option string;
  recipeYield : option number;
  method : option string;
  healthBenefits : option string;
  precautions : option string;
  source : option string;
  mealTags : option string;
  ingredients : list Ingredient
}.

(** [omega3To6Ratio]: a string from [toFixed], or the number [0]. *)
Definition omega3To6Ratio (t : TotalNutrition) : value :=
  if (0 <? omega6 t)%float then VString (toFixed (omega3 t / omega6 t) 2)
  else VNumber 0.

Definition recipeRow (timestamp recipeId : string) (body : RequestBody)
    (t : TotalNutrition) : list value :=
  [ VString timestamp;
    VString recipeId;
    of_text (recipeName body);
    of_property (recipeYield body);
    of_text (method body);
    of_text (healthBenefits body);
    of_text (precautions body);
    of_text (source body);
    of_text (mealTags body);
    VString (toFixed (energy t) 2);
    VString (toFixed (protein t) 2);
    VString (toFixed (fat t) 2);
    VString (toFixed (carbs t) 2);
    VString (toFixed (fiber t) 2);
    VString (toFixed (vitaminD t) 2);
    VString (toFixed (vitaminA t) 2);
    VString (toFixed (omega3 t) 2);
    VString (toFixed (omega6 t) 2);
    omega3To6Ratio t;
    VString (toFixed (energyKJ t) 2);
    VString (toFixed (thiamine t) 3);
    VString (toFixed (riboflavin t) 3);
    VString (toFixed (niacin t) 2);
    VString (toFixed (pantothenicAcid t) 2);
    VString (toFixed (pyridoxine t) 3);
    VString (toFixed (biotin t) 2);
    VString (toFixed (folate t) 2);
    VString (toFixed (vitaminC t) 2);
    VString (toFixed (vitaminE t) 2);
    VString (toFixed (vitaminK1 t) 2);
    VString (toFixed (iron t) 2);
    VString (toFixed (calcium t) 2);
    VString (toFixed (magnesium t) 2);
    VString (toFixed (zinc t) 2);
    VString (toFixed (selenium t) 2);
    VString (toFixed (sodium t) 2);
    VString (toFixed (potassium t) 2);
    VString (toFixed (phosphorus t) 2);
    VString (toFixed (cobalt t) 3);
    VString (toFixed (mufa t) 2);
    VString (toFixed (pufa t) 2);
    VString (toFixed (saturatedFat t) 2);
    VString (toFixed (totalSugar t) 2);
    of_property (recipeYield body);
    VString (toFixed (energy t / ToNumber (recipeYield body)) 2);
    VString (toFixed (protein t / ToNumber (recipeYield body)) 2);
    VString (toFixed (fat t / ToNumber (recipeYield body)) 2);
    VString (toFixed (carbs t / ToNumber (recipeYield body)) 2);
    VString (toFixed (fiber t / ToNumber (recipeYield body)) 2) ].

(** The [perServing] object of the response. *)
Module PerServing.
Record t := {
  energy : string;
  protein : string;
  fat : string;
  carbs : string;
  fiber : string
}.
End PerServing.

Definition perServing_of (t : TotalNutrition) (recipeYield : option number)
  : PerServing.t :=
  {| PerServing.energy := toFixed (energy t / ToNumber recipeYield) 2;
     PerServing.protein := toFixed (protein t / ToNumber recipeYield) 2;
     PerServing.fat := toFixed (fat t / ToNumber recipeYield) 2;
     PerServing.carbs := toFixed (carbs t / ToNumber recipeYield) 2;
     PerServing.fiber := toFixed (fiber t / ToNumber recipeYield) 2 |}.

Record Nutrition := {
  total : TotalNutrition;
  perServing : PerServing.t
}.

(** The object passed to [res.json]. *)
Record Response := {
  success : bool;
  recipeId : string;
  message : string;
  nutrition : Nutrition
}.

(** A call of [sheets.spreadsheets.values.append]: the range and the
    rows. *)
Inductive SheetsCall :=
| Append (range : string) (values : list (list value)).

Definition RECIPE_SHEET : string := "Recipes".
Definition RECIPE_ITEMS_SHEET : string := "RecipeItems".

(** The [POST /api/recipes] handler from the point where the nutrient
    data, the recipe identifier and the timestamp are known, on the path
    where no call to the spreadsheet service fails: the rows appended,
    in order, and the response. *)
Definition post_recipes (timestamp recipeId : string)
    (nutrientData : list NutrientRecord) (body : RequestBody)
  : list SheetsCall * Response :=
  let st := aggregate timestamp recipeId nutrientData (ingredients body) in
  let totalNutrition := totalNutrition st in
  let recipeItems := recipeItems st in
  let recipeRow := recipeRow timestamp recipeId body totalNutrition in
  let appended :=
    Append (RECIPE_SHEET ++ "!A:A") [recipeRow]
    :: (if (0 <? length recipeItems)%nat
        then [Append (RECIPE_ITEMS_SHEET ++ "!A:A") recipeItems]
        else []) in
  (appended,
   {| success := true;
      recipeId := recipeId;
      message := "Recipe saved successfully";
      nutrition :=
        {| total := totalNutrition;
           perServing := perServing_of totalNutrition (recipeYield body) |} |}).

(** *** The accumulated nutrients

    The 33 fields of [totalNutrition], each with the field of the scaled
    record that the loop adds to it, its column in a [recipeItems] row and
    its column in [recipeRow]. *)
Inductive Nutrient :=
| Energy | Protein | Fat | Carbs | Fiber | VitaminD | VitaminA | Omega3
| Omega6 | EnergyKJ | Thiamine | Riboflavin | Niacin | PantothenicAcid
| Pyridoxine | Biotin | Folate | VitaminC | VitaminE | VitaminK1 | Iron
| Calcium | Magnesium | Zinc | Selenium | Sodium | Potassium | Phosphorus
| Cobalt | Mufa | Pufa | SaturatedFat | TotalSugar.

Definition all_nutrients : list Nutrient :=
  [ Energy; Protein; Fat; Carbs; Fiber; VitaminD; VitaminA; Omega3;
    Omega6; EnergyKJ; Thiamine; Riboflavin; Niacin; PantothenicAcid;
    Pyridoxine; Biotin; Folate; VitaminC; VitaminE; VitaminK1; Iron;
    Calcium; Magnesium; Zinc; Selenium; Sodium; Potassium; Phosphorus;
    Cobalt; Mufa; Pufa; SaturatedFat; TotalSugar ].

Definition total_of (n : Nutrient) : TotalNutrition -> number :=
  match n with
  | Energy => energy | Protein => protein | Fat => fat | Carbs => carbs
  | Fiber => fiber | VitaminD => vitaminD | VitaminA => vitaminA
  | Omega3 => omega3 | Omega6 => omega6 | EnergyKJ => energyKJ
  | Thiamine => thiamine | Riboflavin => riboflavin | Niacin => niacin
  | PantothenicAcid => pantothenicAcid | Pyridoxine => pyridoxine
  | Biotin => biotin | Folate => folate | VitaminC => vitaminC
  | VitaminE => vitaminE | VitaminK1 => vitaminK1 | Iron => iron
  | Calcium => calcium | Magnesium => magnesium | Zinc => zinc
  | Selenium => selenium | Sodium => sodium | Potassium => potassium
  | Phosphorus => phosphorus | Cobalt => cobalt | Mufa => mufa
  | Pufa => pufa | SaturatedFat => saturatedFat | TotalSugar => totalSugar
  end.

Definition field_of (n : Nutrient) : string :=
  match n with
  | Energy => "Energy (Kcal)" | Protein => "Protein (g)" | Fat => "Fat (g)"
  | Carbs => "Carbohydrate (g)" | Fiber => "Total fibre (g)"
  | VitaminD => "Vitamin D (Âµg)" | VitaminA => "Vitamin A (Âµg)"
  | Omega3 => "Omega 3 (mg)" | Omega6 => "Omega 6 (mg)"
  | EnergyKJ => "Energy (KJ)" | Thiamine => "Thiamine, B1 (mg)"
  | Riboflavin => "Riboflavin, B2 (mg)" | Niacin => "Niacin, B3 (mg)"
  | PantothenicAcid => "Pantothenic Acid B5 (mg)"
  | Pyridoxine => "Pyridoxine B6 (mg)" | Biotin => "Biotin, B7 (Âµg)"
  | Folate => "Folate, B9 (Âµg)" | VitaminC => "Vitamin C (mg)"
  | VitaminE => "VITE (mg)" | VitaminK1 => "VITK1 (Âµg)"
  | Iron => "Iron (Fe) mg" | Calcium => "Calcium (Ca) mg"
  | Magnesium => "Magnesium (Mg) mg" | Zinc => "Zinc (Zn) mg"
  | Selenium => "Selenium (Se) Âµg" | Sodium => "Sodium (Na) mg"
  | Potassium => "Potassium (K) mg" | Phosphorus => "Phosphorus (P) mg"
  | Cobalt => "Cobalt (Co) mg" | Mufa => "MUFA" | Pufa => "PUFA"
  | SaturatedFat => "SATURATED FAT" | TotalSugar => "TOTAL SUGAR (g)"
  end.

(** The position of a nutrient in the order above, from 0. *)
Definition index_of (n : Nutrient) : nat :=
  match n with
  | Energy => 0 | Protein => 1 | Fat => 2 | Carbs => 3 | Fiber => 4
  | VitaminD => 5 | VitaminA => 6 | Omega3 => 7 | Omega6 => 8
  | EnergyKJ => 9 | Thiamine => 10 | Riboflavin => 11 | Niacin => 12
  | PantothenicAcid => 13 | Pyridoxine => 14 | Biotin => 15 | Folate => 16
  | VitaminC => 17 | VitaminE => 18 | VitaminK1 => 19 | Iron => 20
  | Calcium => 21 | Magnesium => 22 | Zinc => 23 | Selenium => 24
  | Sodium => 25 | Potassium => 26 | Phosphorus => 27 | Cobalt => 28
  | Mufa => 29 | Pufa => 30 | SaturatedFat => 31 | TotalSugar => 32
  end%nat.

(** Six identifying cells come first in a [recipeItems] row. *)
Definition item_column (n : Nutrient) : nat := (6 + index_of n)%nat.

(** Nine identifying cells come first in [recipeRow], and the omega
    ratio stands between omega 6 and the energy in kJ. *)
Definition recipe_column (n : Nutrient) : nat :=
  (if (index_of n <=? 8)%nat then 9 + index_of n else 10 + index_of n)%nat.

(** The precision the specification gives for each total: three
    decimals for thiamine, riboflavin, pyridoxine and cobalt, two for
    every other field. *)
Definition decimals (n : Nutrient) : nat :=
  match n with
  | Thiamine | Riboflavin | Pyridoxine | Cobalt => 3
  | _ => 2
  end%nat.

(** The per-serving nutrients, with their column in [recipeRow] and
    their field of the [perServing] object. *)
Inductive ServingNutrient := SEnergy | SProtein | SFat | SCarbs | SFiber.

Definition serving_total (n : ServingNutrient) : TotalNutrition -> number :=
  match n with
  | SEnergy => energy | SProtein => protein | SFat => fat
  | SCarbs => carbs | SFiber => fiber
  end.

Definition serving_field (n : ServingNutrient) : PerServing.t -> string :=
  match n with
  | SEnergy => PerServing.energy | SProtein => PerServing.protein
  | SFat => PerServing.fat | SCarbs => PerServing.carbs
  | SFiber => PerServing.fiber
  end.

Definition serving_column (n : ServingNutrient) : nat :=
  match n with
  | SEnergy => 44 | SProtein => 45 | SFat => 46 | SCarbs => 47 | SFiber => 48
  end%nat.

(** *** The other nutrient calculation functions *)

Definition calculateVitaminA (retinol betaCarotene alphaCarotene : number)
  : number :=
  retinol + (betaCarotene / 12) + (alphaCarotene / 24).

Definition calculateOmega3Veg (c18_3n3 : number) : number := c18_3n3.

Definition calculateOmega6Veg (c18_2n6 : number) : number := c18_2n6.

(** The value of a parameter declared with the default [= 0]: the
    default stands in for an argument that is left out. *)
Definition or_default (arg : option number) : number :=
  match arg with
  | Some x => x
  | None => 0
  end.

Definition calculateOmega3NonVeg (c18_3n3 c20_5n3 c22_6n3 : number)
    (c22_5n3 : option number) : number :=
  c18_3n3 + c20_5n3 + c22_6n3 + or_default c22_5n3.

Definition calculateOmega6NonVeg (c18_2n6 c20_4n6 : number)
    (c18_3n6 : option number) : number :=
  c18_2n6 + c20_4n6 + or_default c18_3n6.

(** *** Rows read from a spreadsheet range

    [response.data.values] of a [spreadsheets.values.get] call: the rows
    of the range, each the texts of its cells; [None] when the reply has
    no [values] property.  A row stops at its last cell that is not
    empty, so rows differ in length. *)
Abbreviation Row := (list string).
Abbreviation Values := (option (list Row)).

(** [ToBoolean] on a cell read by index: [undefined] and the empty
    string are falsy. *)
Definition truthy (v : option string) : bool :=
  match v with
  | Some s => negb (String.eqb s "")
  | None => false
  end.

(** [row[index] || '']. *)
Definition or_empty (v : option string) : string :=
  match v with
  | Some s => if truthy v then s else ""
  | None => ""
  end.

(** [object[key] = v] on an object made by [{}].  Every key becomes an
    own property but ["__proto__"]: that one names the accessor inherited
    from [Object.prototype], the assignment calls its setter, and the own
    properties stay as they are. *)
Definition assign {V : Type} (object : gmap string V) (key : string) (v : V)
  : gmap string V :=
  if String.eqb key "__proto__" then object else <[key := v]> object.

(** [headers.forEach((header, index) => { item[header] = row[index] || ''; })],
    from position [index] on. *)
Fixpoint forEach_header (headers : Row) (index : nat) (row : Row)
    (item : NutrientRecord) : NutrientRecord :=
  match headers with
  | [] => item
  | header :: rest =>
      forEach_header rest (S index) row
        (assign item header (or_empty (row !! index)))
  end.

(** The object built for one row: [const item = {}], then the loop over
    the headers. *)
Definition row_object (headers row : Row) : NutrientRecord :=
  forEach_header headers 0 row ∅.

(** [rows.slice(1).map(row => ...)] with [headers = rows[0]]. *)
Definition row_objects (rows : list Row) : list NutrientRecord :=
  match rows with
  | [] => []
  | headers :: data => row_object headers <$> data
  end.

(** [getNutrientData], from the reply of the spreadsheet service on. *)
Definition getNutrientData (values : Values) : list NutrientRecord :=
  match values with
  | None => []
  | Some rows => if (length rows =? 0)%nat then [] else row_objects rows
  end.

(** An entry of the unit map. *)
Record UnitConversion := {
  gPerUnit : number;
  density : number
}.

(** The body of [rows.slice(1).forEach(row => ...)] in
    [getUnitConversions]. *)
Definition add_unit (unitMap : gmap string UnitConversion) (row : Row)
  : gmap string UnitConversion :=
  if truthy (row !! 0%nat) && truthy (row !! 1%nat) then
    assign unitMap (ToString (row !! 0%nat) ++ "_" ++ ToString (row !! 1%nat))
      {| gPerUnit := or_else (parseFloat (ToString (row !! 2%nat))) 1;
         density := or_else (parseFloat (ToString (row !! 3%nat))) 1 |}
  else unitMap.

(** [getUnitConversions], from the reply of the spreadsheet service on. *)
Definition getUnitConversions (values : Values) : gmap string UnitConversion :=
  match values with
  | None => ∅
  | Some rows =>
      if (length rows =? 0)%nat then ∅ else foldl add_unit ∅ (drop 1 rows)
  end.

(** *** The read routes *)

(** An entry of the list that [GET /api/ingredients] sends. *)
Module Summary.
Record t := {
  code : option string;
  name : option string;
  protein : number;
  fat : number;
  carbs : number;
  fiber : number;
  energy : number
}.
End Summary.

Definition summary_of (item : NutrientRecord) : Summary.t :=
  {| Summary.code := item !! "Food code";
     Summary.name := item !! "Food Name";
     Summary.protein := or_else (parseFloat (ToString (item !! "Protein (g)"))) 0;
     Summary.fat := or_else (parseFloat (ToString (item !! "Fat (g)"))) 0;
     Summary.carbs :=
       or_else (parseFloat (ToString (item !! "Carbohydrate (g)"))) 0;
     Summary.fiber :=
       or_else (parseFloat (ToString (item !! "Total fibre (g)"))) 0;
     Summary.energy :=
       or_else (parseFloat (ToString (item !! "Energy (Kcal)"))) 0 |}.

(** [GET /api/ingredients], from the reply of the spreadsheet service
    on. *)
Definition get_ingredients (values : Values) : list Summary.t :=
  let nutrientData := getNutrientData values in
  summary_of <$> nutrientData.

(** [GET /api/recipes], from the reply of the spreadsheet service on. *)
Definition get_recipes (values : Values) : list (gmap string string) :=
  match values with
  | None => []
  | Some rows => if (length rows =? 0)%nat then [] else row_objects rows
  end.

(** The replies of [GET /api/recipes/:id]: the recipe with its items,
    status 404 with [{ error: 'Recipe not found' }], and status 500 with
    [{ error: 'Failed to fetch recipe details' }]. *)
Inductive RecipeReply :=
| Found (recipe : gmap string string) (items : list (gmap string string))
| NotFound
| Failed.

(** [row => row[1] === recipeId]. *)
Definition in_column_B (recipeId : string) (row : Row) : bool :=
  strict_equals (row !! 1%nat) (Some recipeId).

(** [GET /api/recipes/:id], from the replies of the spreadsheet service
    on.  Reading [recipeRows[0]] or [itemRows[0]] throws when the reply
    has no values, and the handler answers 500; the items are read only
    after the recipe is found. *)
Definition get_recipe_by_id (recipeValues itemValues : Values)
    (recipeId : string) : RecipeReply :=
  match recipeValues with
  | None => Failed
  | Some recipeRows =>
      let recipeHeaders := recipeRows !! 0%nat in
      match List.find (in_column_B recipeId) recipeRows with
      | None => NotFound
      | Some recipeRow =>
          match recipeHeaders with
          | None => Failed
          | Some recipeHeaders =>
              let recipe := row_object recipeHeaders recipeRow in
              match itemValues with
              | None => Failed
              | Some itemRows =>
                  let items :=
                    match itemRows !! 0%nat with
                    | None => []
                    | Some itemHeaders =>
                        row_object itemHeaders
                        <$> List.filter (in_column_B recipeId) (drop 1 itemRows)
                    end in
                  Found recipe items
              end
          end
      end
  end.

(** *** The route table

    The routes in the order in which the file registers them.  A request
    goes to the first route whose method and path pattern match it; no
    handler of the file passes a request on. *)
Inductive Method := GET | HEAD | POST | OtherMethod.

Inductive Segment :=
| Literal (text : string)
| Param (name : string).

Inductive Handler :=
| HIngredients | HCreateRecipe | HRecipes | HRecipeById | HRoot | HHealth
| HPing.

Definition routes : list (Method * list Segment * Handler) :=
  [ (GET, [Literal "api"; Literal "ingredients"], HIngredients);
    (POST, [Literal "api"; Literal "recipes"], HCreateRecipe);
    (GET, [Literal "api"; Literal "recipes"], HRecipes);
    (GET, [Literal "api"; Literal "recipes"; Param "id"], HRecipeById);
    (GET, [], HRoot);
    (GET, [Literal "health"], HHealth);
    (GET, [Literal "api"; Literal "recipes"; Literal "ping"], HPing) ].

(** A route registered with [app.get] also answers [HEAD]. *)
Definition method_matches (route request : Method) : bool :=
  match route, request with
  | GET, GET | GET, HEAD | POST, POST => true
  | _, _ => false
  end.

(** Letters are compared without regard to case. *)
Definition lower (c : ascii) : ascii :=
  let n := nat_of_ascii c in
  if ((65 <=? n) && (n <=? 90))%nat then ascii_of_nat (n + 32) else c.

(** The rest of [path] after [text], compared without regard to case. *)
Fixpoint strip_literal (text path : string) : option string :=
  match text, path with
  | EmptyString, _ => Some path
  | String c text', String d path' =>
      if Ascii.eqb (lower c) (lower d) then strip_literal text' path' else None
  | String _ _, EmptyString => None
  end.

(** The rest of [path] after its longest prefix without a slash, and
    whether that prefix is empty. *)
Fixpoint strip_param (path : string) : bool * string :=
  match path with
  | EmptyString => (true, EmptyString)
  | String c path' =>
      if Ascii.eqb c "/" then (true, path)
      else (false, snd (strip_param path'))
  end.

(** A pattern matches a path when each of its segments, after a slash,
    matches in turn and at most one slash is left at the end. *)
Fixpoint path_matches (pattern : list Segment) (path : string) : bool :=
  match pattern with
  | [] => String.eqb path "" || String.eqb path "/"
  | segment :: rest =>
      match path with
      | EmptyString => false
      | String c path' =>
          Ascii.eqb c "/"
          && match segment with
             | Literal text =>
                 match strip_literal text path' with
                 | Some path'' => path_matches rest path''
                 | None => false
                 end
             | Param _ =>
                 negb (fst (strip_param path'))
                 && path_matches rest (snd (strip_param path'))
             end
      end
  end.

Definition dispatch (method : Method) (path : string) : option Handler :=
  snd <$> List.find (fun route => method_matches route.1.1 method
                                  && path_matches route.1.2 path) routes.

(** *** The recipe handler with its calls to the spreadsheet service

    What the service does with the calls of one request: whether the
    client is obtained, the reply to a read of a range, and whether an
    append to a range succeeds.  [false] and [None] stand for a call
    that throws. *)
Record Service := {
  client_ok : bool;
  read_range : string -> option Values;
  append_succeeds : string -> bool
}.

Definition NUTRIENT_SHEET : string := "NutrientData".
Definition UNIT_MAP_SHEET : string := "UnitMap".

(** The replies of [POST /api/recipes]: the response of a saved recipe,
    and status 500 with [{ error: 'Failed to create recipe' }]. *)
Inductive PostReply :=
| Saved (response : Response)
| SaveFailed.

(** The appends in order up to the first one that throws: those made,
    and whether all were made. *)
Fixpoint perform (service : Service) (calls : list SheetsCall)
  : list SheetsCall * bool :=
  match calls with
  | [] => ([], true)
  | Append range values :: rest =>
      if append_succeeds service range then
        (Append range values :: (perform service rest).1,
         (perform service rest).2)
      else ([], false)
  end.

(** [POST /api/recipes] inside its [try]: the appends made and the
    reply.  The handler reads the nutrient sheet and the unit sheet, and
    does not use [unitConversions] after that. *)
Definition post_recipes_handler (service : Service)
    (timestamp recipeId : string) (body : RequestBody)
  : list SheetsCall * PostReply :=
  if client_ok service then
    match read_range service (NUTRIENT_SHEET ++ "!A:AH") with
    | None => ([], SaveFailed)
    | Some nutrientValues =>
        let nutrientData := getNutrientData nutrientValues in
        match read_range service (UNIT_MAP_SHEET ++ "!A:D") with
        | None => ([], SaveFailed)
        | Some unitValues =>
            let unitConversions := getUnitConversions unitValues in
            let saved := post_recipes timestamp recipeId nutrientData body in
            let made := perform service saved.1 in
            (made.1, if made.2 then Saved saved.2 else SaveFailed)
        end
    end
  else ([], SaveFailed).

End Server.

(** ** The vocabulary of the specification *)

Module Spec.
Import JS Server.

(** The lexicographic order on strings, by character code. *)
Inductive lex_le : string -> string -> Prop :=
| lex_le_nil (s : string) : lex_le EmptyString s
| lex_le_lt (c1 c2 : ascii) (s1 s2 : string) :
    (nat_of_ascii c1 < nat_of_ascii c2)%nat ->
    lex_le (String c1 s1) (String c2 s2)
| lex_le_eq (c : ascii) (s1 s2 : string) :
    lex_le s1 s2 -> lex_le (String c s1) (String c s2).

(** The closed lexicographic range from [lo] to [hi]. *)
Definition in_range (lo hi c : string) : Prop := lex_le lo c /\ lex_le c hi.

(** A cell text that is not numeric: after leading white space and an
    optional sign it starts neither with [Infinity], nor with a digit,
    nor with a point that a digit follows. *)
Definition non_numeric (s : string) : Prop :=
  let s1 := snd (read_sign (trim_start s)) in
  String.prefix "Infinity" s1 = false
  /\ match s1 with
     | EmptyString => True
     | String c s2 =>
         is_digit c = false
         /\ (c = "."%char ->
             match s2 with
             | EmptyString => True
             | String d _ => is_digit d = false
             end)
     end.

(** The Number is finite and its magnitude [m * 2^e] is below [10^21]:
    the case in which [toFixed] writes fixed-point notation. *)
Definition below_1e21 (x : number) : bool :=
  match Prim2SF x with
  | S754_zero _ => true
  | S754_finite _ m e => negb ((0 <=? e) && (10 ^ 21 <=? Zpos m * 2 ^ e))
  | _ => false
  end.

Fixpoint digits_only (s : string) : bool :=
  match s with
  | EmptyString => true
  | String c s' => is_digit c && digits_only s'
  end.

(** The number that a run of decimal digits denotes, after [acc]. *)
Fixpoint digits_value_from (acc : Z) (s : string) : Z :=
  match s with
  | EmptyString => acc
  | String c s' => digits_value_from (10 * acc + digit_value c) s'
  end.

Definition digits_value (s : string) : Z := digits_value_from 0 s.

(** [s] is the decimal numeral of [(-1)^neg * n / 10^d] with exactly [d]
    digits after the point: a minus sign when [neg], at least one
    digit, the point, and [d] digits. *)
Definition numeral (s : string) (neg : bool) (n : Z) (d : nat) : Prop :=
  exists ip fp : string,
    s = ((if neg then "-" else "") ++ ip ++ "." ++ fp)%string
    /\ ip <> ""%string
    /\ digits_only ip = true
    /\ digits_only fp = true
    /\ String.length fp = d
    /\ digits_value (ip ++ fp) = n.

(** [n] is the integer nearest to [m * 2^e * 10^d], the larger of the
    two when that number lies halfway between them. *)
Definition nearest (n : Z) (m : positive) (e : Z) (d : nat) : Prop :=
  2 ^ Z.max 0 (- e) * (2 * n - 1)
  <= 2 * (Zpos m * 2 ^ Z.max 0 e * 10 ^ Z.of_nat d)
  < 2 ^ Z.max 0 (- e) * (2 * n + 1).

(** Every character of [s] is a digit, the point or the minus sign, as
    in every numeral. *)
Fixpoint numeral_chars (s : string) : bool :=
  match s with
  | EmptyString => true
  | String c s' =>
      (is_digit c || Ascii.eqb c "." || Ascii.eqb c "-") && numeral_chars s'
  end.

(** [s] is the finite Number [x] rounded to [d] decimals: the numeral,
    with the sign of [x], of the multiple of [10^-d] nearest to the
    magnitude of [x]. *)
Definition rounded_to (s : string) (x : number) (d : nat) : Prop :=
  match Prim2SF x with
  | S754_zero _ => numeral s false 0 d
  | S754_finite neg m e => exists n, numeral s neg n d /\ nearest n m e d
  | _ => False
  end.

(** The canonical names of the numeric fields, as section 6 of the
    specification lists them. *)
Definition canonical_fields : list string :=
  [ "Protein (g)"; "Fat (g)"; "Total fibre (g)"; "Carbohydrate (g)";
    "Energy (Kcal)"; "Energy (KJ)"; "Thiamine, B1 (mg)"; "Riboflavin, B2 (mg)";
    "Niacin, B3 (mg)"; "Pantothenic Acid B5 (mg)"; "Pyridoxine B6 (mg)";
    "Biotin, B7 (µg)"; "Folate, B9 (µg)"; "Vitamin C (mg)"; "Vitamin A (µg)";
    "Vitamin D (µg)"; "VITE (mg)"; "VITK1 (µg)"; "Iron (Fe) mg";
    "Calcium (Ca) mg"; "Magnesium (Mg) mg"; "Zinc (Zn) mg"; "Selenium (Se) µg";
    "Sodium (Na) mg"; "Potassium (K) mg"; "Phosphorus (P) mg"; "Cobalt (Co) mg";
    "Omega 3 (mg)"; "Omega 6 (mg)"; "MUFA"; "PUFA"; "SATURATED FAT";
    "TOTAL SUGAR (g)" ]%string.

(** The name is written in ASCII: none of its bytes is 128 or more.  All
    canonical names are, but the six that give their unit with the micro
    sign. *)
Fixpoint ascii_only (s : string) : bool :=
  match s with
  | EmptyString => true
  | String c s' => (nat_of_ascii c <? 128)%nat && ascii_only s'
  end.

(** The bytes of a UTF-8 text read as Latin-1 characters and written in
    UTF-8 once more: a byte below 128 stays, every other byte becomes
    two. *)
Fixpoint double_encoded (s : string) : string :=
  match s with
  | EmptyString => EmptyString
  | String c s' =>
      let n := nat_of_ascii c in
      if (n <? 128)%nat then String c (double_encoded s')
      else String (ascii_of_nat (192 + n / 64))
             (String (ascii_of_nat (128 + n mod 64)) (double_encoded s'))
  end.

(** An ingredient line has no matching nutrient record. *)
Definition unmatched (nutrientData : list NutrientRecord) (ing : Ingredient)
  : Prop :=
  Forall (fun n : NutrientRecord => n !! "Food code"%string <> code ing)
         nutrientData.

(** The ingredient lines that have a nutrient record, in input order,
    each with the record found for it. *)
Definition matched_lines (nutrientData : list NutrientRecord)
    (ingredients : list Ingredient) : list (Ingredient * NutrientRecord) :=
  omap (fun ing => (fun r => (ing, r)) <$> find_nutrient nutrientData (code ing))
       ingredients.

(** What a matched line contributes to a nutrient: the value of the
    field in its record, scaled to its quantity. *)
Definition contribution (n : Nutrient) (line : Ingredient * NutrientRecord)
  : number :=
  (field_value line.2 (field_of n)
   * (ToNumber (quantityInGrams line.1) / 100))%float.

(** The row emitted for a matched line. *)
Definition row_of (timestamp recipeId : string)
    (line : Ingredient * NutrientRecord) : list value :=
  item_row timestamp recipeId line.1
    (calculateScaledNutrition line.2 (ToNumber (quantityInGrams line.1))).

(** The Number in column [i] of a row; [NaN] when the cell holds no
    Number. *)
Definition number_at (row : list value) (i : nat) : number :=
  match row !! i with
  | Some (VNumber x) => x
  | _ => nan
  end.

(** The sum of a list of Numbers as the loop computes it: from [0], left
    to right. *)
Definition sum_from_zero (l : list number) : number :=
  foldl PrimFloat.add 0%float l.

End Spec.

(** ** Example data *)

Module Examples.
Import JS Server.
Local Open Scope string_scope.

(** A nutrient record with a food code and one nutrient cell. *)
Definition record (foodCode field text : string) : NutrientRecord :=
  <["Food code" := foodCode]> (<[field := text]> ∅).

Definition line (foodCode : string) (grams : number) : Ingredient :=
  {| lineNo := Some 1%float; code := Some foodCode; name := Some foodCode;
     quantityInGrams := Some grams |}.

(** A line that gives its food code and nothing else. *)
Definition line_without_quantity (foodCode : string) : Ingredient :=
  {| lineNo := None; code := Some foodCode; name := None;
     quantityInGrams := None |}.

(** A line that gives its quantity and nothing else. *)
Definition line_without_code (grams : number) : Ingredient :=
  {| lineNo := None; code := None; name := None; quantityInGrams := Some grams |}.

(** One food with 200 kcal per 100 g. *)
Definition energy200 : NutrientRecord := record "A001" "Energy (Kcal)" "200".

(** Three foods with 0.1, 0.2 and 0.3 kcal per 100 g. *)
Definition tenths : list NutrientRecord :=
  [ record "A001" "Energy (Kcal)" "0.1";
    record "B002" "Energy (Kcal)" "0.2";
    record "C003" "Energy (Kcal)" "0.3" ].

(** A food with 1e21 kcal per 100 g. *)
Definition energy1e21 : NutrientRecord := record "A001" "Energy (Kcal)" "1e21".

(** A food with 1e25 mg of omega 3 and 1 mg of omega 6 per 100 g. *)
Definition omega_rich : NutrientRecord :=
  <["Omega 6 (mg)" := "1"]> (record "A001" "Omega 3 (mg)" "1e25").

(** Three foods with 1e16, 1 and 1 kcal per 100 g. *)
Definition large_and_small : list NutrientRecord :=
  [ record "A001" "Energy (Kcal)" "1e16";
    record "B002" "Energy (Kcal)" "1";
    record "C003" "Energy (Kcal)" "1" ].

Definition body (servings : number) (lines : list Ingredient) : RequestBody :=
  {| recipeName := Some "example"; recipeYield := Some servings;
     method := Some ""; healthBenefits := Some ""; precautions := Some "";
     source := Some ""; mealTags := Some ""; ingredients := lines |}.

(** Totals that are 0 except for omega 3 and omega 6. *)
Definition omega_totals (o3 o6 : number) : TotalNutrition :=
  {| energy := 0; protein := 0; fat := 0; carbs := 0; fiber := 0;
     vitaminD := 0; vitaminA := 0; omega3 := o3; omega6 := o6; energyKJ := 0;
     thiamine := 0; riboflavin := 0; niacin := 0; pantothenicAcid := 0;
     pyridoxine := 0; biotin := 0; folate := 0; vitaminC := 0; vitaminE := 0;
     vitaminK1 := 0; iron := 0; calcium := 0; magnesium := 0; zinc := 0;
     selenium := 0; sodium := 0; potassium := 0; phosphorus := 0; cobalt := 0;
     mufa := 0; pufa := 0; saturatedFat := 0; totalSugar := 0 |}.

(** A nutrient sheet: the header row, a full row, a row that stops
    after the name, and a second row for the first food code. *)
Definition nutrient_sheet : list Row :=
  [ [ "Food code"; "Food Name"; "Energy (Kcal)"; "Protein (g)" ];
    [ "A001"; "Rice"; "350"; "7" ];
    [ "B002"; "Dal" ];
    [ "A001"; "Rice, again"; "1"; "1" ] ].

(** A unit sheet: a row with a text and a zero where numbers belong, a
    row without a food code, and a row that stops after the weight. *)
Definition unit_sheet : list Row :=
  [ [ "Food code"; "Unit"; "g per unit"; "Density" ];
    [ "A001"; "cup"; "about 200"; "0" ];
    [ ""; "cup"; "1"; "1" ];
    [ "B002"; "tbsp"; "15" ] ].

Definition recipe_sheet : list Row :=
  [ [ "Timestamp"; "RecipeID"; "Recipe Name" ];
    [ "t1"; "r1"; "Khichdi" ];
    [ "t2"; "r2"; "Dal" ];
    [ "t3"; "r1"; "Khichdi, again" ] ].

Definition item_sheet : list Row :=
  [ [ "Timestamp"; "RecipeID"; "Line" ];
    [ "t1"; "r1"; "1" ];
    [ "t2"; "r2"; "1" ];
    [ "t1"; "r1"; "2" ] ].

(** A service that answers the reads with the example sheets, and
    whose appends succeed on the recipe sheet only. *)
Definition items_append_fails : Service :=
  {| client_ok := true;
     read_range := fun range =>
       if String.eqb range "NutrientData!A:AH" then Some (Some nutrient_sheet)
       else if String.eqb range "UnitMap!A:D" then Some (Some unit_sheet)
       else None;
     append_succeeds := fun range => String.eqb range "Recipes!A:A" |}.

(** The same service with an empty unit sheet. *)
Definition items_append_fails_no_units : Service :=
  {| client_ok := true;
     read_range := fun range =>
       if String.eqb range "NutrientData!A:AH" then Some (Some nutrient_sheet)
       else if String.eqb range "UnitMap!A:D" then Some None
       else None;
     append_succeeds := fun range => String.eqb range "Recipes!A:A" |}.

End Examples.

(** ** Binary64 rounding

    Facts about the rounding functions of [SpecFloat], at the precision
    and exponent range of binary64. *)

Section Rounding.

Lemma digits2_pos_bounds (p : positive) :
  2 ^ (Zpos (digits2_pos p) - 1) <= Zpos p < 2 ^ Zpos (digits2_pos p).
Proof.
  induction p as [p IH | p IH | ]; simpl digits2_pos;
    rewrite ?Pos2Z.inj_succ.
  - replace (Z.succ (Zpos (digits2_pos p)) - 1)
      with (Z.succ (Zpos (digits2_pos p) - 1)) by lia.
    rewrite !Z.pow_succ_r by lia. lia.
  - replace (Z.succ (Zpos (digits2_pos p)) - 1)
      with (Z.succ (Zpos (digits2_pos p) - 1)) by lia.
    rewrite !Z.pow_succ_r by lia. lia.
  - simpl. lia.
Qed.

Lemma Zdigits2_bounds (m : Z) :
  0 < m -> 2 ^ (Zdigits2 m - 1) <= m < 2 ^ Zdigits2 m.
Proof.
  destruct m as [ | p | p ]; try lia. intros _. apply digits2_pos_bounds.
Qed.

Lemma Zdigits2_pos (m : Z) : 0 < m -> 0 < Zdigits2 m.
Proof. destruct m; simpl; lia. Qed.

Lemma Zdigits2_lt_pow (m d : Z) : 0 < m -> m < 2 ^ d -> Zdigits2 m <= d.
Proof.
  intros Hm Hd. destruct (Zdigits2_bounds m Hm) as [Hlo _].
  destruct (Z.le_gt_cases (Zdigits2 m) d) as [ | Hgt ]; [ assumption | ].
  exfalso. assert (2 ^ d <= 2 ^ (Zdigits2 m - 1)); [ | lia ].
  apply Z.pow_le_mono_r; lia.
Qed.

Lemma Zdigits2_ge_pow (m d : Z) : 0 <= d -> 2 ^ d <= m -> d + 1 <= Zdigits2 m.
Proof.
  intros Hd Hm. assert (0 < m) as Hpos by (pose proof (Z.pow_pos_nonneg 2 d); lia).
  destruct (Zdigits2_bounds m Hpos) as [_ Hhi].
  destruct (Z.le_gt_cases (d + 1) (Zdigits2 m)) as [ | Hgt ]; [ assumption | ].
  exfalso. assert (2 ^ Zdigits2 m <= 2 ^ d); [ | lia ].
  apply Z.pow_le_mono_r; lia.
Qed.

Lemma Zdigits2_le (a b : Z) : 0 < a -> a <= b -> Zdigits2 a <= Zdigits2 b.
Proof.
  intros Ha Hab. apply Zdigits2_lt_pow; [ assumption | ].
  destruct (Zdigits2_bounds b) as [_ Hhi]; lia.
Qed.

Lemma Zdigits2_shift (m k : Z) :
  0 < m -> 0 <= k -> Zdigits2 (m * 2 ^ k) = Zdigits2 m + k.
Proof.
  intros Hm Hk. destruct (Zdigits2_bounds m Hm) as [Hlo Hhi].
  pose proof (Zdigits2_pos m Hm) as Hd.
  pose proof (Z.pow_pos_nonneg 2 k ltac:(lia) Hk) as Hk2.
  apply Z.le_antisymm.
  - apply Zdigits2_lt_pow; [ nia | ].
    rewrite Z.pow_add_r by lia. nia.
  - replace (Zdigits2 m + k) with ((Zdigits2 m - 1 + k) + 1) by lia.
    apply Zdigits2_ge_pow; [ lia | ].
    rewrite Z.pow_add_r by lia. nia.
Qed.

(** Shifting a mantissa to the right divides it by a power of two. *)

Lemma shr_1_m (r : shr_record) : 0 <= shr_m r -> shr_m (shr_1 r) = shr_m r / 2.
Proof.
  destruct r as [m r s]; cbn [shr_m]. intros Hm.
  destruct m as [ | [ p | p | ] | p ]; cbn [shr_1 shr_m]; try lia.
  - reflexivity.
  - apply Z.div_unique with (r := 1); lia.
  - apply Z.div_unique with (r := 0); lia.
  - reflexivity.
Qed.

Lemma iter_pos_shr_m (n : positive) :
  forall r, 0 <= shr_m r ->
    shr_m (SpecFloat.iter_pos shr_1 n r) = shr_m r / 2 ^ Zpos n.
Proof.
  induction n as [n IH | n IH | ]; intros r Hr; simpl SpecFloat.iter_pos.
  - assert (0 <= shr_m (shr_1 r)) as H1
        by (rewrite shr_1_m by assumption; apply Z.div_pos; lia).
    assert (0 <= shr_m (SpecFloat.iter_pos shr_1 n (shr_1 r))) as H2
        by (rewrite IH by assumption; apply Z.div_pos; lia).
    rewrite IH, IH, shr_1_m by assumption.
    rewrite !Z.div_div by lia. f_equal.
    rewrite <- Z.pow_add_r, <- Z.pow_succ_r by lia.
    f_equal. lia.
  - assert (0 <= shr_m (SpecFloat.iter_pos shr_1 n r)) as H2
        by (rewrite IH by assumption; apply Z.div_pos; lia).
    rewrite IH, IH by assumption.
    rewrite !Z.div_div by lia. f_equal.
    rewrite <- Z.pow_add_r by lia. f_equal. lia.
  - apply shr_1_m; assumption.
Qed.

Lemma shr_spec (r : shr_record) (e n : Z) :
  0 <= shr_m r ->
  shr_m (fst (shr r e n)) = shr_m r / 2 ^ Z.max 0 n /\
  snd (shr r e n) = e + Z.max 0 n.
Proof.
  intros Hr. destruct n as [ | p | p ]; simpl.
  - rewrite Z.div_1_r. lia.
  - rewrite iter_pos_shr_m by assumption. split; [ reflexivity | lia ].
  - rewrite Z.div_1_r. lia.
Qed.

Lemma shr_m_of_loc (m : Z) (l : location) : shr_m (shr_record_of_loc m l) = m.
Proof. destruct l as [ | [ | | ] ]; reflexivity. Qed.

Lemma shr_fexp_spec (m e : Z) (l : location) :
  0 <= m ->
  let k := Z.max 0 (fexp prec emax (Zdigits2 m + e) - e) in
  shr_m (fst (shr_fexp prec emax m e l)) = m / 2 ^ k /\
  snd (shr_fexp prec emax m e l) = e + k.
Proof.
  intros Hm k. unfold shr_fexp.
  rewrite <- (shr_m_of_loc m l) at 3. apply shr_spec.
  rewrite shr_m_of_loc. assumption.
Qed.

Lemma round_nearest_even_bounds (m : Z) (l : location) :
  m <= round_nearest_even m l <= m + 1.
Proof.
  destruct l as [ | [ | | ] ]; simpl; try lia.
  destruct (Z.even m); lia.
Qed.

(** The shape of a rounded result: two right shifts around one
    rounding step. *)
Lemma binary_round_aux_spec (sx : bool) (mx ex : Z) (lx : location) :
  0 <= mx ->
  let e1 := ex + Z.max 0 (fexp prec emax (Zdigits2 mx + ex) - ex) in
  let m1 := mx / 2 ^ (e1 - ex) in
  exists m2, m1 <= m2 <= m1 + 1 /\
    let e2 := e1 + Z.max 0 (fexp prec emax (Zdigits2 m2 + e1) - e1) in
    binary_round_aux prec emax sx mx ex lx =
      match m2 / 2 ^ (e2 - e1) with
      | Z0 => S754_zero sx
      | Zpos m => if e2 <=? emax - prec then S754_finite sx m e2
                  else S754_infinity sx
      | Zneg _ => S754_nan
      end.
Proof.
  intros Hmx e1 m1. unfold binary_round_aux.
  destruct (shr_fexp_spec mx ex lx Hmx) as [Hm He].
  destruct (shr_fexp prec emax mx ex lx) as [mrs' e'] eqn:E1.
  simpl in Hm, He.
  set (m2 := round_nearest_even (shr_m mrs') (loc_of_shr_record mrs')).
  assert (0 <= shr_m mrs') as Hpos by (rewrite Hm; apply Z.div_pos; lia).
  pose proof (round_nearest_even_bounds (shr_m mrs') (loc_of_shr_record mrs')) as Hb.
  fold m2 in Hb.
  assert (e' = e1) as -> by (unfold e1; lia).
  assert (shr_m mrs' = m1) as Hm1
      by (unfold m1; rewrite Hm; do 2 f_equal; unfold e1; lia).
  exists m2. split; [ lia | ].
  destruct (shr_fexp_spec m2 e1 loc_Exact ltac:(lia)) as [Hm' He'].
  destruct (shr_fexp prec emax m2 e1 loc_Exact) as [mrs'' e''] eqn:E2.
  simpl in Hm', He'. cbv zeta. rewrite Hm', He'.
  replace (e1 + Z.max 0 (fexp prec emax (Zdigits2 m2 + e1) - e1) - e1)
    with (Z.max 0 (fexp prec emax (Zdigits2 m2 + e1) - e1)) by lia.
  reflexivity.
Qed.

Lemma binary_round_aux_shape (sx : bool) (mx ex : Z) (lx : location) :
  0 <= mx ->
  binary_round_aux prec emax sx mx ex lx = S754_zero sx \/
  binary_round_aux prec emax sx mx ex lx = S754_infinity sx \/
  exists m e, binary_round_aux prec emax sx mx ex lx = S754_finite sx m e
              /\ e <= emax - prec.
Proof.
  intros Hmx.
  destruct (binary_round_aux_spec sx mx ex lx Hmx) as (m2 & Hm2 & ->).
  assert (0 <= mx / 2 ^ (ex + Z.max 0 (fexp prec emax (Zdigits2 mx + ex) - ex) - ex))
    as H1 by (apply Z.div_pos; lia).
  match goal with
  | |- context [ match ?q with _ => _ end ] =>
      assert (0 <= q) as H3 by (apply Z.div_pos; lia); destruct q as [ | p | p ]
  end.
  - left; reflexivity.
  - right. match goal with |- context [ ?a <=? ?b ] => destruct (Z.leb_spec a b) end.
    + right. eexists _, _. split; [ reflexivity | assumption ].
    + left; reflexivity.
  - lia.
Qed.

Lemma div_pow2_digits (m : Z) :
  0 < m -> prec <= Zdigits2 m ->
  2 ^ (prec - 1) <= m / 2 ^ (Zdigits2 m - prec).
Proof.
  intros Hm Hd. destruct (Zdigits2_bounds m Hm) as [Hlo _].
  apply Z.div_le_lower_bound; [ apply Z.pow_pos_nonneg; lia | ].
  rewrite <- Z.pow_add_r by (unfold prec in *; lia).
  replace (Zdigits2 m - prec + (prec - 1)) with (Zdigits2 m - 1) by lia.
  assumption.
Qed.

(** The mantissa that the second shift of [binary_round_aux] leaves is
    positive, and it is unchanged when the exponent is. *)
Lemma renormalize_pos (m2 e1 : Z) :
  0 < m2 -> emin <= e1 ->
  let e2 := e1 + Z.max 0 (fexp prec emax (Zdigits2 m2 + e1) - e1) in
  0 < m2 / 2 ^ (e2 - e1) /\ (e2 = e1 -> m2 / 2 ^ (e2 - e1) = m2).
Proof.
  intros Hm2 He1 e2. split.
  - destruct (Z.eq_dec e2 e1) as [Heq | Hne].
    + rewrite Heq, Z.sub_diag, Z.pow_0_r, Z.div_1_r. assumption.
    + assert (e2 - e1 = Zdigits2 m2 - prec /\ prec <= Zdigits2 m2) as [-> Hd]
          by (unfold e2, fexp, SpecFloat.emin, prec, emax in *; lia).
      pose proof (div_pow2_digits m2 Hm2 Hd) as H.
      pose proof (Z.pow_pos_nonneg 2 (prec - 1)). unfold prec in *. lia.
  - intros ->. rewrite Z.sub_diag, Z.pow_0_r, Z.div_1_r. reflexivity.
Qed.

(** Rounding never goes below a representable number that the rounded
    quantity is not below. *)
Lemma binary_round_aux_ge (m : positive) (e mx ex : Z) (lx : location) :
  fexp prec emax (Zpos (digits2_pos m) + e) = e ->
  ex <= e ->
  Zpos m * 2 ^ (e - ex) <= mx ->
  SFleb (S754_finite false m e) (binary_round_aux prec emax false mx ex lx) = true.
Proof.
  intros Hcan Hex Hmx.
  pose proof (Z.pow_pos_nonneg 2 (e - ex) ltac:(lia) ltac:(lia)) as Hp.
  assert (0 < mx) as Hpos by nia.
  assert (Zpos (digits2_pos m) + (e - ex) <= Zdigits2 mx) as Hd.
  { rewrite <- (Zdigits2_shift (Zpos m)) by lia. apply Zdigits2_le; lia. }
  destruct (binary_round_aux_spec false mx ex lx ltac:(lia)) as (m2 & Hm2 & ->).
  set (e1 := ex + Z.max 0 (fexp prec emax (Zdigits2 mx + ex) - ex)) in *.
  set (m1 := mx / 2 ^ (e1 - ex)) in *.
  assert (emin <= e) as Hemin
      by (unfold fexp, SpecFloat.emin, prec, emax in *; lia).
  assert (e <= e1) as He1 by (unfold e1, fexp, SpecFloat.emin, prec, emax in *; lia).
  assert (0 < m1 /\ (e1 = e -> Zpos m <= m1)) as [Hm1 Hm1'].
  { split.
    - destruct (Z.eq_dec e1 e) as [Heq | Hne].
      + unfold m1. rewrite Heq. apply Z.lt_le_trans with (Zpos m); [ lia | ].
        apply Z.div_le_lower_bound; lia.
      + assert (e1 - ex = Zdigits2 mx - prec /\ prec <= Zdigits2 mx) as [Hk Hdd]
            by (unfold e1, fexp, SpecFloat.emin, prec, emax in *; lia).
        unfold m1. rewrite Hk.
        pose proof (div_pow2_digits mx Hpos Hdd) as H.
        pose proof (Z.pow_pos_nonneg 2 (prec - 1)). unfold prec in *. lia.
    - intros Heq. unfold m1. rewrite Heq. apply Z.div_le_lower_bound; lia. }
  destruct (renormalize_pos m2 e1 ltac:(lia) ltac:(lia)) as [Hm3 Hm3'].
  cbv zeta in Hm3, Hm3' |- *.
  set (e2 := e1 + Z.max 0 (fexp prec emax (Zdigits2 m2 + e1) - e1)) in *.
  assert (e1 <= e2) as He2 by (unfold e2; lia).
  assert (e2 = e -> Zpos m <= m2 / 2 ^ (e2 - e1)) as Hle
      by (intros Heq; rewrite Hm3' by lia; specialize (Hm1' ltac:(lia)); lia).
  clear Hm3'.
  destruct (m2 / 2 ^ (e2 - e1)) as [ | m3 | m3 ]; try lia.
  destruct (e2 <=? emax - prec); [ | reflexivity ].
  unfold SFleb, SFcompare.
  destruct (Z.compare_spec e e2) as [Heq | Hlt | Hgt]; [ | reflexivity | lia ].
  specialize (Hle ltac:(lia)).
  change (Pos.compare_cont Eq m m3) with (m ?= m3)%positive.
  destruct (Pos.compare_spec m m3); try reflexivity. lia.
Qed.

Lemma shl_align_spec (mx : positive) (ex ex' : Z) :
  snd (shl_align mx ex ex') = Z.min ex ex' /\
  Zpos (fst (shl_align mx ex ex')) = Zpos mx * 2 ^ (ex - Z.min ex ex').
Proof.
  unfold shl_align. destruct (ex' - ex) as [ | d | d ] eqn:E; cbn [fst snd].
  - rewrite Z.min_l by lia. rewrite Z.sub_diag. lia.
  - rewrite Z.min_l by lia. rewrite Z.sub_diag. lia.
  - rewrite Z.min_r by lia. split; [ reflexivity | ].
    change (Pos.iter xO mx d) with (shift_pos d mx).
    rewrite shift_pos_correct, Z.pow_pos_fold.
    replace (ex - ex') with (Zpos d) by lia. lia.
Qed.

Lemma SFleb_refl_finite (s : bool) (m : positive) (e : Z) :
  SFleb (S754_finite s m e) (S754_finite s m e) = true.
Proof.
  unfold SFleb, SFcompare. rewrite Z.compare_refl.
  change (Pos.compare_cont Eq m m) with (m ?= m)%positive.
  rewrite Pos.compare_refl. destruct s; reflexivity.
Qed.

Lemma SFadd_finite_nonneg (m1 : positive) (e1 : Z) (m2 : positive) (e2 : Z) :
  exists (mz : positive) (ez : Z),
    SF64add (S754_finite false m1 e1) (S754_finite false m2 e2)
    = binary_round_aux prec emax false (Zpos mz) ez loc_Exact
    /\ ez <= e1 /\ ez <= e2
    /\ Zpos m1 * 2 ^ (e1 - ez) + Zpos m2 * 2 ^ (e2 - ez) = Zpos mz.
Proof.
  unfold SF64add, SFadd, cond_Zopp.
  destruct (shl_align_spec m1 e1 (Z.min e1 e2)) as [_ H1].
  destruct (shl_align_spec m2 e2 (Z.min e1 e2)) as [_ H2].
  replace (Z.min e1 (Z.min e1 e2)) with (Z.min e1 e2) in H1 by lia.
  replace (Z.min e2 (Z.min e1 e2)) with (Z.min e1 e2) in H2 by lia.
  cbv zeta.
  set (a := fst (shl_align m1 e1 (Z.min e1 e2))) in *.
  set (b := fst (shl_align m2 e2 (Z.min e1 e2))) in *.
  change (Zpos a + Zpos b) with (Zpos (a + b)).
  unfold binary_normalize, binary_round.
  set (ez := Z.min e1 e2) in *.
  destruct (shl_align_spec (a + b) ez
              (fexp prec emax (Zpos (digits2_pos (a + b)) + ez))) as [H3 H4].
  destruct (shl_align (a + b) ez
              (fexp prec emax (Zpos (digits2_pos (a + b)) + ez))) as [mz ez'].
  cbn [fst snd] in H3, H4.
  exists mz, ez'. split; [ reflexivity | ].
  assert (ez' <= ez) as Hz by lia.
  split; [ lia | ]. split; [ lia | ].
  rewrite H4, Pos2Z.inj_add, H1, H2, <- H3.
  rewrite Z.mul_add_distr_r, <- !Z.mul_assoc, <- !Z.pow_add_r by lia.
  do 2 f_equal; f_equal; lia.
Qed.

(** Adding a non-negative number to a non-negative number does not
    give less, and gives a non-negative number. *)
Lemma SFadd_nonneg_ge (x c : spec_float) :
  valid_binary x = true ->
  SFleb (S754_zero false) x = true ->
  SFleb (S754_zero false) c = true ->
  SFleb x (SF64add x c) = true /\ SFleb (S754_zero false) (SF64add x c) = true.
Proof.
  intros Hv Hx Hc.
  destruct x as [ sx | [ | ] | | [ | ] m1 e1 ]; try discriminate Hx;
    destruct c as [ sc | [ | ] | | [ | ] m2 e2 ]; try discriminate Hc;
    try (destruct sx); try (destruct sc);
    try (split; reflexivity);
    try (split; [ apply SFleb_refl_finite | reflexivity ]).
  destruct (SFadd_finite_nonneg m1 e1 m2 e2) as (mz & ez & -> & Hz1 & Hz2 & Hsum).
  split.
  - apply binary_round_aux_ge.
    + cbn [valid_binary] in Hv. unfold bounded, canonical_mantissa in Hv.
      apply andb_true_iff in Hv. destruct Hv as [Hv _].
      apply Z.eqb_eq in Hv. exact Hv.
    + assumption.
    + pose proof (Z.pow_pos_nonneg 2 (e2 - ez) ltac:(lia) ltac:(lia)). nia.
  - destruct (binary_round_aux_shape false (Zpos mz) ez loc_Exact ltac:(lia))
      as [ -> | [ -> | (m & e & -> & _) ] ]; reflexivity.
Qed.

Lemma SFadd_comm (x y : spec_float) : SF64add x y = SF64add y x.
Proof.
  destruct x as [ [ | ] | [ | ] | | sx mx ex ];
    destruct y as [ [ | ] | [ | ] | | sy my ey ]; try reflexivity.
  unfold SF64add, SFadd. rewrite (Z.min_comm ey ex), Z.add_comm. reflexivity.
Qed.

Lemma SFadd_zero_swap (a b : spec_float) :
  SF64add (SF64add (S754_zero false) a) b
  = SF64add (SF64add (S754_zero false) b) a.
Proof.
  destruct a as [ [ | ] | [ | ] | | sa ma ea ];
    destruct b as [ [ | ] | [ | ] | | sb mb eb ]; try reflexivity.
  change (SF64add (S754_zero false) (S754_finite sa ma ea))
    with (S754_finite sa ma ea).
  change (SF64add (S754_zero false) (S754_finite sb mb eb))
    with (S754_finite sb mb eb).
  apply SFadd_comm.
Qed.

Lemma SFmul_nan (x y : spec_float) :
  SF64mul x y = S754_nan <->
  x = S754_nan \/ y = S754_nan
  \/ ((exists s, x = S754_infinity s) /\ (exists s, y = S754_zero s))
  \/ ((exists s, x = S754_zero s) /\ (exists s, y = S754_infinity s)).
Proof.
  destruct x as [ sx | sx | | sx mx ex ]; destruct y as [ sy | sy | | sy my ey ];
    cbn [SF64mul SFmul];
    try (split; [ discriminate | ];
         intros [ H | [ H | [ [[? H] [? H']] | [[? H] [? H']] ] ] ]; discriminate);
    try (split; [ | reflexivity ]; intros _; eauto 10).
  split.
  - intros H.
    destruct (binary_round_aux_shape (xorb sx sy) (Zpos (mx * my)) (ex + ey)
                loc_Exact ltac:(lia)) as [ E | [ E | (m & e & E & _) ] ];
      unfold SF64mul, SFmul in H; rewrite E in H; discriminate H.
  - intros [ H | [ H | [ [[? H] [? H']] | [[? H] [? H']] ] ] ]; discriminate.
Qed.

(** Rounding a quantity that lies below a representable number of the
    format does not overflow. *)
Lemma binary_round_aux_finite (sx : bool) (mx ex : Z) (lx : location)
    (m : positive) (e : Z) :
  fexp prec emax (Zpos (digits2_pos m) + e) = e ->
  e <= emax - prec ->
  ex <= e ->
  0 <= mx ->
  mx + 1 <= Zpos m * 2 ^ (e - ex) ->
  binary_round_aux prec emax sx mx ex lx = S754_zero sx
  \/ exists m' e', binary_round_aux prec emax sx mx ex lx = S754_finite sx m' e'.
Proof.
  intros Hcan Hmax Hex Hmx Hlt.
  destruct (binary_round_aux_spec sx mx ex lx Hmx) as (m2 & Hm2 & ->).
  set (e1 := ex + Z.max 0 (fexp prec emax (Zdigits2 mx + ex) - ex)) in *.
  set (m1 := mx / 2 ^ (e1 - ex)) in *.
  assert (Zdigits2 mx + ex <= Zpos (digits2_pos m) + e) as Hd.
  { destruct (Z.eq_dec mx 0) as [-> | Hne]; [ cbn; lia | ].
    replace (Zpos (digits2_pos m) + e)
      with (Zdigits2 (Zpos m) + (e - ex) + ex) by (cbn [Zdigits2]; lia).
    rewrite <- (Zdigits2_shift (Zpos m)) by lia.
    apply Z.add_le_mono_r, Zdigits2_le; lia. }
  assert (e1 <= e) as He1 by (unfold e1, fexp, SpecFloat.emin, prec, emax in *; lia).
  assert (ex <= e1) as He1' by (unfold e1; lia).
  assert (m2 <= Zpos m * 2 ^ (e - e1)) as Hm2'.
  { assert (m1 < Zpos m * 2 ^ (e - e1)); [ | lia ].
    apply Z.div_lt_upper_bound; [ apply Z.pow_pos_nonneg; lia | ].
    rewrite Z.mul_comm, <- Z.mul_assoc, <- Z.pow_add_r by lia.
    replace (e - e1 + (e1 - ex)) with (e - ex) by lia. lia. }
  assert (Zdigits2 m2 + e1 <= Zpos (digits2_pos m) + e) as Hd2.
  { destruct (Z.eq_dec m2 0) as [-> | Hne]; [ cbn; lia | ].
    assert (0 <= m1) by (apply Z.div_pos; [ | apply Z.pow_pos_nonneg ]; lia).
    replace (Zpos (digits2_pos m) + e)
      with (Zdigits2 (Zpos m) + (e - e1) + e1) by (cbn [Zdigits2]; lia).
    rewrite <- (Zdigits2_shift (Zpos m)) by lia.
    apply Z.add_le_mono_r, Zdigits2_le; lia. }
  cbv zeta.
  set (e2 := e1 + Z.max 0 (fexp prec emax (Zdigits2 m2 + e1) - e1)).
  assert (e2 <= emax - prec) as He2
      by (unfold e2, fexp, SpecFloat.emin, prec, emax in *; lia).
  assert (0 <= m2 / 2 ^ (e2 - e1)) as Hm3.
  { apply Z.div_pos; [ | apply Z.pow_pos_nonneg; unfold e2; lia ].
    assert (0 <= m1) by (apply Z.div_pos; [ | apply Z.pow_pos_nonneg ]; lia).
    lia. }
  destruct (m2 / 2 ^ (e2 - e1)) as [ | m3 | m3 ]; [ left; reflexivity | | lia ].
  right. apply Z.leb_le in He2. rewrite He2. eauto.
Qed.

Lemma SFdiv_core_spec (mx : positive) (ex : Z) (my : positive) (ey : Z) :
  let e' := Z.min (fexp prec emax (Zpos (digits2_pos mx) + ex
                                    - (Zpos (digits2_pos my) + ey)))
                  (ex - ey) in
  exists l,
    SFdiv_core_binary prec emax (Zpos mx) ex (Zpos my) ey
    = (Zpos mx * 2 ^ (ex - ey - e') / Zpos my, e', l).
Proof.
  intros e'. unfold SFdiv_core_binary. cbn [Zdigits2]. fold e'.
  set (s := ex - ey - e').
  assert (0 <= s) as Hs by (unfold s, e'; lia).
  set (m' := match s with
             | 0 => Zpos mx
             | Zpos _ => Z.shiftl (Zpos mx) s
             | Zneg _ => 0
             end).
  assert (m' = Zpos mx * 2 ^ s) as Hm'.
  { unfold m'. destruct s as [ | p | p ] eqn:E; [ | | lia ].
    - rewrite Z.pow_0_r. lia.
    - rewrite Z.shiftl_mul_pow2 by lia. reflexivity. }
  rewrite <- Hm'. unfold Z.div.
  destruct (Z.div_eucl m' (Zpos my)) as [q r]. eauto.
Qed.

Lemma SFdiv_nan (x y : spec_float) :
  SF64div x y = S754_nan <->
  x = S754_nan \/ y = S754_nan
  \/ ((exists s, x = S754_infinity s) /\ (exists s, y = S754_infinity s))
  \/ ((exists s, x = S754_zero s) /\ (exists s, y = S754_zero s)).
Proof.
  destruct x as [ sx | sx | | sx mx ex ]; destruct y as [ sy | sy | | sy my ey ];
    cbn [SF64div SFdiv];
    try (split; [ discriminate | ];
         intros [ H | [ H | [ [[? H] [? H']] | [[? H] [? H']] ] ] ]; discriminate);
    try (split; [ | reflexivity ]; intros _; eauto 10).
  split.
  - intros H. unfold SF64div, SFdiv in H.
    destruct (SFdiv_core_spec mx ex my ey) as [l E]. cbv zeta in E.
    rewrite E in H.
    match type of H with
    | binary_round_aux _ _ ?s ?q ?e ?l = _ =>
        destruct (binary_round_aux_shape s q e l) as [ E' | [ E' | (m & e0 & E' & _) ] ];
        [ apply Z.div_pos; [ pose proof (Z.pow_nonneg 2 (ex - ey - e)) | ]; lia
        | rewrite E' in H; discriminate H .. ]
    end.
  - intros [ H | [ H | [ [[? H] [? H']] | [[? H] [? H']] ] ] ]; discriminate.
Qed.

(** Dividing a finite number by 100 gives a finite number. *)
Lemma SFdiv_100_finite (s : bool) (m : positive) (e : Z) :
  valid_binary (S754_finite s m e) = true ->
  SF64div (S754_finite s m e) (S754_finite false 7036874417766400 (-46))
  = S754_zero s
  \/ exists m' e',
      SF64div (S754_finite s m e) (S754_finite false 7036874417766400 (-46))
      = S754_finite s m' e'.
Proof.
  intros Hv. cbn [valid_binary] in Hv. unfold bounded, canonical_mantissa in Hv.
  apply andb_true_iff in Hv. destruct Hv as [Hcan Hmax].
  apply Z.eqb_eq in Hcan. apply Z.leb_le in Hmax.
  unfold SF64div, SFdiv.
  destruct (SFdiv_core_spec m e 7036874417766400 (-46)) as [l E].
  cbv zeta in E. rewrite E. clear E.
  change (Zpos (digits2_pos 7036874417766400)) with 53 in *.
  set (e' := Z.min (fexp prec emax (Zpos (digits2_pos m) + e - (53 + -46)))
                   (e - -46)) in *.
  assert (e' <= e) as He' by (unfold e', fexp, SpecFloat.emin, prec, emax in *; lia).
  rewrite xorb_false_r.
  apply binary_round_aux_finite with (m := m) (e := e); try assumption.
  - apply Z.div_pos; [ pose proof (Z.pow_nonneg 2 (e - -46 - e')) | ]; lia.
  - replace (e - -46 - e') with ((e - e') + 46) by lia.
    rewrite Z.pow_add_r by lia.
    change 7036874417766400 with (100 * 2 ^ 46).
    rewrite Z.mul_assoc, Z.div_mul_cancel_r by lia.
    pose proof (Z.pow_pos_nonneg 2 (e - e') ltac:(lia) ltac:(lia)) as Hp.
    assert (Zpos m * 2 ^ (e - e') / 100 < Zpos m * 2 ^ (e - e'))
      by (apply Z.div_lt; nia).
    lia.
Qed.
End Rounding.

(** ** Facts about Numbers *)
Section Numbers.
Local Open Scope float_scope.

Lemma Prim2SF_zero : Prim2SF 0 = S754_zero false.
Proof. reflexivity. Qed.

Lemma SFeqb_refl (x : spec_float) : x <> S754_nan -> SFeqb x x = true.
Proof.
  destruct x as [ [ | ] | [ | ] | | [ | ] m e ]; try reflexivity;
    try congruence; intros _; unfold SFeqb, SFcompare;
    rewrite Z.compare_refl;
    change (Pos.compare_cont Eq m m) with (m ?= m)%positive;
    rewrite Pos.compare_refl; reflexivity.
Qed.

Lemma is_nan_spec (x : float) : is_nan x = true <-> Prim2SF x = S754_nan.
Proof.
  unfold is_nan. rewrite FloatAxioms.eqb_spec. split.
  - intros H. destruct (Prim2SF x) eqn:E; try reflexivity;
      rewrite SFeqb_refl in H by discriminate; discriminate H.
  - intros ->. reflexivity.
Qed.

Lemma is_zero_spec (x : float) :
  is_zero x = true <-> exists s, Prim2SF x = S754_zero s.
Proof.
  unfold is_zero. rewrite FloatAxioms.eqb_spec.
  change (Prim2SF PrimFloat.zero) with (S754_zero false).
  destruct (Prim2SF x) as [ sx | [ | ] | | [ | ] m e ];
    (split; [ try discriminate | try (intros [? H]; discriminate H) ]);
    eauto.
Qed.

Lemma is_infinity_spec (x : float) :
  is_infinity x = true <-> exists s, Prim2SF x = S754_infinity s.
Proof.
  unfold is_infinity. rewrite FloatAxioms.eqb_spec, FloatAxioms.abs_spec.
  change (Prim2SF PrimFloat.infinity) with (S754_infinity false).
  destruct (Prim2SF x) as [ sx | sx | | sx m e ];
    (split; [ try discriminate | try (intros [? H]; discriminate H) ]);
    eauto.
Qed.

Lemma leb_refl_nonneg (x : float) : (0 <=? x) = true -> (x <=? x) = true.
Proof.
  rewrite !FloatAxioms.leb_spec, Prim2SF_zero.
  destruct (Prim2SF x) as [ [ | ] | [ | ] | | [ | ] m e ];
    try discriminate; try reflexivity.
  intros _. apply SFleb_refl_finite.
Qed.

Lemma add_comm (x y : float) : x + y = y + x.
Proof. apply Prim2SF_inj. rewrite !FloatAxioms.add_spec. apply SFadd_comm. Qed.

Lemma add_zero_swap (a b : float) : (0 + a) + b = (0 + b) + a.
Proof.
  apply Prim2SF_inj. rewrite !FloatAxioms.add_spec, Prim2SF_zero. apply SFadd_zero_swap.
Qed.

Lemma add_nonneg_ge (x c : float) :
  (0 <=? x) = true -> (0 <=? c) = true ->
  (x <=? x + c) = true /\ (0 <=? x + c) = true.
Proof.
  rewrite !FloatAxioms.leb_spec, FloatAxioms.add_spec, Prim2SF_zero.
  apply SFadd_nonneg_ge, Prim2SF_valid.
Qed.

Lemma mul_is_nan (x y : float) :
  is_nan (x * y) = true <->
  is_nan x = true \/ is_nan y = true
  \/ (is_infinity x = true /\ is_zero y = true)
  \/ (is_zero x = true /\ is_infinity y = true).
Proof.
  rewrite !is_nan_spec, !is_infinity_spec, !is_zero_spec, FloatAxioms.mul_spec.
  apply SFmul_nan.
Qed.

Lemma div_is_nan (x y : float) :
  is_nan (x / y) = true <->
  is_nan x = true \/ is_nan y = true
  \/ (is_infinity x = true /\ is_infinity y = true)
  \/ (is_zero x = true /\ is_zero y = true).
Proof.
  rewrite !is_nan_spec, !is_infinity_spec, !is_zero_spec, FloatAxioms.div_spec.
  apply SFdiv_nan.
Qed.

Lemma is_finite_spec (x : float) :
  is_finite x = true <->
  (exists s, Prim2SF x = S754_zero s) \/ (exists s m e, Prim2SF x = S754_finite s m e).
Proof.
  unfold is_finite. rewrite negb_true_iff, orb_false_iff.
  rewrite <- !not_true_iff_false, is_nan_spec, is_infinity_spec.
  destruct (Prim2SF x) as [ s | s | | s m e ].
  - split; [ eauto | ]. intros _. split; [ discriminate | intros [? H]; discriminate H ].
  - split; [ intros [_ H]; exfalso; eauto | ].
    intros [ [? H] | (? & ? & ? & H) ]; discriminate H.
  - split; [ intros [H _]; exfalso; auto | ].
    intros [ [? H] | (? & ? & ? & H) ]; discriminate H.
  - split; [ eauto 10 | ]. intros _. split; [ discriminate | intros [? H]; discriminate H ].
Qed.

Lemma div_100_finite (q : float) : is_finite q = true -> is_finite (q / 100) = true.
Proof.
  rewrite !is_finite_spec, FloatAxioms.div_spec.
  change (Prim2SF 100) with (S754_finite false 7036874417766400 (-46)).
  pose proof (Prim2SF_valid q) as Hv.
  intros [ [s E] | (s & m & e & E) ]; rewrite E in *.
  - left. exists (xorb s false). reflexivity.
  - destruct (SFdiv_100_finite s m e Hv) as [ -> | (m' & e' & ->) ]; eauto 10.
Qed.
End Numbers.

Import JS Server Spec.

(** ** String comparison *)

Section Strings.

Lemma nat_of_ascii_inj (c1 c2 : ascii) :
  nat_of_ascii c1 = nat_of_ascii c2 -> c1 = c2.
Proof.
  intros H. rewrite <- (ascii_nat_embedding c1), <- (ascii_nat_embedding c2).
  congruence.
Qed.

Lemma str_lt_spec (x y : string) : str_lt x y = false <-> lex_le y x.
Proof.
  revert y. induction x as [ | cx x IH ]; intros [ | cy y ]; cbn [str_lt].
  - split; [ constructor | reflexivity ].
  - split; [ discriminate | inversion 1 ].
  - split; [ constructor | reflexivity ].
  - destruct (Nat.ltb_spec (nat_of_ascii cx) (nat_of_ascii cy)) as [Hlt | Hge].
    { split; [ discriminate | ]. inversion 1; subst; lia. }
    destruct (Nat.ltb_spec (nat_of_ascii cy) (nat_of_ascii cx)) as [Hlt' | Hge'].
    { split; [ intros _; constructor; assumption | reflexivity ]. }
    assert (cx = cy) as -> by (apply nat_of_ascii_inj; lia).
    rewrite IH. split; [ constructor; assumption | ].
    inversion 1; subst; [ lia | assumption ].
Qed.

Lemma str_le_spec (x y : string) : str_le x y = true <-> lex_le x y.
Proof. unfold str_le. rewrite negb_true_iff. apply str_lt_spec. Qed.

Lemma str_ge_spec (x y : string) : str_ge x y = true <-> lex_le y x.
Proof. unfold str_ge. rewrite negb_true_iff. apply str_lt_spec. Qed.

Lemma in_range_spec (lo hi c : string) :
  str_ge c lo && str_le c hi = true <-> in_range lo hi c.
Proof.
  unfold in_range. rewrite andb_true_iff, str_ge_spec, str_le_spec. reflexivity.
Qed.

(** The two ranges of [calculateVitaminD] do not meet. *)
Lemma ranges_disjoint (c : string) :
  in_range "M001" "S010" c -> ~ in_range "A001" "L004" c.
Proof.
  intros [Hlo _] [_ Hhi].
  inversion Hlo as [ | c1 c2 s1 s2 Hlt | c1 s1 s2 Hrest ]; subst;
    inversion Hhi as [ | c1' c2' s1' s2' Hlt' | c1' s1' s2' Hrest' ]; subst;
    change (nat_of_ascii "M") with 77%nat in *;
    change (nat_of_ascii "L") with 76%nat in *; lia.
Qed.

End Strings.

(** ** Parsing and formatting *)

Section Parsing.
Local Open Scope string_scope.
Local Open Scope float_scope.

Lemma or_else_not_nan (x : number) : is_nan (or_else x 0) = false.
Proof.
  unfold or_else, ToBoolean. destruct (is_nan x) eqn:E; [ reflexivity | ].
  cbn [orb]. destruct (is_zero x); [ reflexivity | exact E ].
Qed.

Lemma or_else_nan (x : number) : is_nan x = true -> or_else x 0 = 0.
Proof. intros H. unfold or_else, ToBoolean. rewrite H. reflexivity. Qed.

Lemma read_digits_non_digit (s : string) (acc : Z) (cnt : nat) :
  match s with
  | EmptyString => True
  | String c _ => is_digit c = false
  end ->
  read_digits s acc cnt = (acc, cnt, s).
Proof. destruct s as [ | c s ]; cbn [read_digits]; [ | intros -> ]; reflexivity. Qed.

(** A non-numeric text parses to [NaN]. *)
Lemma parseFloat_non_numeric (s : string) :
  non_numeric s -> parseFloat s = nan.
Proof.
  unfold non_numeric, parseFloat. cbv zeta.
  destruct (read_sign (trim_start s)) as [neg s1]. cbn [snd].
  intros [-> H].
  rewrite read_digits_non_digit
    by (destruct s1 as [ | c s2 ]; [ exact I | exact (proj1 H) ]).
  destruct s1 as [ | c s2 ]; [ reflexivity | ]. destruct H as [_ H].
  unfold read_fraction. destruct (Ascii.eqb_spec c ".") as [-> | Hne];
    [ | reflexivity ].
  rewrite read_digits_non_digit by (apply H; reflexivity). reflexivity.
Qed.

Lemma append_cons (c : ascii) (a b : string) :
  String c a ++ b = String c (a ++ b).
Proof. reflexivity. Qed.

Lemma digits_only_app (a b : string) :
  digits_only (a ++ b) = digits_only a && digits_only b.
Proof.
  induction a as [ | c a IH ]; [ reflexivity | ].
  rewrite append_cons. cbn [digits_only]. rewrite IH, andb_assoc. reflexivity.
Qed.

Lemma length_append (a b : string) :
  String.length (a ++ b) = (String.length a + String.length b)%nat.
Proof.
  induction a as [ | c a IH ]; [ reflexivity | ].
  rewrite append_cons. cbn [String.length]. rewrite IH. reflexivity.
Qed.

Lemma digits_only_zeros (k : nat) : digits_only (zeros k) = true.
Proof. induction k as [ | k IH ]; [ reflexivity | exact IH ]. Qed.

Lemma length_zeros (k : nat) : String.length (zeros k) = k.
Proof. induction k as [ | k IH ]; cbn; congruence. Qed.

Lemma digits_only_uint (u : Decimal.uint) :
  digits_only (NilEmpty.string_of_uint u) = true.
Proof. induction u; cbn; auto. Qed.

Lemma digits_only_decimal_digits (n : Z) : digits_only (decimal_digits n) = true.
Proof.
  unfold decimal_digits, NilZero.string_of_uint.
  destruct (N.to_uint (Z.to_N n)); try apply digits_only_uint. reflexivity.
Qed.

Lemma decimal_digits_nonempty (n : Z) :
  (1 <= String.length (decimal_digits n))%nat.
Proof.
  unfold decimal_digits, NilZero.string_of_uint.
  destruct (N.to_uint (Z.to_N n)); cbn; lia.
Qed.

Lemma digits_only_substring (s : string) :
  digits_only s = true ->
  forall n m, digits_only (String.substring n m s) = true.
Proof.
  induction s as [ | c s IH ]; intros Hs n m.
  - destruct n, m; reflexivity.
  - cbn [digits_only] in Hs. apply andb_true_iff in Hs. destruct Hs as [Hc Hs].
    specialize (IH Hs). destruct n as [ | n ]; [ | apply IH ].
    destruct m as [ | m ]; [ reflexivity | ].
    cbn [String.substring digits_only]. rewrite Hc, IH. reflexivity.
Qed.

Lemma length_substring (s : string) :
  forall n m, (n + m <= String.length s)%nat ->
              String.length (String.substring n m s) = m.
Proof.
  induction s as [ | c s IH ]; intros n m H; cbn [String.length] in H.
  - destruct n, m; try lia. reflexivity.
  - destruct n as [ | n ].
    + destruct m as [ | m ]; [ reflexivity | ].
      cbn [String.substring String.length]. rewrite (IH 0%nat m) by lia.
      reflexivity.
    + cbn [String.substring]. apply IH. lia.
Qed.

Lemma of_uint_acc_value (u : Decimal.uint) :
  forall acc : positive,
    Zpos (Pos.of_uint_acc u acc)
    = digits_value_from (Zpos acc) (NilEmpty.string_of_uint u).
Proof.
  induction u as [ | u IH | u IH | u IH | u IH | u IH | u IH | u IH | u IH
                   | u IH | u IH ];
    intros acc; cbn [Pos.of_uint_acc NilEmpty.string_of_uint digits_value_from];
    [ reflexivity
    | rewrite IH; f_equal;
      match goal with
      | |- context [ digit_value ?c ] =>
          let v := eval vm_compute in (digit_value c) in
          change (digit_value c) with v
      end; lia .. ].
Qed.

Lemma of_uint_value (u : Decimal.uint) :
  Z.of_N (Pos.of_uint u) = digits_value (NilEmpty.string_of_uint u).
Proof.
  unfold digits_value.
  induction u as [ | u IH | u IH | u IH | u IH | u IH | u IH | u IH | u IH
                   | u IH | u IH ];
    cbn [Pos.of_uint NilEmpty.string_of_uint digits_value_from];
    [ reflexivity | exact IH
    | cbn [Z.of_N]; rewrite of_uint_acc_value; reflexivity .. ].
Qed.

(** The digits written for a number denote it. *)
Lemma digits_value_decimal_digits (n : Z) :
  (0 <= n)%Z -> digits_value (decimal_digits n) = n.
Proof.
  intros Hn. unfold decimal_digits.
  rewrite <- (Z2N.id n Hn) at 2.
  rewrite <- (DecimalN.Unsigned.of_to (Z.to_N n)) at 2.
  unfold N.of_uint. rewrite of_uint_value. unfold NilZero.string_of_uint.
  destruct (N.to_uint (Z.to_N n)); reflexivity.
Qed.

Lemma digits_value_zeros (k : nat) (s : string) :
  digits_value (zeros k ++ s) = digits_value s.
Proof. induction k as [ | k IH ]; [ reflexivity | exact IH ]. Qed.

Lemma substring_all (s : string) : String.substring 0 (String.length s) s = s.
Proof.
  induction s as [ | c s IH ]; [ reflexivity | ].
  cbn [String.length String.substring]. rewrite IH. reflexivity.
Qed.

Lemma substring_split (a : nat) :
  forall (s : string) (b : nat),
    (a + b = String.length s)%nat ->
    String.substring 0 a s ++ String.substring a b s = s.
Proof.
  induction a as [ | a IH ]; intros s b H.
  - cbn in H. subst b. rewrite substring_all. destruct s; reflexivity.
  - destruct s as [ | c s ]; cbn [String.length] in H; [ lia | ].
    cbn [String.substring]. rewrite append_cons.
    f_equal. apply IH. lia.
Qed.

Lemma fixed_point_numeral (n : Z) (f : nat) :
  (0 <= n)%Z -> (0 < f)%nat -> numeral (fixed_point n f) false n f.
Proof.
  intros Hn Hf. unfold fixed_point, numeral. destruct f as [ | f' ]; [ lia | ].
  set (f := S f') in *. cbv zeta.
  set (m := if (String.length (decimal_digits n) <=? f)%nat
            then zeros (f + 1 - String.length (decimal_digits n)) ++ decimal_digits n
            else decimal_digits n).
  assert (digits_only m = true) as Hm.
  { unfold m. destruct (_ <=? _)%nat.
    - rewrite digits_only_app, digits_only_zeros, digits_only_decimal_digits.
      reflexivity.
    - apply digits_only_decimal_digits. }
  assert (f + 1 <= String.length m)%nat as Hlen.
  { unfold m. destruct (Nat.leb_spec (String.length (decimal_digits n)) f).
    - rewrite length_append, length_zeros. lia.
    - lia. }
  assert (digits_value m = n) as Hval.
  { unfold m. destruct (_ <=? _)%nat; rewrite ?digits_value_zeros;
      apply digits_value_decimal_digits; exact Hn. }
  exists (String.substring 0 (String.length m - f) m),
         (String.substring (String.length m - f) f m).
  split; [ reflexivity | ]. split.
  { intros E. apply (f_equal String.length) in E.
    rewrite length_substring in E by lia. cbn in E. lia. }
  split; [ apply digits_only_substring; exact Hm | ].
  split; [ apply digits_only_substring; exact Hm | ].
  split; [ apply length_substring; lia | ].
  rewrite substring_split by lia. exact Hval.
Qed.

(** The integer that [toFixed] writes is the nearest one. *)
Lemma nearest_scaled_nearest (m : positive) (e : Z) (f : nat) :
  nearest (nearest_scaled m e f) m e f /\ (0 <= nearest_scaled m e f)%Z.
Proof.
  unfold nearest, nearest_scaled. cbv zeta.
  pose proof (Z.pow_pos_nonneg 10 (Z.of_nat f) ltac:(lia) ltac:(lia)) as Hten.
  set (s := (Zpos m * 10 ^ Z.of_nat f)%Z).
  assert (0 < s)%Z as Hs by (unfold s; lia).
  destruct (Z.leb_spec 0 e) as [He | He].
  - rewrite Z.max_l, Z.max_r by lia. rewrite Z.pow_0_r.
    pose proof (Z.pow_pos_nonneg 2 e ltac:(lia) He) as Hp.
    replace (Zpos m * 2 ^ e * 10 ^ Z.of_nat f)%Z with (s * 2 ^ e)%Z
      by (unfold s; ring).
    split; [ lia | nia ].
  - rewrite Z.max_r, Z.max_l by lia. rewrite Z.pow_0_r, Z.mul_1_r. fold s.
    pose proof (Z.pow_pos_nonneg 2 (- e) ltac:(lia) ltac:(lia)) as Hp.
    replace (2 ^ (1 - e))%Z with (2 * 2 ^ (- e))%Z
      by (rewrite <- Z.pow_succ_r by lia; f_equal; lia).
    set (k := (2 ^ (- e))%Z) in *.
    pose proof (Z.mul_div_le (2 * s + k) (2 * k) ltac:(lia)) as Hlo.
    pose proof (Z.mul_succ_div_gt (2 * s + k) (2 * k) ltac:(lia)) as Hhi.
    assert (0 <= (2 * s + k) / (2 * k))%Z by (apply Z.div_pos; lia).
    split; [ split; nia | assumption ].
Qed.

(** In fixed-point notation [toFixed] writes the Number rounded to the
    digits asked for. *)
Lemma toFixed_rounded (x : number) (d : nat) :
  (0 < d)%nat -> below_1e21 x = true -> rounded_to (toFixed x d) x d.
Proof.
  intros Hd Hx. unfold below_1e21 in Hx. unfold toFixed, rounded_to.
  destruct (Prim2SF x) as [ s | s | | s m e ]; try discriminate Hx.
  - apply fixed_point_numeral; [ lia | exact Hd ].
  - apply negb_true_iff in Hx. rewrite Hx.
    destruct (nearest_scaled_nearest m e d) as [Hn Hpos].
    exists (nearest_scaled m e d). split; [ | exact Hn ].
    destruct (fixed_point_numeral (nearest_scaled m e d) d Hpos Hd)
      as (ip & fp & -> & H).
    exists ip, fp. split; [ destruct s; reflexivity | exact H ].
Qed.

Lemma toFixed_nan (x : number) (d : nat) :
  is_nan x = true -> toFixed x d = "NaN".
Proof. rewrite is_nan_spec. unfold toFixed. intros ->. reflexivity. Qed.

Lemma toFixed_infinity (x : number) (d : nat) :
  is_infinity x = true -> toFixed x d = "Infinity" \/ toFixed x d = "-Infinity".
Proof.
  rewrite is_infinity_spec. unfold toFixed. intros [ [ | ] -> ]; auto.
Qed.

Lemma numeral_chars_app (a b : string) :
  numeral_chars (a ++ b) = numeral_chars a && numeral_chars b.
Proof.
  induction a as [ | c a IH ]; [ reflexivity | ].
  rewrite append_cons. cbn [numeral_chars]. rewrite IH, andb_assoc. reflexivity.
Qed.

Lemma digits_only_numeral_chars (s : string) :
  digits_only s = true -> numeral_chars s = true.
Proof.
  induction s as [ | c s IH ]; [ reflexivity | ]. cbn [digits_only numeral_chars].
  intros H. apply andb_true_iff in H. destruct H as [-> H].
  rewrite (IH H). reflexivity.
Qed.

(** A numeral holds digits, a point and at most a minus sign: a text
    with another character, such as "NaN" or "1e+21", is no numeral. *)
Lemma numeral_numeral_chars (s : string) (neg : bool) (n : Z) (d : nat) :
  numeral s neg n d -> numeral_chars s = true.
Proof.
  intros (ip & fp & -> & _ & Hip & Hfp & _).
  rewrite !numeral_chars_app, (digits_only_numeral_chars ip Hip),
    (digits_only_numeral_chars fp Hfp).
  destruct neg; reflexivity.
Qed.

Lemma rounded_to_numeral_chars (s : string) (x : number) (d : nat) :
  rounded_to s x d -> numeral_chars s = true.
Proof.
  unfold rounded_to. destruct (Prim2SF x) as [ sx | sx | | sx m e ];
    try contradiction.
  - apply numeral_numeral_chars.
  - intros (n & H & _). exact (numeral_numeral_chars _ _ _ _ H).
Qed.

End Parsing.

(** ** Scaling and aggregation *)

Section Aggregation.
Local Open Scope float_scope.

Lemma foldl_insert_lookup {V : Type} (g : string -> V) (l : list string)
    (m0 : gmap string V) (k : string) :
  foldl (fun (m : gmap string V) f => <[f := g f]> m) m0 l !! k
  = if bool_decide (k ∈ l) then Some (g k) else m0 !! k.
Proof.
  revert m0. induction l as [ | a l IH ]; intros m0; cbn [foldl].
  - reflexivity.
  - rewrite IH. destruct (decide (k ∈ l)) as [Hin | Hnin].
    + rewrite !bool_decide_eq_true_2 by (rewrite ?elem_of_cons; auto).
      reflexivity.
    + rewrite (bool_decide_eq_false_2 (k ∈ l)) by assumption.
      destruct (decide (a = k)) as [-> | Hne].
      * rewrite lookup_insert_eq, bool_decide_eq_true_2
          by (rewrite ?elem_of_cons; auto).
        reflexivity.
      * rewrite lookup_insert_ne, bool_decide_eq_false_2
          by (rewrite ?elem_of_cons; intuition congruence).
        reflexivity.
Qed.

(** The scaled record holds the fields of [numericFields], and only
    them. *)
Lemma scaled_lookup (rec : NutrientRecord) (q : number) (f : string) :
  calculateScaledNutrition rec q !! f
  = if bool_decide (f ∈ numericFields)
    then Some (field_value rec f * (q / 100)) else None.
Proof.
  unfold calculateScaledNutrition. cbv zeta.
  rewrite (foldl_insert_lookup (fun f => field_value rec f * (q / 100))).
  rewrite lookup_empty. reflexivity.
Qed.

(** Every field that the loop reads from the scaled record is one that
    [calculateScaledNutrition] writes. *)
Lemma field_of_numeric (n : Nutrient) : field_of n ∈ numericFields.
Proof. destruct n; apply (bool_decide_unpack _); vm_compute; exact I. Qed.

(** The 33 accumulated nutrients. *)
Lemma all_nutrients_complete :
  length all_nutrients = 33%nat /\ NoDup all_nutrients
  /\ forall n : Nutrient, n ∈ all_nutrients.
Proof.
  split; [ reflexivity | ]. split.
  - apply (NoDup_fmap_1 index_of). apply (bool_decide_unpack _).
    vm_compute. exact I.
  - intros n. destruct n; unfold all_nutrients;
      repeat first [ apply list_elem_of_here | apply list_elem_of_further ].
Qed.

(** The fields that [calculateScaledNutrition] writes are the 33 fields
    that the loop reads, each once. *)
Lemma numericFields_nutrients : field_of <$> all_nutrients ≡ₚ numericFields.
Proof.
  apply NoDup_Permutation.
  - apply (bool_decide_unpack _). vm_compute. exact I.
  - apply (bool_decide_unpack _). vm_compute. exact I.
  - intros f. split.
    + intros H. apply list_elem_of_fmap in H. destruct H as (n & -> & _).
      apply field_of_numeric.
    + revert f. apply Forall_forall.
      apply (bool_decide_unpack _). vm_compute. exact I.
Qed.

Lemma scaled_field (line : Ingredient * NutrientRecord) (n : Nutrient) :
  calculateScaledNutrition line.2 (ToNumber (quantityInGrams line.1))
  !! field_of n
  = Some (contribution n line).
Proof.
  rewrite scaled_lookup, bool_decide_eq_true_2 by apply field_of_numeric.
  reflexivity.
Qed.

Lemma total_of_add_to_total (n : Nutrient) (t : TotalNutrition) (scaled : Scaled) :
  total_of n (add_to_total t scaled)
  = total_of n t + ToNumber (scaled !! field_of n).
Proof. destruct n; reflexivity. Qed.

Lemma number_at_item_row (ts rid : string) (ing : Ingredient) (scaled : Scaled)
    (n : Nutrient) :
  number_at (item_row ts rid ing scaled) (item_column n)
  = ToNumber (scaled !! field_of n).
Proof.
  destruct n; unfold number_at; cbn [item_column index_of Nat.add item_row lookup list_lookup field_of];
    match goal with |- context [ scaled !! ?k ] => destruct (scaled !! k) end;
    reflexivity.
Qed.

(** Two totals with the same 33 fields are the same. *)
Lemma total_ext (t t' : TotalNutrition) :
  (forall n, total_of n t = total_of n t') -> t = t'.
Proof.
  intros H. destruct t, t'.
  repeat match goal with
         | |- _ => progress f_equal
         end;
    first [ exact (H Energy) | exact (H Protein) | exact (H Fat)
          | exact (H Carbs) | exact (H Fiber) | exact (H VitaminD)
          | exact (H VitaminA) | exact (H Omega3) | exact (H Omega6)
          | exact (H EnergyKJ) | exact (H Thiamine) | exact (H Riboflavin)
          | exact (H Niacin) | exact (H PantothenicAcid) | exact (H Pyridoxine)
          | exact (H Biotin) | exact (H Folate) | exact (H VitaminC)
          | exact (H VitaminE) | exact (H VitaminK1) | exact (H Iron)
          | exact (H Calcium) | exact (H Magnesium) | exact (H Zinc)
          | exact (H Selenium) | exact (H Sodium) | exact (H Potassium)
          | exact (H Phosphorus) | exact (H Cobalt) | exact (H Mufa)
          | exact (H Pufa) | exact (H SaturatedFat) | exact (H TotalSugar) ].
Qed.

Lemma foldl_add_fmap {A : Type} (g : A -> number) (ls : list A) (acc : number) :
  foldl (fun acc x => acc + g x) acc ls = foldl PrimFloat.add acc (g <$> ls).
Proof.
  revert acc. induction ls as [ | x ls IH ]; intros acc;
    [ reflexivity | apply IH ].
Qed.

(** The loop from any state: each total grows by the contributions of
    the matched lines, in order, and the rows of the matched lines are
    appended in order. *)
Lemma foldl_loop_body (ts rid : string) (data : list NutrientRecord)
    (l : list Ingredient) :
  forall st : LoopState,
    let st' := foldl (loop_body ts rid data) st l in
    (forall n, total_of n (totalNutrition st')
               = foldl PrimFloat.add (total_of n (totalNutrition st))
                       (contribution n <$> matched_lines data l))
    /\ recipeItems st' = recipeItems st ++ (row_of ts rid <$> matched_lines data l).
Proof.
  induction l as [ | ing l IH ]; intros st; cbn [foldl].
  - split; [ reflexivity | ]. cbn. rewrite app_nil_r. reflexivity.
  - destruct (IH (loop_body ts rid data st ing)) as [IHt IHr].
    cbv zeta in *. split.
    + intros n. rewrite IHt. unfold matched_lines, loop_body.
      cbn [omap list_omap].
      destruct (find_nutrient data (code ing)) as [rec | ];
        cbn [fmap option_fmap option_map list_fmap foldl totalNutrition];
        [ | reflexivity ].
      rewrite total_of_add_to_total, (scaled_field (ing, rec)). reflexivity.
    + rewrite IHr. unfold matched_lines, loop_body.
      cbn [omap list_omap].
      destruct (find_nutrient data (code ing)) as [rec | ];
        cbn [fmap option_fmap option_map list_fmap recipeItems];
        [ | reflexivity ].
      rewrite <- app_assoc. reflexivity.
Qed.

Lemma aggregate_totals (ts rid : string) (data : list NutrientRecord)
    (l : list Ingredient) (n : Nutrient) :
  total_of n (totalNutrition (aggregate ts rid data l))
  = sum_from_zero (contribution n <$> matched_lines data l).
Proof.
  unfold aggregate. destruct (foldl_loop_body ts rid data l loop_init) as [H _].
  rewrite H. unfold sum_from_zero. f_equal. destruct n; reflexivity.
Qed.

Lemma aggregate_rows (ts rid : string) (data : list NutrientRecord)
    (l : list Ingredient) :
  recipeItems (aggregate ts rid data l) = row_of ts rid <$> matched_lines data l.
Proof.
  unfold aggregate. destruct (foldl_loop_body ts rid data l loop_init) as [_ H].
  exact H.
Qed.

Lemma sum_from_zero_app (xs ys : list number) :
  sum_from_zero (xs ++ ys) = foldl PrimFloat.add (sum_from_zero xs) ys.
Proof. apply foldl_app. Qed.

(** A sum of non-negative Numbers is non-negative. *)
Lemma foldl_add_nonneg (cs : list number) :
  forall acc : number,
    (0 <=? acc) = true ->
    Forall (fun c => (0 <=? c) = true) cs ->
    (0 <=? foldl PrimFloat.add acc cs) = true.
Proof.
  induction cs as [ | c cs IH ]; intros acc Hacc Hcs; cbn [foldl].
  - exact Hacc.
  - apply Forall_cons in Hcs. destruct Hcs as [Hc Hcs].
    apply IH; [ | exact Hcs ]. apply add_nonneg_ge; assumption.
Qed.

(** Up to two Numbers can be summed in either order. *)
Lemma sum_from_zero_short (cs cs' : list number) :
  cs ≡ₚ cs' -> (length cs <= 2)%nat -> sum_from_zero cs = sum_from_zero cs'.
Proof.
  intros Hp Hlen. destruct cs as [ | a [ | b [ | c cs ] ] ]; cbn in Hlen; try lia.
  - apply Permutation_nil in Hp. subst. reflexivity.
  - apply Permutation_length_1_inv in Hp. subst. reflexivity.
  - apply Permutation_length_2_inv in Hp. destruct Hp as [-> | ->].
    + reflexivity.
    + apply add_zero_swap.
Qed.

Lemma strict_equals_spec (a b : option string) :
  strict_equals a b = true <-> a = b.
Proof.
  destruct a as [ s | ], b as [ t | ]; cbn.
  - rewrite String.eqb_eq. split; congruence.
  - split; discriminate.
  - split; discriminate.
  - split; reflexivity.
Qed.

Lemma find_nutrient_unmatched (data : list NutrientRecord) (ing : Ingredient) :
  unmatched data ing <-> find_nutrient data (code ing) = None.
Proof.
  unfold unmatched, find_nutrient. induction data as [ | r data IH ]; cbn [find].
  - split; [ reflexivity | constructor ].
  - rewrite Forall_cons, IH.
    destruct (strict_equals (r !! "Food code"%string) (code ing)) eqn:E.
    + apply strict_equals_spec in E.
      split; [ intros [H _]; contradiction | discriminate ].
    + apply not_true_iff_false in E. rewrite strict_equals_spec in E.
      split; [ intros [_ H]; exact H | ].
      intros H. split; [ exact E | exact H ].
Qed.

(** A matched line is an ingredient line with a record of the data. *)
Lemma matched_lines_elem (data : list NutrientRecord) (l : list Ingredient)
    (line : Ingredient * NutrientRecord) :
  line ∈ matched_lines data l -> line.1 ∈ l /\ line.2 ∈ data.
Proof.
  unfold matched_lines. rewrite list_elem_of_omap.
  intros (ing & Hing & Hfind).
  destruct (find_nutrient data (code ing)) as [r | ] eqn:E; [ | discriminate ].
  cbn in Hfind. injection Hfind as <-. cbn [fst snd]. split; [ exact Hing | ].
  unfold find_nutrient in E. apply find_some in E.
  apply list_elem_of_In. exact (proj1 E).
Qed.

Lemma matched_lines_app (data : list NutrientRecord) (l1 l2 : list Ingredient) :
  matched_lines data (l1 ++ l2) = matched_lines data l1 ++ matched_lines data l2.
Proof. apply omap_app. Qed.

(** The field names of the code are the canonical names encoded twice:
    the six names with the micro sign differ, the other 27 are the
    same. *)
Lemma numericFields_double_encoded :
  numericFields = double_encoded <$> canonical_fields.
Proof. reflexivity. Qed.

Lemma canonical_fields_count :
  length canonical_fields = 33%nat
  /\ length (List.filter ascii_only canonical_fields) = 27%nat.
Proof. split; reflexivity. Qed.

Lemma double_encoded_ascii (s : string) :
  ascii_only s = true -> double_encoded s = s.
Proof.
  induction s as [ | c s IH ]; [ reflexivity | ].
  cbn [ascii_only double_encoded]. intros H. apply andb_true_iff in H.
  destruct H as [-> H]. rewrite (IH H). reflexivity.
Qed.

Lemma canonical_ascii_numeric (f : string) :
  f ∈ canonical_fields -> ascii_only f = true -> f ∈ numericFields.
Proof.
  intros Hf Ha. rewrite numericFields_double_encoded.
  apply list_elem_of_fmap. exists f. split; [ | exact Hf ].
  symmetry. apply double_encoded_ascii, Ha.
Qed.

(** The cell under a canonical name with the micro sign: the scaled
    record has no field of that name, and the field of the twice-encoded
    name is 0 whatever the cell holds. *)
Lemma micro_sign_cell :
  "Biotin, B7 (µg)" ∈ canonical_fields
  /\ calculateScaledNutrition (Examples.record "A001" "Biotin, B7 (µg)" "5") 100
     !! "Biotin, B7 (µg)" = None
  /\ calculateScaledNutrition (Examples.record "A001" "Biotin, B7 (µg)" "5") 100
     !! double_encoded "Biotin, B7 (µg)" = Some 0.
Proof.
  split; [ apply (bool_decide_unpack _); vm_compute; exact I | ].
  split; vm_compute; reflexivity.
Qed.

End Aggregation.

(** ** The claims *)

Section Claims.
Local Open Scope string_scope.
Local Open Scope float_scope.

(** *** Vitamin D *)

(** C2.  [calculateVitaminD] returns [chocal] for a food code in the
    closed lexicographic range from "A001" to "L004", [chocal + 5 *
    oh25d3] for a code in the closed range from "M001" to "S010", and 0
    for a code in neither range. *)
Theorem calculateVitaminD_ranges (c : string) (chocal oh25d3 : number) :
  (in_range "A001" "L004" c -> calculateVitaminD c chocal oh25d3 = chocal)
  /\ (in_range "M001" "S010" c ->
      calculateVitaminD c chocal oh25d3 = chocal + 5 * oh25d3)
  /\ (~ in_range "A001" "L004" c -> ~ in_range "M001" "S010" c ->
      calculateVitaminD c chocal oh25d3 = 0).
Proof.
  unfold calculateVitaminD.
  destruct (str_ge c "A001" && str_le c "L004") eqn:E1;
    [ apply in_range_spec in E1
    | apply not_true_iff_false in E1; rewrite in_range_spec in E1 ];
    (destruct (str_ge c "M001" && str_le c "S010") eqn:E2;
     [ apply in_range_spec in E2
     | apply not_true_iff_false in E2; rewrite in_range_spec in E2 ]).
  - exfalso. exact (ranges_disjoint c E2 E1).
  - split; [ | split ]; intros; first [ reflexivity | contradiction ].
  - split; [ | split ]; intros; first [ reflexivity | contradiction ].
  - split; [ | split ]; intros; first [ reflexivity | contradiction ].
Qed.

(** The examples of the specification: "B002" lies in the first range,
    "P005" in the second, "Z999" in neither. *)
Lemma calculateVitaminD_examples :
  calculateVitaminD "B002" 10 2 = 10
  /\ calculateVitaminD "P005" 10 2 = 20
  /\ calculateVitaminD "Z999" 10 2 = 0.
Proof.
  split; [ | split ].
  - apply (proj1 (calculateVitaminD_ranges "B002" 10 2)).
    apply in_range_spec. reflexivity.
  - apply (proj1 (proj2 (calculateVitaminD_ranges "P005" 10 2))).
    apply in_range_spec. reflexivity.
  - apply (proj2 (proj2 (calculateVitaminD_ranges "Z999" 10 2)));
      rewrite <- in_range_spec; vm_compute; discriminate.
Defined.

(** *** The quantity scaler *)

(** C1, as the code has it by design.  For every nutrient record,
    quantity and canonical field whose name is written in ASCII, the
    scaled record holds the value of the field times [quantity / 100],
    where the value is [parseFloat] of the cell or 0: it is never [NaN],
    and it is 0 when the field is absent or its text is not numeric.  The
    scaled field is [NaN] exactly when the quantity is [NaN], or the
    value is infinite and [quantity / 100] is zero, or the value is zero
    and [quantity / 100] is infinite; it is never [NaN] when the value
    and the quantity are finite.  The six canonical fields whose name
    holds the micro sign are left aside: the statement says nothing
    about them. *)
Theorem calculateScaledNutrition_fields (nutrientData : NutrientRecord)
    (quantity : number) (field : string) :
  field ∈ canonical_fields ->
  ascii_only field = true ->
  let value := or_else (parseFloat (ToString (nutrientData !! field))) 0 in
  let scaled := value * (quantity / 100) in
  calculateScaledNutrition nutrientData quantity !! field = Some scaled
  /\ is_nan value = false
  /\ (nutrientData !! field = None -> value = 0)
  /\ (forall text, nutrientData !! field = Some text -> non_numeric text ->
      value = 0)
  /\ (is_nan scaled = true <->
      is_nan quantity = true
      \/ (is_infinity value = true /\ is_zero (quantity / 100) = true)
      \/ (is_zero value = true /\ is_infinity (quantity / 100) = true))
  /\ (is_finite value = true -> is_finite quantity = true ->
      is_nan scaled = false).
Proof.
  intros Hcanonical Hascii value scaled.
  pose proof (canonical_ascii_numeric field Hcanonical Hascii) as Hin.
  assert (is_nan value = false) as Hvalue by apply or_else_not_nan.
  assert (is_nan (quantity / 100) = true <-> is_nan quantity = true) as Hq.
  { rewrite div_is_nan. change (is_nan 100) with false.
    change (is_infinity 100) with false. change (is_zero 100) with false.
    intuition discriminate. }
  assert (is_nan scaled = true <->
          is_nan quantity = true
          \/ (is_infinity value = true /\ is_zero (quantity / 100) = true)
          \/ (is_zero value = true /\ is_infinity (quantity / 100) = true))
    as Hnan.
  { unfold scaled. rewrite mul_is_nan, Hq, Hvalue. intuition discriminate. }
  split; [ | split; [ | split; [ | split; [ | split ] ] ] ].
  - rewrite scaled_lookup, bool_decide_eq_true_2 by assumption. reflexivity.
  - exact Hvalue.
  - intros E. unfold value. rewrite E. reflexivity.
  - intros text E Htext. unfold value. rewrite E. cbn [ToString].
    rewrite (parseFloat_non_numeric text Htext). reflexivity.
  - exact Hnan.
  - intros Hv Hfq. apply not_true_iff_false. rewrite Hnan.
    pose proof (div_100_finite quantity Hfq) as Hf.
    unfold is_finite in Hv, Hfq, Hf.
    apply negb_true_iff, orb_false_iff in Hv, Hfq, Hf.
    destruct Hv as [_ Hv], Hfq as [Hfq _], Hf as [_ Hf].
    rewrite Hv, Hfq, Hf. intuition discriminate.
Qed.

(** The specification's example: 200 kcal per 100 g at 50 g is 100, and
    a field with no cell is 0. *)
Lemma calculateScaledNutrition_example :
  calculateScaledNutrition Examples.energy200 50 !! "Energy (Kcal)" = Some 100
  /\ calculateScaledNutrition Examples.energy200 50 !! "Protein (g)" = Some 0.
Proof.
  split.
  - rewrite (proj1 (calculateScaledNutrition_fields Examples.energy200 50
                      "Energy (Kcal)"
                      ltac:(apply (bool_decide_unpack _); vm_compute; exact I)
                      eq_refl)).
    vm_compute. reflexivity.
  - rewrite (proj1 (calculateScaledNutrition_fields Examples.energy200 50
                      "Protein (g)"
                      ltac:(apply (bool_decide_unpack _); vm_compute; exact I)
                      eq_refl)).
    vm_compute. reflexivity.
Defined.

(** C1 as stated fails: a scaled canonical field can be [NaN].  A cell
    reading "Infinity" at quantity 0, the same cell at the smallest
    positive quantity, a missing cell at an infinite quantity, and any
    cell at a quantity that is [NaN]. *)
Lemma calculateScaledNutrition_nan :
  "Protein (g)" ∈ canonical_fields
  /\ "Energy (Kcal)" ∈ canonical_fields
  /\ calculateScaledNutrition (Examples.record "A001" "Protein (g)" "Infinity") 0
     !! "Protein (g)" = Some nan
  /\ calculateScaledNutrition (Examples.record "A001" "Protein (g)" "Infinity")
       0x1p-1074 !! "Protein (g)" = Some nan
  /\ calculateScaledNutrition Examples.energy200 infinity
     !! "Protein (g)" = Some nan
  /\ calculateScaledNutrition Examples.energy200 nan
     !! "Energy (Kcal)" = Some nan.
Proof.
  split; [ apply (bool_decide_unpack _); vm_compute; exact I | ].
  split; [ apply (bool_decide_unpack _); vm_compute; exact I | ].
  repeat split; vm_compute; reflexivity.
Qed.

(** *** Formatting *)

Lemma recipeRow_total_cell (ts rid : string) (body : RequestBody)
    (t : TotalNutrition) (n : Nutrient) :
  recipeRow ts rid body t !! recipe_column n
  = Some (VString (toFixed (total_of n t) (decimals n))).
Proof. destruct n; reflexivity. Qed.

Lemma recipeRow_serving_cell (ts rid : string) (body : RequestBody)
    (t : TotalNutrition) (sn : ServingNutrient) :
  recipeRow ts rid body t !! serving_column sn
  = Some (VString (toFixed (serving_total sn t / ToNumber (recipeYield body)) 2)).
Proof. destruct sn; reflexivity. Qed.

(** C4 as stated fails: a total cell need not be a rounded number.  A
    line that gives no quantity makes every total [NaN], written "NaN";
    a food with 1e21 kcal per 100 g at 100 g gives the energy cell
    "1e+21".  Neither text is a numeral with two decimals. *)
Lemma recipeRow_not_rounded :
  recipeRow "t" "r" (Examples.body 1 [Examples.line_without_quantity "A001"])
    (totalNutrition
       (aggregate "t" "r" [Examples.energy200]
          [Examples.line_without_quantity "A001"]))
  !! recipe_column Energy = Some (VString "NaN")
  /\ ~ (exists neg n, numeral "NaN" neg n 2)
  /\ recipeRow "t" "r" (Examples.body 1 [Examples.line "A001" 100])
       (totalNutrition
          (aggregate "t" "r" [Examples.energy1e21] [Examples.line "A001" 100]))
     !! recipe_column Energy = Some (VString "1e+21")
  /\ ~ (exists neg n, numeral "1e+21" neg n 2).
Proof.
  split; [ vm_compute; reflexivity | ].
  split; [ intros (neg & n & H); apply numeral_numeral_chars in H;
           discriminate H | ].
  split; [ vm_compute; reflexivity | ].
  intros (neg & n & H). apply numeral_numeral_chars in H. discriminate H.
Qed.

(** C4, as the code has it.  In the recipe row every total is written
    by [toFixed] with two decimals, except thiamine, riboflavin,
    pyridoxine and cobalt, which are written with three.  For a finite
    total below [10^21] the cell is the total rounded to that many
    decimals: a numeral with exactly that many digits after the point,
    of the nearest multiple of [10^-2], or [10^-3].  A total that is
    [NaN] is written "NaN", and an infinite one "Infinity" or
    "-Infinity". *)
Theorem recipeRow_precision (ts rid : string) (body : RequestBody)
    (t : TotalNutrition) (n : Nutrient) :
  recipeRow ts rid body t !! recipe_column n
  = Some (VString (toFixed (total_of n t) (decimals n)))
  /\ (below_1e21 (total_of n t) = true ->
      rounded_to (toFixed (total_of n t) (decimals n)) (total_of n t)
        (decimals n))
  /\ (is_nan (total_of n t) = true ->
      toFixed (total_of n t) (decimals n) = "NaN")
  /\ (is_infinity (total_of n t) = true ->
      toFixed (total_of n t) (decimals n) = "Infinity"
      \/ toFixed (total_of n t) (decimals n) = "-Infinity").
Proof.
  split; [ apply recipeRow_total_cell | ].
  split; [ apply toFixed_rounded; destruct n; cbn; lia | ].
  split; [ apply toFixed_nan | apply toFixed_infinity ].
Qed.

(** The totals of 50 g of a food with 200 kcal per 100 g, twice: the
    energy cell has two decimals and the thiamine cell three. *)
Lemma recipeRow_precision_example :
  let t := totalNutrition
             (aggregate "t" "r" [Examples.energy200]
                [Examples.line "A001" 50; Examples.line "A001" 50]) in
  recipeRow "t" "r" (Examples.body 2 []) t !! recipe_column Energy
  = Some (VString "200.00")
  /\ recipeRow "t" "r" (Examples.body 2 []) t !! recipe_column Thiamine
     = Some (VString "0.000")
  /\ rounded_to "200.00" 200 2
  /\ rounded_to "0.000" 0 3.
Proof.
  intros t.
  destruct (recipeRow_precision "t" "r" (Examples.body 2 []) t Energy)
    as (He & He' & _).
  destruct (recipeRow_precision "t" "r" (Examples.body 2 []) t Thiamine)
    as (Ht & Ht' & _).
  split; [ rewrite He; vm_compute; reflexivity | ].
  split; [ rewrite Ht; vm_compute; reflexivity | ].
  split; [ exact (He' eq_refl) | exact (Ht' eq_refl) ].
Defined.

(** C5 as stated fails: with a positive yield a per-serving value need
    not be a rounded number.  With a yield of 2, a line that gives no
    quantity makes the per-serving energy "NaN", and a food with 1e21
    kcal per 100 g at 200 g makes it "1e+21".  Neither text is a numeral
    with two decimals. *)
Lemma per_serving_not_rounded :
  PerServing.energy
    (perServing
       (nutrition
          (post_recipes "t" "r" [Examples.energy200]
             (Examples.body 2 [Examples.line_without_quantity "A001"])).2))
  = "NaN"
  /\ ~ (exists neg n, numeral "NaN" neg n 2)
  /\ PerServing.energy
       (perServing
          (nutrition
             (post_recipes "t" "r" [Examples.energy1e21]
                (Examples.body 2 [Examples.line "A001" 200])).2))
     = "1e+21"
  /\ ~ (exists neg n, numeral "1e+21" neg n 2).
Proof.
  split; [ vm_compute; reflexivity | ].
  split; [ intros (neg & n & H); apply numeral_numeral_chars in H;
           discriminate H | ].
  split; [ vm_compute; reflexivity | ].
  intros (neg & n & H). apply numeral_numeral_chars in H. discriminate H.
Qed.

(** C5, as the code has it.  The per-serving energy, protein, fat,
    carbohydrate and fibre, in the recipe row and in the response, are
    the total divided by the yield and written by [toFixed] with two
    decimals: the quotient rounded to two decimals when it is finite and
    below [10^21], "NaN" when it is [NaN], and "Infinity" or "-Infinity"
    when it is infinite.  This holds for every yield, which is not
    checked: total 200 with yield 2 gives "100.00", and with yield 0 the
    quotient is infinite, or [NaN] for a total of 0, and is written as
    such. *)
Theorem per_serving_values (ts rid : string) (data : list NutrientRecord)
    (body : RequestBody) (sn : ServingNutrient) :
  let t := totalNutrition (aggregate ts rid data (ingredients body)) in
  let quotient := serving_total sn t / ToNumber (recipeYield body) in
  let per_serving := toFixed quotient 2 in
  serving_field sn (perServing (nutrition (post_recipes ts rid data body).2))
  = per_serving
  /\ (exists row rest,
        (post_recipes ts rid data body).1 = Append "Recipes!A:A" [row] :: rest
        /\ row !! serving_column sn = Some (VString per_serving))
  /\ (below_1e21 quotient = true -> rounded_to per_serving quotient 2)
  /\ (is_nan quotient = true -> per_serving = "NaN")
  /\ (is_infinity quotient = true ->
      per_serving = "Infinity" \/ per_serving = "-Infinity")
  /\ (serving_total sn t = 200 -> recipeYield body = Some 2 ->
      per_serving = "100.00")
  /\ (serving_total sn t = 200 -> recipeYield body = Some 0 ->
      per_serving = "Infinity")
  /\ (serving_total sn t = 0 -> recipeYield body = Some 0 ->
      per_serving = "NaN")
  /\ (serving_total sn t = 200 -> recipeYield body = Some (-2) ->
      per_serving = "-100.00").
Proof.
  intros t quotient per_serving.
  split; [ destruct sn; reflexivity | ].
  split.
  { eexists _, _. split; [ reflexivity | ]. apply recipeRow_serving_cell. }
  split; [ apply toFixed_rounded; lia | ].
  split; [ apply toFixed_nan | ].
  split; [ apply toFixed_infinity | ].
  unfold per_serving, quotient.
  repeat split; intros -> ->; vm_compute; reflexivity.
Qed.

(** The end-to-end example of the specification: two lines of 50 g of a
    food with 200 kcal per 100 g and a yield of 2. *)
Lemma per_serving_example :
  PerServing.energy
    (perServing
       (nutrition
          (post_recipes "t" "r" [Examples.energy200]
             (Examples.body 2
                [Examples.line "A001" 50; Examples.line "A001" 50])).2))
  = "100.00".
Proof.
  pose proof (proj1 (per_serving_values "t" "r" [Examples.energy200]
                       (Examples.body 2
                          [Examples.line "A001" 50; Examples.line "A001" 50])
                       SEnergy)) as H.
  cbn [serving_field] in H. rewrite H. vm_compute. reflexivity.
Defined.

(** C6 as stated fails: with [omega6 > 0] the ratio need not be a
    rounded number.  100 g of a food with 1e25 mg of omega 3 and 1 mg of
    omega 6 per 100 g give an omega 6 total of 1 and the ratio "1e+25",
    which is no numeral with two decimals. *)
Lemma omega3To6Ratio_not_rounded :
  (0 <? omega6 (totalNutrition
                  (aggregate "t" "r" [Examples.omega_rich]
                     [Examples.line "A001" 100]))) = true
  /\ omega3To6Ratio
       (totalNutrition
          (aggregate "t" "r" [Examples.omega_rich] [Examples.line "A001" 100]))
     = VString "1e+25"
  /\ ~ (exists neg n, numeral "1e+25" neg n 2).
Proof.
  split; [ vm_compute; reflexivity | ].
  split; [ vm_compute; reflexivity | ].
  intros (neg & n & H). apply numeral_numeral_chars in H. discriminate H.
Qed.

(** C6, as the code has it.  The omega-3 to omega-6 ratio is
    [omega3 / omega6] written by [toFixed] with two decimals when
    [omega6 > 0]: the quotient rounded to two decimals when it is finite
    and below [10^21], "NaN" when it is [NaN], and "Infinity" or
    "-Infinity" when it is infinite.  Otherwise it is the number 0.  It
    is the cell after omega 6 in the recipe row. *)
Theorem omega3To6Ratio_cases (t : TotalNutrition) :
  ((0 <? omega6 t) = true ->
   omega3To6Ratio t = VString (toFixed (omega3 t / omega6 t) 2)
   /\ (below_1e21 (omega3 t / omega6 t) = true ->
       rounded_to (toFixed (omega3 t / omega6 t) 2) (omega3 t / omega6 t) 2)
   /\ (is_nan (omega3 t / omega6 t) = true ->
       toFixed (omega3 t / omega6 t) 2 = "NaN")
   /\ (is_infinity (omega3 t / omega6 t) = true ->
       toFixed (omega3 t / omega6 t) 2 = "Infinity"
       \/ toFixed (omega3 t / omega6 t) 2 = "-Infinity"))
  /\ ((0 <? omega6 t) = false -> omega3To6Ratio t = VNumber 0)
  /\ (omega3 t = 10 -> omega6 t = 0 -> omega3To6Ratio t = VNumber 0)
  /\ (omega3 t = 10 -> omega6 t = 5 -> omega3To6Ratio t = VString "2.00")
  /\ (forall ts rid body,
        recipeRow ts rid body t !! 18%nat = Some (omega3To6Ratio t)).
Proof.
  unfold omega3To6Ratio.
  split.
  { intros ->. split; [ reflexivity | ].
    split; [ apply toFixed_rounded; lia | ].
    split; [ apply toFixed_nan | apply toFixed_infinity ]. }
  split; [ intros ->; reflexivity | ].
  split; [ intros -> ->; reflexivity | ].
  split; [ intros -> ->; vm_compute; reflexivity | ].
  reflexivity.
Qed.

(** The examples of the specification: omega 3 of 10 with omega 6 of 5
    and of 0. *)
Lemma omega3To6Ratio_examples :
  omega3To6Ratio (Examples.omega_totals 10 5) = VString "2.00"
  /\ omega3To6Ratio (Examples.omega_totals 10 0) = VNumber 0.
Proof.
  split.
  - apply (proj1 (proj2 (proj2 (proj2
             (omega3To6Ratio_cases (Examples.omega_totals 10 5))))));
      reflexivity.
  - apply (proj1 (proj2 (proj2
             (omega3To6Ratio_cases (Examples.omega_totals 10 0)))));
      reflexivity.
Defined.

(** C10.  The response carries the accumulator itself: its [total] is
    the record of Numbers that the loop computed, each field the
    unrounded sum of the scaled values, while the row appended to the
    recipe sheet holds the strings that [toFixed] makes of them. *)
Theorem response_total_unrounded (ts rid : string)
    (data : list NutrientRecord) (body : RequestBody) (n : Nutrient) :
  let t := totalNutrition (aggregate ts rid data (ingredients body)) in
  total (nutrition (post_recipes ts rid data body).2) = t
  /\ total_of n (total (nutrition (post_recipes ts rid data body).2))
     = sum_from_zero (contribution n <$> matched_lines data (ingredients body))
  /\ (exists rest,
        (post_recipes ts rid data body).1
        = Append "Recipes!A:A" [recipeRow ts rid body t] :: rest)
  /\ recipeRow ts rid body t !! recipe_column n
     = Some (VString (toFixed (total_of n t) (decimals n))).
Proof.
  intros t.
  split; [ reflexivity | ].
  split; [ apply aggregate_totals | ].
  split; [ eexists; reflexivity | apply recipeRow_total_cell ].
Qed.

(** Foods with 0.1 and 0.2 kcal per 100 g at 100 g each: the response
    reports the energy 0.30000000000000004, the recipe row "0.30". *)
Lemma response_total_example :
  let body := Examples.body 1 [Examples.line "A001" 100; Examples.line "B002" 100] in
  energy (total (nutrition (post_recipes "t" "r" Examples.tenths body).2))
  = 0x1.3333333333334p-2
  /\ (exists rest,
        (post_recipes "t" "r" Examples.tenths body).1
        = Append "Recipes!A:A" [recipeRow "t" "r" body
             (totalNutrition (aggregate "t" "r" Examples.tenths (ingredients body)))]
          :: rest)
  /\ recipeRow "t" "r" body
       (totalNutrition (aggregate "t" "r" Examples.tenths (ingredients body)))
     !! recipe_column Energy = Some (VString "0.30").
Proof.
  intros body.
  destruct (response_total_unrounded "t" "r" Examples.tenths body Energy)
    as (H1 & _ & H3 & H4).
  cbv zeta in H1. split; [ rewrite H1; vm_compute; reflexivity | ].
  split; [ exact H3 | ]. rewrite H4. vm_compute. reflexivity.
Defined.

(** *** Aggregation *)

(** C3.  An ingredient line whose food code has no nutrient record
    changes neither the totals nor the rows: the loop ends in the state
    it reaches without the line, in which every total is the sum of what
    the matched lines contribute and the rows are those of the matched
    lines. *)
Theorem unmatched_line_skipped (ts rid : string) (data : list NutrientRecord)
    (l1 l2 : list Ingredient) (ing : Ingredient) :
  unmatched data ing ->
  aggregate ts rid data (l1 ++ ing :: l2) = aggregate ts rid data (l1 ++ l2)
  /\ (forall n,
        total_of n (totalNutrition (aggregate ts rid data (l1 ++ ing :: l2)))
        = sum_from_zero (contribution n <$> matched_lines data (l1 ++ l2)))
  /\ recipeItems (aggregate ts rid data (l1 ++ ing :: l2))
     = row_of ts rid <$> matched_lines data (l1 ++ l2).
Proof.
  intros Hing. apply find_nutrient_unmatched in Hing.
  assert (aggregate ts rid data (l1 ++ ing :: l2)
          = aggregate ts rid data (l1 ++ l2)) as E.
  { unfold aggregate. rewrite !foldl_app. cbn [foldl].
    unfold loop_body at 2. rewrite Hing. reflexivity. }
  rewrite E. split; [ reflexivity | ].
  split; [ intros n; apply aggregate_totals | apply aggregate_rows ].
Qed.

(** A line for a code that the data does not have, between two lines of
    50 g of a food with 200 kcal per 100 g: the energy is 200 and there
    are two rows. *)
Lemma unmatched_line_example :
  let st := aggregate "t" "r" [Examples.energy200]
              ([Examples.line "A001" 50]
               ++ Examples.line "Z999" 10 :: [Examples.line "A001" 50]) in
  energy (totalNutrition st) = 200 /\ length (recipeItems st) = 2%nat.
Proof.
  intros st. unfold st.
  rewrite (proj1 (unmatched_line_skipped "t" "r" [Examples.energy200]
                    [Examples.line "A001" 50] [Examples.line "A001" 50]
                    (Examples.line "Z999" 10)
                    ltac:(repeat constructor; vm_compute; discriminate))).
  split; vm_compute; reflexivity.
Defined.

(** C9.  Each total is the sum, from 0 and in order, of the Numbers in
    its column of the emitted rows. *)
Theorem totals_sum_of_rows (ts rid : string) (data : list NutrientRecord)
    (l : list Ingredient) (n : Nutrient) :
  total_of n (totalNutrition (aggregate ts rid data l))
  = sum_from_zero
      ((fun row => number_at row (item_column n))
       <$> recipeItems (aggregate ts rid data l)).
Proof.
  rewrite aggregate_totals, aggregate_rows, <- list_fmap_compose.
  f_equal. apply list_fmap_ext. intros i line _. cbn [compose].
  unfold row_of. rewrite number_at_item_row, scaled_field. reflexivity.
Qed.

(** C8.  Every total starts at 0, and when every contribution of the
    matched lines is non-negative, a total is non-negative and the next
    line does not make it smaller. *)
Theorem totals_monotone (ts rid : string) (data : list NutrientRecord) :
  (forall n, total_of n totalNutrition_init = 0)
  /\ (forall (l : list Ingredient) (ing : Ingredient),
        (forall line n, line ∈ matched_lines data (l ++ [ing]) ->
                        (0 <=? contribution n line) = true) ->
        forall n,
          (0 <=? total_of n (totalNutrition (aggregate ts rid data l))) = true
          /\ (total_of n (totalNutrition (aggregate ts rid data l))
              <=? total_of n (totalNutrition (aggregate ts rid data (l ++ [ing]))))
             = true).
Proof.
  split; [ intros n; destruct n; reflexivity | ].
  intros l ing Hnonneg n.
  rewrite !aggregate_totals, matched_lines_app, fmap_app, sum_from_zero_app.
  assert (Forall (fun c => (0 <=? c) = true)
                 (contribution n <$> matched_lines data l)) as Hl.
  { apply Forall_fmap, Forall_forall. intros line Hline. apply Hnonneg.
    rewrite matched_lines_app. apply elem_of_app. left. exact Hline. }
  assert ((0 <=? sum_from_zero (contribution n <$> matched_lines data l)) = true)
    as Hsum by (apply foldl_add_nonneg; [ reflexivity | exact Hl ]).
  split; [ exact Hsum | ].
  destruct (matched_lines data [ing]) as [ | line [ | line' rest ] ] eqn:E.
  - apply leb_refl_nonneg. exact Hsum.
  - cbn [fmap list_fmap foldl]. apply add_nonneg_ge; [ exact Hsum | ].
    apply Hnonneg. rewrite matched_lines_app, E. apply elem_of_app. right.
    apply elem_of_cons. left. reflexivity.
  - exfalso. unfold matched_lines in E. cbn [omap list_omap] in E.
    destruct (find_nutrient data (code ing)); discriminate E.
Qed.

(** Lines of a food with 200 kcal per 100 g: the energy after the first
    line is not above the energy after the second. *)
Lemma totals_monotone_example :
  (energy (totalNutrition
             (aggregate "t" "r" [Examples.energy200] [Examples.line "A001" 50]))
   <=? energy (totalNutrition
                 (aggregate "t" "r" [Examples.energy200]
                    ([Examples.line "A001" 50] ++ [Examples.line "A001" 25]))))
  = true.
Proof.
  refine (proj2 (proj2 (totals_monotone "t" "r" [Examples.energy200])
                   [Examples.line "A001" 50] (Examples.line "A001" 25) _ Energy)).
  intros [ing r] n Hline. apply matched_lines_elem in Hline.
  cbn [fst snd] in Hline. destruct Hline as [Hing Hr].
  apply elem_of_cons in Hr. destruct Hr as [-> | Hr];
    [ | apply elem_of_nil in Hr; contradiction Hr ].
  repeat (apply elem_of_cons in Hing; destruct Hing as [-> | Hing]);
    [ .. | apply elem_of_nil in Hing; contradiction Hing ];
    destruct n; vm_compute; reflexivity.
Defined.

(** C7 as stated fails: the totals depend on the order of the lines,
    because the sums are rounded after every addition.  Foods with 0.1,
    0.2 and 0.3 kcal per 100 g at 100 g each give the energy
    0.6000000000000001 in one order and 0.6 in the reverse order; foods
    with 1e16, 1 and 1 kcal give totals that differ in the recipe row as
    well. *)
Lemma totals_depend_on_order :
  let l := [Examples.line "A001" 100; Examples.line "B002" 100;
            Examples.line "C003" 100] in
  let l' := [Examples.line "C003" 100; Examples.line "B002" 100;
             Examples.line "A001" 100] in
  l ≡ₚ l'
  /\ totalNutrition (aggregate "t" "r" Examples.tenths l)
     <> totalNutrition (aggregate "t" "r" Examples.tenths l')
  /\ recipeRow "t" "r" (Examples.body 1 l)
       (totalNutrition (aggregate "t" "r" Examples.large_and_small l))
     !! recipe_column Energy = Some (VString "10000000000000000.00")
  /\ recipeRow "t" "r" (Examples.body 1 l')
       (totalNutrition (aggregate "t" "r" Examples.large_and_small l'))
     !! recipe_column Energy = Some (VString "10000000000000002.00").
Proof.
  intros l l'. split; [ apply (Permutation_rev l) | ].
  split; [ | split; vm_compute; reflexivity ].
  intros H. apply (f_equal (fun t => Prim2SF (energy t))) in H.
  vm_compute in H. discriminate H.
Qed.

(** C7, as the code has it.  Every total is the sum, from 0 and from
    left to right, of what the lines that have a nutrient record
    contribute, in input order; when at most two lines have a record,
    every permutation of the ingredient list gives the same totals.  The
    rows are those of the lines that have a record, in input order, one
    row for each such line: as many rows as lines when every line has a
    record, whatever codes repeat. *)
Theorem aggregate_order (ts rid : string) (data : list NutrientRecord) :
  (forall (l : list Ingredient) (n : Nutrient),
      total_of n (totalNutrition (aggregate ts rid data l))
      = sum_from_zero (contribution n <$> matched_lines data l))
  /\ (forall l l' : list Ingredient,
        l ≡ₚ l' ->
        (length (matched_lines data l) <= 2)%nat ->
        totalNutrition (aggregate ts rid data l)
        = totalNutrition (aggregate ts rid data l'))
  /\ (forall l : list Ingredient,
        recipeItems (aggregate ts rid data l)
        = row_of ts rid <$> matched_lines data l)
  /\ (forall l1 l2 : list Ingredient,
        recipeItems (aggregate ts rid data (l1 ++ l2))
        = (recipeItems (aggregate ts rid data l1)
           ++ recipeItems (aggregate ts rid data l2))%list)
  /\ (forall l : list Ingredient,
        Forall (fun ing => ~ unmatched data ing) l ->
        length (recipeItems (aggregate ts rid data l)) = length l).
Proof.
  split; [ | split; [ | split; [ | split ] ] ].
  - intros l n. apply aggregate_totals.
  - intros l l' Hp Hlen. apply total_ext. intros n.
    rewrite !aggregate_totals. apply sum_from_zero_short.
    + apply fmap_Permutation. unfold matched_lines. rewrite Hp. reflexivity.
    + rewrite length_fmap. exact Hlen.
  - apply aggregate_rows.
  - intros l1 l2. rewrite !aggregate_rows, matched_lines_app, fmap_app.
    reflexivity.
  - intros l Hl. rewrite aggregate_rows, length_fmap.
    induction Hl as [ | ing l Hing Hl IH ]; [ reflexivity | ].
    unfold matched_lines in *. cbn [omap list_omap].
    rewrite find_nutrient_unmatched in Hing.
    destruct (find_nutrient data (code ing)); [ | contradiction Hing; reflexivity ].
    cbn. rewrite IH. reflexivity.
Qed.

(** Two lines in either order give the same totals. *)
Lemma aggregate_order_example :
  totalNutrition
    (aggregate "t" "r" Examples.tenths
       [Examples.line "A001" 100; Examples.line "C003" 100])
  = totalNutrition
      (aggregate "t" "r" Examples.tenths
         [Examples.line "C003" 100; Examples.line "A001" 100]).
Proof.
  apply (proj1 (proj2 (aggregate_order "t" "r" Examples.tenths))).
  - apply perm_swap.
  - vm_compute. lia.
Defined.

End Claims.

(** ** Further facts on binary64 arithmetic *)

Section Exact.

Lemma shr_1_even (z : Z) :
  0 <= z ->
  shr_1 {| shr_m := 2 * z; shr_r := false; shr_s := false |}
  = {| shr_m := z; shr_r := false; shr_s := false |}.
Proof. destruct z as [ | p | p ]; [ reflexivity | reflexivity | lia ]. Qed.

Lemma iter_pos_shr_exact (n : positive) :
  forall z, 0 <= z ->
    SpecFloat.iter_pos shr_1 n
      {| shr_m := z * 2 ^ Zpos n; shr_r := false; shr_s := false |}
    = {| shr_m := z; shr_r := false; shr_s := false |}.
Proof.
  induction n as [ n IH | n IH | ]; intros z Hz; cbn [SpecFloat.iter_pos].
  - replace (z * 2 ^ Zpos n~1) with (2 * (z * 2 ^ Zpos n * 2 ^ Zpos n)).
    + rewrite shr_1_even by nia. rewrite IH by nia. apply IH, Hz.
    + rewrite Pos2Z.inj_xI, Z.pow_add_r, Z.pow_mul_r by lia.
      change (2 ^ 2) with 4. rewrite Z.pow_1_r.
      replace 4 with (2 * 2) by reflexivity.
      rewrite Z.pow_mul_l. ring.
  - replace (z * 2 ^ Zpos n~0) with (z * 2 ^ Zpos n * 2 ^ Zpos n).
    + rewrite IH by nia. apply IH, Hz.
    + rewrite <- Z.mul_assoc, <- Z.pow_add_r by lia. f_equal. f_equal. lia.
  - rewrite Z.pow_1_r, Z.mul_comm. apply shr_1_even, Hz.
Qed.

(** Rounding a mantissa that ends in [k] zero bits to a number that is
    representable with [k] bits fewer is exact. *)
Lemma binary_round_aux_exact (sx : bool) (m : positive) (e : Z) (k : positive) :
  fexp prec emax (Zpos (digits2_pos m) + e) = e ->
  e <= emax - prec ->
  binary_round_aux prec emax sx (Zpos m * 2 ^ Zpos k) (e - Zpos k) loc_Exact
  = S754_finite sx m e.
Proof.
  intros Hc He. unfold binary_round_aux, shr_fexp.
  rewrite Zdigits2_shift by lia.
  change (Zdigits2 (Zpos m)) with (Zpos (digits2_pos m)).
  replace (Zpos (digits2_pos m) + Zpos k + (e - Zpos k))
    with (Zpos (digits2_pos m) + e) by lia.
  rewrite Hc. replace (e - (e - Zpos k)) with (Zpos k) by lia.
  cbn [shr shr_record_of_loc]. rewrite iter_pos_shr_exact by lia.
  cbn [shr_m loc_of_shr_record round_nearest_even].
  change (Zdigits2 (Zpos m)) with (Zpos (digits2_pos m)).
  replace (e - Zpos k + Zpos k) with e by lia.
  rewrite Hc, Z.sub_diag. cbn [shr shr_m].
  apply Z.leb_le in He. rewrite He. reflexivity.
Qed.

Lemma SFmul_one (x : spec_float) :
  valid_binary x = true ->
  SF64mul x (S754_finite false 4503599627370496 (-52)) = x.
Proof.
  intros Hv. destruct x as [ s | s | | s m e ]; unfold SF64mul, SFmul.
  - destruct s; reflexivity.
  - destruct s; reflexivity.
  - reflexivity.
  - cbn [valid_binary] in Hv. unfold bounded, canonical_mantissa in Hv.
    apply andb_true_iff in Hv. destruct Hv as [Hc He].
    apply Z.eqb_eq in Hc. apply Z.leb_le in He.
    rewrite xorb_false_r.
    change (Zpos (m * 4503599627370496)) with (Zpos m * 2 ^ 52).
    change (e + -52) with (e - 52).
    apply binary_round_aux_exact; assumption.
Qed.


Lemma SFleb_zero_cases (x : spec_float) :
  SFleb (S754_zero false) x = true <->
  (exists s, x = S754_zero s) \/ x = S754_infinity false
  \/ exists m e, x = S754_finite false m e.
Proof.
  destruct x as [ s | [ | ] | | [ | ] m e ]; cbn; split;
    try discriminate; try reflexivity; eauto;
    intros [ [? H] | [ H | (? & ? & H) ] ]; discriminate H.
Qed.

Lemma SFmul_nonneg (x y : spec_float) :
  SFleb (S754_zero false) x = true ->
  SFleb (S754_zero false) y = true ->
  SF64mul x y <> S754_nan ->
  SFleb (S754_zero false) (SF64mul x y) = true.
Proof.
  rewrite !SFleb_zero_cases.
  intros [ [sx ->] | [ -> | (mx & ex & ->) ] ]
         [ [sy ->] | [ -> | (my & ey & ->) ] ] Hnan;
    unfold SF64mul, SFmul in *; try (contradiction Hnan; reflexivity);
    eauto.
  cbn [xorb].
  destruct (binary_round_aux_shape false (Zpos (mx * my)) (ex + ey) loc_Exact
              ltac:(lia)) as [ -> | [ -> | (m & e & -> & _) ] ]; eauto.
Qed.

Lemma SFdiv_nonneg (x : spec_float) (my : positive) (ey : Z) :
  SFleb (S754_zero false) x = true ->
  SFleb (S754_zero false) (SF64div x (S754_finite false my ey)) = true.
Proof.
  rewrite !SFleb_zero_cases.
  intros [ [sx ->] | [ -> | (mx & ex & ->) ] ]; unfold SF64div, SFdiv; eauto.
  destruct (SFdiv_core_spec mx ex my ey) as [l E]. cbv zeta in E. rewrite E.
  cbn [xorb].
  match goal with
  | |- context [binary_round_aux _ _ _ ?mz ?ez ?lz] =>
      destruct (binary_round_aux_shape false mz ez lz)
        as [ -> | [ -> | (m & e & -> & _) ] ]; eauto
  end.
  apply Z.div_pos; [ | lia ].
  apply Z.mul_nonneg_nonneg; [ lia | apply Z.pow_nonneg; lia ].
Qed.

(** The order on the non-negative numbers is transitive. *)
Lemma SFleb_trans_nonneg (x y z : spec_float) :
  SFleb (S754_zero false) x = true ->
  SFleb x y = true -> SFleb y z = true -> SFleb x z = true.
Proof.
  rewrite SFleb_zero_cases.
  intros [ [sx ->] | [ -> | (mx & ex & ->) ] ];
    destruct y as [ sy | [ | ] | | [ | ] my ey ]; try discriminate;
    destruct z as [ sz | [ | ] | | [ | ] mz ez ]; try discriminate;
    try reflexivity.
  unfold SFleb, SFcompare.
  change (Pos.compare_cont Eq mx my) with (mx ?= my)%positive.
  change (Pos.compare_cont Eq my mz) with (my ?= mz)%positive.
  change (Pos.compare_cont Eq mx mz) with (mx ?= mz)%positive.
  destruct (Z.compare_spec ex ey) as [ <- | H1 | H1 ]; try discriminate.
  - destruct (Pos.compare_spec mx my) as [ <- | H2 | H2 ]; try discriminate;
      intros _.
    + trivial.
    + destruct (Z.compare_spec ex ez) as [ <- | H3 | H3 ]; try discriminate;
        [ | reflexivity ].
      destruct (Pos.compare_spec my mz) as [ <- | H4 | H4 ]; try discriminate;
        intros _.
      * apply Pos.compare_lt_iff in H2. rewrite H2. reflexivity.
      * assert (H5 : (mx < mz)%positive) by lia.
        apply Pos.compare_lt_iff in H5. rewrite H5. reflexivity.
  - intros _.
    destruct (Z.compare_spec ey ez) as [ <- | H3 | H3 ]; try discriminate.
    + apply Z.compare_lt_iff in H1. rewrite H1. reflexivity.
    + assert (H5 : ex < ez) by lia.
      apply Z.compare_lt_iff in H5. rewrite H5. reflexivity.
Qed.

End Exact.

Section MoreNumbers.
Local Open Scope float_scope.

Lemma mul_one (x : float) : x * 1 = x.
Proof.
  apply Prim2SF_inj. rewrite FloatAxioms.mul_spec.
  change (Prim2SF 1) with (S754_finite false 4503599627370496 (-52)).
  apply SFmul_one, Prim2SF_valid.
Qed.


Lemma mul_nonneg (x y : float) :
  (0 <=? x) = true -> (0 <=? y) = true -> is_nan (x * y) = false ->
  (0 <=? x * y) = true.
Proof.
  rewrite <- not_true_iff_false, is_nan_spec.
  rewrite !FloatAxioms.leb_spec, FloatAxioms.mul_spec, Prim2SF_zero.
  apply SFmul_nonneg.
Qed.

(** Dividing a non-negative number by a positive finite one. *)
Lemma div_nonneg (x y : float) :
  (0 <=? x) = true -> (0 <? y) = true -> is_finite y = true ->
  (0 <=? x / y) = true.
Proof.
  rewrite is_finite_spec, FloatAxioms.ltb_spec.
  rewrite !FloatAxioms.leb_spec, FloatAxioms.div_spec, Prim2SF_zero.
  intros Hx Hy [ [s E] | (s & m & e & E) ]; rewrite E in *.
  - discriminate Hy.
  - destruct s; [ discriminate Hy | ]. apply SFdiv_nonneg, Hx.
Qed.

Lemma leb_trans_nonneg (x y z : float) :
  (0 <=? x) = true -> (x <=? y) = true -> (y <=? z) = true ->
  (x <=? z) = true.
Proof.
  rewrite !FloatAxioms.leb_spec, Prim2SF_zero. apply SFleb_trans_nonneg.
Qed.

End MoreNumbers.

(** ** Rows and the objects built from them *)

Section Sheets.
Local Open Scope string_scope.

Lemma or_empty_default (v : option string) : or_empty v = default "" v.
Proof.
  destruct v as [ s | ]; [ | reflexivity ]. cbn.
  destruct (String.eqb_spec s ""); subst; reflexivity.
Qed.

Lemma assign_lookup {V : Type} (object : gmap string V) (key k : string) (v : V) :
  assign object key v !! k
  = if bool_decide (k = key /\ key <> "__proto__") then Some v else object !! k.
Proof.
  unfold assign. destruct (String.eqb_spec key "__proto__") as [ -> | Hne ].
  - rewrite bool_decide_eq_false_2; [ reflexivity | tauto ].
  - destruct (decide (k = key)) as [ -> | Hk ].
    + rewrite bool_decide_eq_true_2 by tauto. apply lookup_insert_eq.
    + rewrite bool_decide_eq_false_2 by tauto. apply lookup_insert_ne. congruence.
Qed.

Lemma forEach_header_absent (headers row : Row) (h : string) :
  h ∉ headers \/ h = "__proto__" ->
  forall index item, forEach_header headers index row item !! h = item !! h.
Proof.
  intros Hh. induction headers as [ | a rest IH ]; intros index item;
    [ reflexivity | ].
  cbn [forEach_header]. rewrite IH, assign_lookup.
  - rewrite bool_decide_eq_false_2; [ reflexivity | ].
    intros [-> Ha]. destruct Hh as [ Hh | Hh ]; [ | contradiction ].
    apply Hh, list_elem_of_here.
  - destruct Hh as [ Hh | Hh ]; [ left | right; exact Hh ].
    intros Hin. apply Hh, list_elem_of_further, Hin.
Qed.

Lemma forEach_header_last (row : Row) (h : string) :
  h <> "__proto__" ->
  forall (headers : Row) (i index : nat) (item : NutrientRecord),
    headers !! i = Some h ->
    (forall j, (i < j)%nat -> headers !! j <> Some h) ->
    forEach_header headers index row item !! h
    = Some (or_empty (row !! (index + i)%nat)).
Proof.
  intros Hh. induction headers as [ | a rest IH ]; intros i index item Hi Hlast;
    [ discriminate Hi | ].
  cbn [forEach_header]. destruct i as [ | i ].
  - injection Hi as ->. rewrite forEach_header_absent, assign_lookup.
    + rewrite bool_decide_eq_true_2 by tauto. rewrite Nat.add_0_r. reflexivity.
    + left. intros Hin. apply list_elem_of_lookup in Hin. destruct Hin as [j Hj].
      apply (Hlast (S j)); [ lia | exact Hj ].
  - rewrite (IH i (S index)).
    + rewrite Nat.add_succ_r. reflexivity.
    + exact Hi.
    + intros j Hj. apply (Hlast (S j)). lia.
Qed.

Lemma row_object_last (headers row : Row) (h : string) (i : nat) :
  headers !! i = Some h ->
  h <> "__proto__" ->
  (forall j, (i < j)%nat -> headers !! j <> Some h) ->
  row_object headers row !! h = Some (default "" (row !! i)).
Proof.
  intros Hi Hh Hlast. unfold row_object.
  rewrite (forEach_header_last row h Hh headers i 0 ∅ Hi Hlast).
  rewrite or_empty_default. reflexivity.
Qed.

Lemma row_object_absent (headers row : Row) (h : string) :
  h ∉ headers \/ h = "__proto__" -> row_object headers row !! h = None.
Proof. intros Hh. unfold row_object. rewrite forEach_header_absent; done. Qed.

Lemma getNutrientData_rows (headers : Row) (data : list Row) :
  getNutrientData (Some (headers :: data)) = row_object headers <$> data.
Proof. reflexivity. Qed.

Lemma find_fmap {A B : Type} (f : B -> bool) (g : A -> B) (l : list A) :
  List.find f (g <$> l) = g <$> List.find (fun a => f (g a)) l.
Proof.
  induction l as [ | a l IH ]; [ reflexivity | ]. cbn.
  destruct (f (g a)); [ reflexivity | exact IH ].
Qed.

Lemma find_ext_in {A : Type} (f g : A -> bool) (l : list A) :
  (forall a, a ∈ l -> f a = g a) -> List.find f l = List.find g l.
Proof.
  induction l as [ | a l IH ]; intros H; [ reflexivity | ]. cbn.
  rewrite (H a) by apply list_elem_of_here. destruct (g a); [ reflexivity | ].
  apply IH. intros b Hb. apply H, list_elem_of_further, Hb.
Qed.

Lemma find_none_forall {A : Type} (f : A -> bool) (l : list A) :
  List.find f l = None <-> Forall (fun a => f a = false) l.
Proof.
  induction l as [ | a l IH ]; cbn.
  - split; [ constructor | reflexivity ].
  - destruct (f a) eqn:E.
    + split; [ discriminate | ]. intros H. inversion H; congruence.
    + rewrite IH. split; [ intros H; constructor; assumption | ].
      intros H. inversion H; assumption.
Qed.

(** A line with a code has no record when no record carries a food
    code. *)
Lemma unmatched_no_code (data : list NutrientRecord) (ing : Ingredient) :
  Forall (fun n : NutrientRecord => n !! "Food code" = None) data ->
  is_Some (code ing) ->
  unmatched data ing.
Proof.
  unfold unmatched. intros H [c ->]. eapply Forall_impl; [ exact H | ].
  intros n ->. discriminate.
Qed.

(** A line without a code takes the first record when no record carries
    a food code. *)
Lemma find_nutrient_undefined (data : list NutrientRecord) :
  Forall (fun n : NutrientRecord => n !! "Food code" = None) data ->
  find_nutrient data None = head data.
Proof.
  intros H. destruct H as [ | n data Hn _ ]; [ reflexivity | ].
  unfold find_nutrient. cbn [List.find]. rewrite Hn. reflexivity.
Qed.

Lemma aggregate_unmatched (ts rid : string) (data : list NutrientRecord)
    (l : list Ingredient) :
  Forall (unmatched data) l -> aggregate ts rid data l = loop_init.
Proof.
  unfold aggregate. generalize loop_init.
  induction l as [ | ing l IH ]; intros st H; [ reflexivity | ].
  inversion H as [ | ? ? Hing Hl ]; subst. cbn [foldl]. unfold loop_body at 2.
  apply find_nutrient_unmatched in Hing. rewrite Hing. apply IH, Hl.
Qed.

End Sheets.

(** ** Scaling and aggregation: further properties *)

Section Scaling.
Local Open Scope string_scope.
Local Open Scope float_scope.

(** X1.  At a quantity of 100 g the factor is 1 and the multiplication is
    exact: each of the 33 fields of the scaled record is the value parsed
    from the record, whatever that value is. *)
Theorem scaled_at_100 (rec : NutrientRecord) (n : Nutrient) :
  calculateScaledNutrition rec 100 !! field_of n
  = Some (field_value rec (field_of n)).
Proof.
  rewrite scaled_lookup, bool_decide_eq_true_2 by apply field_of_numeric.
  change (100 / 100) with 1. rewrite mul_one. reflexivity.
Qed.

(** X2.  The scaled record has the 33 numeric fields as its keys and no
    other, and it depends on the nutrient record through the cells of
    these fields only: two records that agree on them scale to the same
    record, at every quantity. *)
Theorem scaled_reads_numeric_fields (rec rec' : NutrientRecord) (q : number) :
  (forall k, is_Some (calculateScaledNutrition rec q !! k) <-> k ∈ numericFields)
  /\ ((forall f, f ∈ numericFields -> rec !! f = rec' !! f) ->
      calculateScaledNutrition rec q = calculateScaledNutrition rec' q).
Proof.
  split.
  - intros k. rewrite scaled_lookup. case_bool_decide as Hk.
    + split; [ intros _; exact Hk | eauto ].
    + split; [ intros [? H]; discriminate H | contradiction ].
  - intros H. apply map_eq. intros k. rewrite !scaled_lookup.
    case_bool_decide as Hk; [ | reflexivity ].
    unfold field_value. rewrite (H k Hk). reflexivity.
Qed.

Lemma scaled_reads_numeric_fields_example :
  calculateScaledNutrition Examples.energy200 50
  = calculateScaledNutrition (<["Food Name" := "Rice"]> Examples.energy200) 50.
Proof.
  apply (proj2 (scaled_reads_numeric_fields Examples.energy200
                  (<["Food Name" := "Rice"]> Examples.energy200) 50)).
  intros f Hf. symmetry. apply lookup_insert_ne. intros <-.
  revert Hf. apply (bool_decide_eq_false_1 _). vm_compute. reflexivity.
Defined.

Lemma is_finite_parts (x : float) :
  is_finite x = true -> is_nan x = false /\ is_infinity x = false.
Proof.
  unfold is_finite. rewrite negb_true_iff, orb_false_iff. trivial.
Qed.

(** A non-negative finite value scaled to a non-negative finite quantity
    is non-negative. *)
Lemma scale_nonneg (v q : float) :
  (0 <=? v) = true -> is_finite v = true ->
  (0 <=? q) = true -> is_finite q = true ->
  (0 <=? v * (q / 100)) = true.
Proof.
  intros Hv Fv Hq Fq.
  pose proof (div_100_finite q Fq) as Ff.
  apply is_finite_parts in Fv, Ff. destruct Fv as [Nv Iv], Ff as [Nf If].
  apply mul_nonneg; [ exact Hv | apply div_nonneg; [ exact Hq | reflexivity .. ] | ].
  apply not_true_iff_false. rewrite mul_is_nan. intros [ H | [ H | [ [H _] | [_ H] ] ] ];
    congruence.
Qed.

(** X3.  When every nutrient value of the data is finite and not
    negative, and every quantity of the request is finite and not
    negative, every total is a non-negative Number: none is [NaN] and
    none is negative. *)
Theorem totals_nonneg (ts rid : string) (data : list NutrientRecord)
    (l : list Ingredient) :
  (forall rec n, rec ∈ data ->
     (0 <=? field_value rec (field_of n)) = true
     /\ is_finite (field_value rec (field_of n)) = true) ->
  (forall ing, ing ∈ l ->
     (0 <=? ToNumber (quantityInGrams ing)) = true
     /\ is_finite (ToNumber (quantityInGrams ing)) = true) ->
  forall n, (0 <=? total_of n (totalNutrition (aggregate ts rid data l))) = true.
Proof.
  intros Hdata Hl n. rewrite aggregate_totals. unfold sum_from_zero.
  apply foldl_add_nonneg; [ reflexivity | ].
  apply Forall_fmap, Forall_forall. intros line Hline.
  apply matched_lines_elem in Hline. destruct Hline as [Hing Hrec].
  destruct (Hdata _ n Hrec) as [Hv Fv]. destruct (Hl _ Hing) as [Hq Fq].
  unfold contribution. cbn [compose]. apply scale_nonneg; assumption.
Qed.

Lemma totals_nonneg_example :
  (0 <=? energy (totalNutrition
                   (aggregate "t" "r" Examples.tenths
                      [Examples.line "A001" 100; Examples.line "C003" 50])))
  = true.
Proof.
  apply (totals_nonneg "t" "r" Examples.tenths
           [Examples.line "A001" 100; Examples.line "C003" 50]
           ltac:(intros rec n Hrec;
                 repeat (apply elem_of_cons in Hrec; destruct Hrec as [ -> | Hrec ]);
                 [ destruct n; vm_compute; split; reflexivity ..
                 | apply elem_of_nil in Hrec; contradiction ])
           ltac:(intros ing Hing;
                 repeat (apply elem_of_cons in Hing; destruct Hing as [ -> | Hing ]);
                 [ vm_compute; split; reflexivity ..
                 | apply elem_of_nil in Hing; contradiction ])
           Energy).
Defined.

End Scaling.

(** ** What the recipe handler writes *)

Section Handler.
Local Open Scope string_scope.
Local Open Scope float_scope.

Lemma length_matched_lines (data : list NutrientRecord) (l : list Ingredient) :
  (length (matched_lines data l) <= length l)%nat.
Proof.
  unfold matched_lines. induction l as [ | ing l IH ]; [ reflexivity | ].
  cbn [omap list_omap]. destruct (find_nutrient data (code ing)); cbn; lia.
Qed.

(** X4.  When no ingredient line has a nutrient record (an empty list of
    ingredients included) the handler still appends the recipe row, with
    every total written as zero, appends nothing to the items sheet, and
    answers with totals that are all [0]. *)
Theorem post_recipes_no_match (ts rid : string) (data : list NutrientRecord)
    (body : RequestBody) :
  Forall (unmatched data) (ingredients body) ->
  post_recipes ts rid data body
  = ([ Append "Recipes!A:A" [recipeRow ts rid body totalNutrition_init] ],
     {| success := true;
        recipeId := rid;
        message := "Recipe saved successfully";
        nutrition :=
          {| total := totalNutrition_init;
             perServing :=
               perServing_of totalNutrition_init (recipeYield body) |} |})
  /\ forall n,
       recipeRow ts rid body totalNutrition_init !! recipe_column n
       = Some (VString (if (decimals n =? 3)%nat then "0.000" else "0.00")).
Proof.
  intros H. split.
  - unfold post_recipes. rewrite (aggregate_unmatched ts rid data _ H).
    reflexivity.
  - intros n. destruct n; reflexivity.
Qed.

Lemma post_recipes_no_match_example :
  (post_recipes "t" "r" Examples.tenths
     (Examples.body 2 [Examples.line "Z999" 100])).1
  = [ Append "Recipes!A:A"
        [recipeRow "t" "r" (Examples.body 2 [Examples.line "Z999" 100])
           totalNutrition_init] ].
Proof.
  refine (f_equal fst
            (proj1 (post_recipes_no_match "t" "r" Examples.tenths
                      (Examples.body 2 [Examples.line "Z999" 100]) _))).
  repeat constructor; intros H; vm_compute in H; discriminate H.
Defined.

(** X5.  The handler appends one recipe row of 49 cells and, when at
    least one line has a nutrient record, one batch of item rows: a row of
    39 cells for each such line, in the order of the request, with the
    food code of the line in the fourth cell.  Every appended row starts
    with the timestamp and carries the recipe identifier in its second
    cell, the column by which [GET /api/recipes/:id] selects rows. *)
Theorem post_recipes_appends (ts rid : string) (data : list NutrientRecord)
    (body : RequestBody) :
  let lines := matched_lines data (ingredients body) in
  exists (r : list value) (rows : list (list value)),
    (post_recipes ts rid data body).1
    = Append "Recipes!A:A" [r]
      :: match lines with
         | [] => []
         | _ :: _ => [ Append "RecipeItems!A:A" rows ]
         end
    /\ length r = 49%nat
    /\ r !! 0%nat = Some (VString ts)
    /\ r !! 1%nat = Some (VString rid)
    /\ length rows = length lines
    /\ (length rows <= length (ingredients body))%nat
    /\ Forall (fun row : list value =>
                 length row = 39%nat
                 /\ row !! 0%nat = Some (VString ts)
                 /\ row !! 1%nat = Some (VString rid)) rows
    /\ (fun row : list value => row !! 3%nat) <$> rows
       = (fun line : Ingredient * NutrientRecord =>
            Some (of_text (code line.1))) <$> lines.
Proof.
  intros lines.
  exists (recipeRow ts rid body
            (totalNutrition (aggregate ts rid data (ingredients body)))),
         (row_of ts rid <$> lines).
  split; [ | split; [ | split; [ | split; [ | split; [ | split; [ | split ] ] ] ] ] ].
  - unfold post_recipes. cbn [fst]. rewrite aggregate_rows. fold lines.
    destruct lines; reflexivity.
  - reflexivity.
  - reflexivity.
  - reflexivity.
  - apply length_fmap.
  - rewrite length_fmap. apply length_matched_lines.
  - apply Forall_fmap, Forall_forall. intros line _.
    repeat split; reflexivity.
  - rewrite <- list_fmap_compose. reflexivity.
Qed.

End Handler.

(** ** Reading the nutrient sheet and the unit sheet *)

Section NutrientSheet.
Local Open Scope string_scope.
Local Open Scope float_scope.

(** X6.  The object built for a row has a property for every header,
    also when the row is shorter than the header row: its value is the
    cell of the row in the last column with that header, and the empty
    string when the row has no such cell.  A name that is no header, and
    a header ["__proto__"], is no property of the object. *)
Theorem row_object_cells (headers row : Row) (h : string) :
  (forall i : nat,
     headers !! i = Some h ->
     h <> "__proto__" ->
     (forall j : nat, (i < j)%nat -> headers !! j <> Some h) ->
     row_object headers row !! h = Some (default "" (row !! i)))
  /\ (h ∉ headers \/ h = "__proto__" -> row_object headers row !! h = None).
Proof.
  split.
  - intros i. apply row_object_last.
  - apply row_object_absent.
Qed.

(** The row of the example sheet that stops after the name has an empty
    energy cell. *)
Lemma row_object_cells_example :
  row_object [ "Food code"; "Food Name"; "Energy (Kcal)"; "Protein (g)" ]
             [ "B002"; "Dal" ] !! "Energy (Kcal)"
  = Some "".
Proof.
  refine (proj1 (row_object_cells _ [ "B002"; "Dal" ] "Energy (Kcal)")
            2%nat _ _ _).
  - reflexivity.
  - discriminate.
  - intros [ | [ | [ | [ | [ | j ] ] ] ] ] Hj; try lia; discriminate.
Defined.

Lemma forEach_header_is_Some (row : Row) (h : string) (headers : Row) :
  forall (index : nat) (item : NutrientRecord),
    is_Some (forEach_header headers index row item !! h)
    <-> is_Some (item !! h) \/ (h ∈ headers /\ h <> "__proto__").
Proof.
  induction headers as [ | a rest IH ]; intros index item; cbn [forEach_header].
  - rewrite elem_of_nil. tauto.
  - rewrite IH, assign_lookup, elem_of_cons. case_bool_decide as Hk.
    + destruct Hk as [-> Ha]. split; [ intros _; right; tauto | eauto ].
    + split; [ tauto | ]. intros [ H | [ [ -> | H ] Hp ] ]; tauto.
Qed.

(** X7.  [getNutrientData] and [GET /api/recipes] build their objects
    in the same way: one object for each row after the header row, and
    every object with the same property names, the headers other than
    ["__proto__"], however short its row is. *)
Theorem sheet_objects_keys (values : Values) :
  get_recipes values = getNutrientData values
  /\ forall (headers : Row) (data : list Row),
       values = Some (headers :: data) ->
       length (get_recipes values) = length data
       /\ forall (object : gmap string string) (h : string),
            object ∈ get_recipes values ->
            is_Some (object !! h) <-> h ∈ headers /\ h <> "__proto__".
Proof.
  split; [ reflexivity | ]. intros headers data ->.
  change (get_recipes (Some (headers :: data))) with (row_object headers <$> data).
  split; [ apply length_fmap | ]. intros object h Hin.
  apply list_elem_of_fmap in Hin. destruct Hin as (row & -> & _).
  unfold row_object. rewrite forEach_header_is_Some, lookup_empty.
  split; [ intros [ [? H] | H ]; [ discriminate H | exact H ] | tauto ].
Qed.

(** The second object of the example sheet comes from a row of two
    cells and has the four headers as its property names. *)
Lemma sheet_objects_keys_example :
  is_Some (row_object [ "Food code"; "Food Name"; "Energy (Kcal)"; "Protein (g)" ]
                      [ "B002"; "Dal" ] !! "Protein (g)")
  <-> "Protein (g)" ∈ [ "Food code"; "Food Name"; "Energy (Kcal)"; "Protein (g)" ]
      /\ "Protein (g)" <> "__proto__".
Proof.
  refine (proj2 (proj2 (sheet_objects_keys (Some Examples.nutrient_sheet))
                   _ _ eq_refl) _ "Protein (g)" _).
  apply list_elem_of_further, list_elem_of_here.
Defined.

(** X8.  Looking a food code up in the data read from the sheet finds
    the first row after the header row whose cell in the food code column
    is that code; the header row is never found, and a blank code finds
    the first row whose cell is empty or missing.  A line without a code
    finds nothing. *)
Theorem find_nutrient_rows (headers : Row) (data : list Row) (i : nat)
    (c : string) :
  headers !! i = Some "Food code" ->
  (forall j : nat, (i < j)%nat -> headers !! j <> Some "Food code") ->
  find_nutrient (getNutrientData (Some (headers :: data))) (Some c)
  = row_object headers
    <$> List.find (fun row : Row => String.eqb (default "" (row !! i)) c) data
  /\ find_nutrient (getNutrientData (Some (headers :: data))) None = None.
Proof.
  intros Hi Hlast. rewrite getNutrientData_rows. unfold find_nutrient.
  rewrite !find_fmap. split.
  - f_equal. apply find_ext_in. intros row _.
    rewrite (row_object_last headers row "Food code" i Hi ltac:(discriminate)
               Hlast).
    reflexivity.
  - replace (List.find _ data) with (@None Row); [ reflexivity | ].
    symmetry. apply find_none_forall, Forall_forall. intros row _.
    rewrite (row_object_last headers row "Food code" i Hi ltac:(discriminate)
               Hlast).
    reflexivity.
Qed.

Lemma find_nutrient_rows_example :
  find_nutrient (getNutrientData (Some Examples.nutrient_sheet)) (Some "A001")
  = Some (row_object [ "Food code"; "Food Name"; "Energy (Kcal)"; "Protein (g)" ]
                     [ "A001"; "Rice"; "350"; "7" ]).
Proof.
  refine (proj1 (find_nutrient_rows _ _ 0%nat "A001" _ _)).
  - reflexivity.
  - intros [ | [ | [ | [ | j ] ] ] ] Hj; try lia; discriminate.
Defined.

(** X9.  When the nutrient sheet is empty, or its header row has no
    column named [Food code], no food code finds a record, and a request
    whose lines all have a code makes the handler append only the recipe
    row, with the totals at zero.  A line without a code is another
    matter: its missing code equals the missing property of the first
    record, and that record is used for it. *)
Theorem post_recipes_no_food_code (ts rid : string) (values : Values)
    (body : RequestBody) :
  (forall headers data,
     values = Some (headers :: data) -> "Food code" ∉ headers) ->
  (forall c : string, find_nutrient (getNutrientData values) (Some c) = None)
  /\ find_nutrient (getNutrientData values) None = head (getNutrientData values)
  /\ (Forall (fun ing : Ingredient => is_Some (code ing)) (ingredients body) ->
      (post_recipes ts rid (getNutrientData values) body).1
      = [ Append "Recipes!A:A" [recipeRow ts rid body totalNutrition_init] ]
      /\ total (nutrition (post_recipes ts rid (getNutrientData values) body).2)
         = totalNutrition_init).
Proof.
  intros H.
  assert (Hnone : Forall (fun n : NutrientRecord => n !! "Food code" = None)
                         (getNutrientData values)).
  { destruct values as [ [ | headers data ] | ]; try constructor.
    rewrite getNutrientData_rows. apply Forall_fmap, Forall_forall.
    intros row _. apply row_object_absent. left. exact (H headers data eq_refl). }
  split; [ | split ].
  - intros c.
    apply (find_nutrient_unmatched _ {| lineNo := None; code := Some c;
                                        name := None; quantityInGrams := None |}).
    apply unmatched_no_code; [ exact Hnone | eexists; reflexivity ].
  - apply find_nutrient_undefined, Hnone.
  - intros Hcodes.
    assert (Hall : Forall (unmatched (getNutrientData values)) (ingredients body)).
    { eapply Forall_impl; [ exact Hcodes | ]. intros ing Hing.
      apply unmatched_no_code; assumption. }
    unfold post_recipes. rewrite (aggregate_unmatched ts rid _ _ Hall).
    split; reflexivity.
Qed.

(** A sheet whose code column is headed [Code]: the code "A001" finds
    nothing, and a line without a code gets the first record, so that 100 g
    of it give an energy of 350. *)
Lemma post_recipes_no_food_code_example :
  let values := Some [ [ "Code"; "Energy (Kcal)" ]; [ "A001"; "350" ] ] in
  find_nutrient (getNutrientData values) (Some "A001") = None
  /\ find_nutrient (getNutrientData values) None
     = Some (row_object [ "Code"; "Energy (Kcal)" ] [ "A001"; "350" ])
  /\ energy (totalNutrition
               (aggregate "t" "r" (getNutrientData values)
                  [Examples.line_without_code 100]))
     = 350.
Proof.
  intros values.
  assert (H : forall headers data,
             values = Some (headers :: data) -> "Food code" ∉ headers).
  { intros headers data [= <- <-]. apply (bool_decide_eq_false_1 _).
    vm_compute. reflexivity. }
  destruct (post_recipes_no_food_code "t" "r" values (Examples.body 1 []) H)
    as (H1 & H2 & _).
  split; [ exact (H1 "A001") | ].
  split; [ exact H2 | vm_compute; reflexivity ].
Defined.

(** X10.  A nutrient cell that is empty, or missing because the row stops
    before its column, counts as zero: the scaled field is the product of
    [0] and the factor. *)
Theorem blank_cell_scales_zero (headers row : Row) (n : Nutrient) (i : nat)
    (q : number) :
  headers !! i = Some (field_of n) ->
  (forall j : nat, (i < j)%nat -> headers !! j <> Some (field_of n)) ->
  default "" (row !! i) = "" ->
  calculateScaledNutrition (row_object headers row) q !! field_of n
  = Some (0 * (q / 100)).
Proof.
  intros Hi Hlast Hblank.
  rewrite scaled_lookup, bool_decide_eq_true_2 by apply field_of_numeric.
  unfold field_value.
  rewrite (row_object_last headers row (field_of n) i Hi
             ltac:(destruct n; discriminate) Hlast).
  rewrite Hblank. reflexivity.
Qed.

Lemma blank_cell_scales_zero_example :
  calculateScaledNutrition
    (row_object [ "Food code"; "Food Name"; "Energy (Kcal)"; "Protein (g)" ]
                [ "B002"; "Dal" ]) 250 !! "Protein (g)"
  = Some (0 * (250 / 100)).
Proof.
  refine (blank_cell_scales_zero _ [ "B002"; "Dal" ] Protein 3%nat 250 _ _ _).
  - reflexivity.
  - intros [ | [ | [ | [ | j ] ] ] ] Hj; try lia; discriminate.
  - reflexivity.
Defined.

End NutrientSheet.

Section UnitSheet.
Local Open Scope string_scope.
Local Open Scope float_scope.

Lemma or_else_truthy (x y : number) :
  ToBoolean y = true -> ToBoolean (or_else x y) = true.
Proof. intros Hy. unfold or_else. destruct (ToBoolean x) eqn:E; assumption. Qed.

Lemma ToBoolean_spec (x : number) :
  ToBoolean x = true <-> is_nan x = false /\ is_zero x = false.
Proof. unfold ToBoolean. rewrite negb_true_iff, orb_false_iff. reflexivity. Qed.

(** Where an entry of the map built from [l] on top of [m0] comes from. *)
Lemma foldl_add_unit_lookup (l : list Row) :
  forall (m0 : gmap string UnitConversion) (key : string) (u : UnitConversion),
    foldl add_unit m0 l !! key = Some u ->
    m0 !! key = Some u
    \/ exists row, row ∈ l
         /\ truthy (row !! 0%nat) = true /\ truthy (row !! 1%nat) = true
         /\ key = ToString (row !! 0%nat) ++ "_" ++ ToString (row !! 1%nat)
         /\ u = {| gPerUnit := or_else (parseFloat (ToString (row !! 2%nat))) 1;
                   density := or_else (parseFloat (ToString (row !! 3%nat))) 1 |}.
Proof.
  induction l as [ | row l IH ]; intros m0 key u H; [ left; exact H | ].
  cbn [foldl] in H. apply IH in H. destruct H as [ H | (row' & Hin & H) ].
  - unfold add_unit in H.
    destruct (truthy (row !! 0%nat)) eqn:E0; [ | left; exact H ].
    destruct (truthy (row !! 1%nat)) eqn:E1; [ | left; exact H ].
    cbn [andb] in H. rewrite assign_lookup in H.
    case_bool_decide as Hk; [ | left; exact H ].
    right. exists row. destruct Hk as [-> _]. injection H as <-.
    split; [ apply list_elem_of_here | ]. repeat split; assumption.
  - right. exists row'. split; [ apply list_elem_of_further, Hin | exact H ].
Qed.

(** An entry that no later row overwrites. *)
Lemma foldl_add_unit_keep (key : string) (l : list Row) :
  Forall (fun row : Row =>
            ToString (row !! 0%nat) ++ "_" ++ ToString (row !! 1%nat) <> key) l ->
  forall m0 : gmap string UnitConversion,
    foldl add_unit m0 l !! key = m0 !! key.
Proof.
  induction 1 as [ | row l Hrow Hl IH ]; intros m0; [ reflexivity | ].
  cbn [foldl]. rewrite IH. unfold add_unit.
  destruct (truthy (row !! 0%nat) && truthy (row !! 1%nat)); [ | reflexivity ].
  rewrite assign_lookup. rewrite bool_decide_eq_false_2; [ reflexivity | ].
  intros [-> _]. contradiction Hrow; reflexivity.
Qed.

(** X11.  Every entry of the unit map comes from a row after the header
    row whose first two cells are not empty, under the key that joins
    the two cells with an underscore.  Its weight per unit and its density
    are the parsed cells, with [1] in the place of a cell that is
    missing, not numeric, or zero: neither is ever [NaN] or zero. *)
Theorem getUnitConversions_entries (values : Values) (key : string)
    (u : UnitConversion) :
  getUnitConversions values !! key = Some u ->
  (exists rows row,
     values = Some rows /\ row ∈ drop 1 rows
     /\ truthy (row !! 0%nat) = true /\ truthy (row !! 1%nat) = true
     /\ key = ToString (row !! 0%nat) ++ "_" ++ ToString (row !! 1%nat)
     /\ gPerUnit u = or_else (parseFloat (ToString (row !! 2%nat))) 1
     /\ density u = or_else (parseFloat (ToString (row !! 3%nat))) 1)
  /\ is_nan (gPerUnit u) = false /\ is_zero (gPerUnit u) = false
  /\ is_nan (density u) = false /\ is_zero (density u) = false.
Proof.
  intros H. destruct values as [ rows | ]; [ | discriminate H ].
  unfold getUnitConversions in H.
  destruct (length rows =? 0)%nat; [ discriminate H | ].
  apply foldl_add_unit_lookup in H.
  destruct H as [ H | (row & Hin & H0 & H1 & Hkey & ->) ]; [ discriminate H | ].
  cbn [gPerUnit density]. split.
  - exists rows, row. repeat split; assumption.
  - pose proof (or_else_truthy (parseFloat (ToString (row !! 2%nat))) 1 eq_refl)
      as Hg.
    pose proof (or_else_truthy (parseFloat (ToString (row !! 3%nat))) 1 eq_refl)
      as Hd.
    apply ToBoolean_spec in Hg, Hd. tauto.
Qed.

(** In the example sheet the row of [A001] and [cup] has a text and a
    zero in its number cells: both numbers of its entry are [1]. *)
Lemma getUnitConversions_entries_example :
  getUnitConversions (Some Examples.unit_sheet) !! "A001_cup"
  = Some {| gPerUnit := 1; density := 1 |}
  /\ is_zero (gPerUnit {| gPerUnit := 1; density := 1 |}) = false.
Proof.
  split; [ reflexivity | ].
  apply (getUnitConversions_entries (Some Examples.unit_sheet) "A001_cup"
           {| gPerUnit := 1; density := 1 |} eq_refl).
Defined.

(** X12.  A row of the unit sheet overwrites the entries of the rows
    before it that have the same key, also when their cells differ: the
    entry under a key is that of the last row with the key. *)
Theorem getUnitConversions_last_wins (header row : Row)
    (before after : list Row) :
  let key := ToString (row !! 0%nat) ++ "_" ++ ToString (row !! 1%nat) in
  truthy (row !! 0%nat) = true -> truthy (row !! 1%nat) = true ->
  key <> "__proto__" ->
  Forall (fun row' : Row =>
            ToString (row' !! 0%nat) ++ "_" ++ ToString (row' !! 1%nat) <> key)
         after ->
  getUnitConversions (Some (header :: before ++ row :: after)) !! key
  = Some {| gPerUnit := or_else (parseFloat (ToString (row !! 2%nat))) 1;
            density := or_else (parseFloat (ToString (row !! 3%nat))) 1 |}.
Proof.
  intros key H0 H1 Hkey Hafter. unfold getUnitConversions.
  change (foldl add_unit ∅ (before ++ row :: after) !! key = Some
    {| gPerUnit := or_else (parseFloat (ToString (row !! 2%nat))) 1;
       density := or_else (parseFloat (ToString (row !! 3%nat))) 1 |}).
  rewrite foldl_app. cbn [foldl].
  rewrite (foldl_add_unit_keep key after Hafter).
  unfold add_unit at 1. rewrite H0, H1. cbn [andb]. rewrite assign_lookup.
  rewrite bool_decide_eq_true_2 by (split; [ reflexivity | exact Hkey ]).
  reflexivity.
Qed.

(** Two rows with different cells and the same key. *)
Lemma getUnitConversions_last_wins_example :
  getUnitConversions
    (Some [ [ "Food code"; "Unit" ]; [ "A_1"; "cup"; "200" ];
            [ "A"; "1_cup"; "15"; "2" ] ]) !! "A_1_cup"
  = Some {| gPerUnit := 15; density := 2 |}.
Proof.
  refine (getUnitConversions_last_wins [ "Food code"; "Unit" ]
            [ "A"; "1_cup"; "15"; "2" ] [ [ "A_1"; "cup"; "200" ] ] [] _ _ _ _).
  - reflexivity.
  - reflexivity.
  - discriminate.
  - constructor.
Defined.

End UnitSheet.

(** ** The read routes *)

Section ReadRoutes.
Local Open Scope string_scope.
Local Open Scope float_scope.

Lemma parse_or_zero_scaled (item : NutrientRecord) (n : Nutrient) :
  calculateScaledNutrition item 100 !! field_of n
  = Some (or_else (parseFloat (ToString (item !! field_of n))) 0)
  /\ is_nan (or_else (parseFloat (ToString (item !! field_of n))) 0) = false.
Proof.
  split; [ | apply or_else_not_nan ].
  rewrite scaled_lookup, bool_decide_eq_true_2 by apply field_of_numeric.
  change (100 / 100) with 1. rewrite mul_one. reflexivity.
Qed.

(** X13.  [GET /api/ingredients] lists one entry for each row of the
    nutrient sheet after the header row, in the order of the sheet.  The
    five numbers of an entry are never [NaN], and they are the values that
    the scaler gives for 100 g of the food. *)
Theorem get_ingredients_entries (values : Values) :
  length (get_ingredients values) = length (getNutrientData values)
  /\ forall (i : nat) (e : Summary.t),
       get_ingredients values !! i = Some e ->
       exists item : NutrientRecord,
         getNutrientData values !! i = Some item
         /\ Summary.code e = item !! "Food code"
         /\ Summary.name e = item !! "Food Name"
         /\ Forall (fun p : number * string =>
                      is_nan p.1 = false
                      /\ calculateScaledNutrition item 100 !! p.2 = Some p.1)
              [ (Summary.protein e, "Protein (g)");
                (Summary.fat e, "Fat (g)");
                (Summary.carbs e, "Carbohydrate (g)");
                (Summary.fiber e, "Total fibre (g)");
                (Summary.energy e, "Energy (Kcal)") ].
Proof.
  unfold get_ingredients. cbv zeta. split; [ apply length_fmap | ].
  intros i e He. rewrite list_lookup_fmap in He.
  destruct (getNutrientData values !! i) as [ item | ]; [ | discriminate He ].
  injection He as <-. exists item.
  split; [ reflexivity | split; [ reflexivity | split; [ reflexivity | ] ] ].
  repeat constructor; cbn [fst snd summary_of Summary.protein Summary.fat
                           Summary.carbs Summary.fiber Summary.energy].
  - apply (parse_or_zero_scaled item Protein).
  - apply (parse_or_zero_scaled item Protein).
  - apply (parse_or_zero_scaled item Fat).
  - apply (parse_or_zero_scaled item Fat).
  - apply (parse_or_zero_scaled item Carbs).
  - apply (parse_or_zero_scaled item Carbs).
  - apply (parse_or_zero_scaled item Fiber).
  - apply (parse_or_zero_scaled item Fiber).
  - apply (parse_or_zero_scaled item Energy).
  - apply (parse_or_zero_scaled item Energy).
Qed.

(** The first entry for the example sheet: the food code and name of the
    first row after the headers, with its protein and energy. *)
Lemma get_ingredients_entries_example :
  exists item : NutrientRecord,
    getNutrientData (Some Examples.nutrient_sheet) !! 0%nat = Some item
    /\ Some "A001" = item !! "Food code"
    /\ Some "Rice" = item !! "Food Name"
    /\ Forall (fun p : number * string =>
                 is_nan p.1 = false
                 /\ calculateScaledNutrition item 100 !! p.2 = Some p.1)
         [ (7, "Protein (g)"); (0, "Fat (g)"); (0, "Carbohydrate (g)");
           (0, "Total fibre (g)"); (350, "Energy (Kcal)") ].
Proof.
  exact (proj2 (get_ingredients_entries (Some Examples.nutrient_sheet)) 0%nat
           {| Summary.code := Some "A001"; Summary.name := Some "Rice";
              Summary.protein := 7; Summary.fat := 0; Summary.carbs := 0;
              Summary.fiber := 0; Summary.energy := 350 |} eq_refl).
Defined.

Lemma in_column_B_spec (recipeId : string) (row : Row) :
  in_column_B recipeId row = true <-> row !! 1%nat = Some recipeId.
Proof. apply strict_equals_spec. Qed.

Lemma in_column_B_false (recipeId : string) (row : Row) :
  in_column_B recipeId row = false <-> row !! 1%nat <> Some recipeId.
Proof. rewrite <- in_column_B_spec. symmetry. apply not_true_iff_false. Qed.

Lemma find_first {A : Type} (f : A -> bool) (before after : list A) (a : A) :
  Forall (fun b => f b = false) before -> f a = true ->
  List.find f (before ++ a :: after) = Some a.
Proof.
  induction 1 as [ | b before Hb _ IH ]; intros Ha; cbn.
  - rewrite Ha. reflexivity.
  - rewrite Hb. apply IH, Ha.
Qed.

(** The reply when the first row with the identifier is known. *)
Lemma get_recipe_by_id_first (headers row itemHeaders : Row)
    (before after itemRows : list Row) (recipeId : string) :
  (before ++ row :: after)%list !! 0%nat = Some headers ->
  Forall (fun r : Row => r !! 1%nat <> Some recipeId) before ->
  row !! 1%nat = Some recipeId ->
  get_recipe_by_id (Some (before ++ row :: after)%list)
                   (Some (itemHeaders :: itemRows)) recipeId
  = Found (row_object headers row)
          (row_object itemHeaders
           <$> List.filter (in_column_B recipeId) itemRows).
Proof.
  intros Hh Hbefore Hrow. unfold get_recipe_by_id.
  rewrite (find_first (in_column_B recipeId) before after row).
  - rewrite Hh. reflexivity.
  - eapply Forall_impl; [ exact Hbefore | ]. intros r. apply in_column_B_false.
  - apply in_column_B_spec, Hrow.
Qed.

(** X14.  [GET /api/recipes/:id] answers 404 exactly when no row of the
    recipe sheet has the identifier in its second cell, whatever the
    items sheet holds; when the sheet has no values at all it answers
    500. *)
Theorem get_recipe_by_id_not_found (itemValues : Values) (recipeId : string) :
  get_recipe_by_id None itemValues recipeId = Failed
  /\ forall rows : list Row,
       get_recipe_by_id (Some rows) itemValues recipeId = NotFound
       <-> Forall (fun row : Row => row !! 1%nat <> Some recipeId) rows.
Proof.
  split; [ reflexivity | ]. intros rows. unfold get_recipe_by_id.
  destruct (List.find (in_column_B recipeId) rows) as [ row | ] eqn:E.
  - split.
    + intros H. destruct (rows !! 0%nat); [ | discriminate H ].
      destruct itemValues; discriminate H.
    + intros H. apply find_some in E. destruct E as [Hin Hrow].
      apply list_elem_of_In in Hin. rewrite Forall_forall in H.
      apply in_column_B_spec in Hrow. contradiction (H row Hin Hrow).
  - split; [ intros _ | reflexivity ].
    apply find_none_forall in E.
    eapply Forall_impl; [ exact E | ]. intros r. apply in_column_B_false.
Qed.

(** No row of the example sheet carries [r3]. *)
Lemma get_recipe_by_id_not_found_example :
  get_recipe_by_id (Some Examples.recipe_sheet) None "r3" = NotFound.
Proof.
  apply (proj2 (get_recipe_by_id_not_found None "r3") Examples.recipe_sheet).
  repeat constructor; discriminate.
Defined.

(** X15.  When rows of the recipe sheet have the identifier in their
    second cell, the recipe of the reply is built from the first of them,
    with the first row of the sheet as headers.  The items are built from
    the rows of the items sheet, its header row left out, that have the
    identifier in their second cell, in the order of the sheet. *)
Theorem get_recipe_by_id_found (headers row itemHeaders : Row)
    (before after itemRows : list Row) (recipeId : string) :
  (before ++ row :: after)%list !! 0%nat = Some headers ->
  Forall (fun r : Row => r !! 1%nat <> Some recipeId) before ->
  row !! 1%nat = Some recipeId ->
  exists items : list (gmap string string),
    get_recipe_by_id (Some (before ++ row :: after)%list)
                     (Some (itemHeaders :: itemRows)) recipeId
    = Found (row_object headers row) items
    /\ items
       = row_object itemHeaders
         <$> List.filter (fun r : Row => bool_decide (r !! 1%nat = Some recipeId))
                         itemRows
    /\ (length items <= length itemRows)%nat.
Proof.
  intros Hh Hbefore Hrow.
  exists (row_object itemHeaders <$> List.filter (in_column_B recipeId) itemRows).
  split; [ apply get_recipe_by_id_first; assumption | ].
  split.
  - f_equal. apply filter_ext. intros r.
    destruct (in_column_B recipeId r) eqn:E; symmetry.
    + apply bool_decide_eq_true_2, in_column_B_spec, E.
    + apply bool_decide_eq_false_2, in_column_B_false, E.
  - rewrite length_fmap. apply filter_length_le.
Qed.

(** In the example sheets two recipe rows carry [r1]: the first one is
    returned, with the two items of [r1]. *)
Lemma get_recipe_by_id_found_example :
  exists items : list (gmap string string),
    get_recipe_by_id (Some Examples.recipe_sheet) (Some Examples.item_sheet) "r1"
    = Found (row_object [ "Timestamp"; "RecipeID"; "Recipe Name" ]
                        [ "t1"; "r1"; "Khichdi" ]) items
    /\ items
       = row_object [ "Timestamp"; "RecipeID"; "Line" ]
         <$> List.filter (fun r : Row => bool_decide (r !! 1%nat = Some "r1"))
               [ [ "t1"; "r1"; "1" ]; [ "t2"; "r2"; "1" ]; [ "t1"; "r1"; "2" ] ]
    /\ (length items <= 3)%nat.
Proof.
  refine (get_recipe_by_id_found
            [ "Timestamp"; "RecipeID"; "Recipe Name" ] [ "t1"; "r1"; "Khichdi" ]
            [ "Timestamp"; "RecipeID"; "Line" ]
            [ [ "Timestamp"; "RecipeID"; "Recipe Name" ] ]
            [ [ "t2"; "r2"; "Dal" ]; [ "t3"; "r1"; "Khichdi, again" ] ]
            [ [ "t1"; "r1"; "1" ]; [ "t2"; "r2"; "1" ]; [ "t1"; "r1"; "2" ] ]
            "r1" _ _ _).
  - reflexivity.
  - repeat constructor. discriminate.
  - reflexivity.
Defined.

(** X16.  The header row of the recipe sheet is searched like every
    other row: a request for the text that heads the second column is
    answered with the header row as the recipe, each header as its own
    value. *)
Theorem get_recipe_by_id_header (headers itemHeaders : Row)
    (data itemRows : list Row) (recipeId : string) :
  headers !! 1%nat = Some recipeId ->
  exists items : list (gmap string string),
    get_recipe_by_id (Some (headers :: data)) (Some (itemHeaders :: itemRows))
                     recipeId
    = Found (row_object headers headers) items.
Proof.
  intros H. eexists.
  apply (get_recipe_by_id_first headers headers itemHeaders [] data itemRows);
    [ reflexivity | constructor | exact H ].
Qed.

Lemma get_recipe_by_id_header_example :
  exists items : list (gmap string string),
    get_recipe_by_id (Some Examples.recipe_sheet) (Some Examples.item_sheet)
                     "RecipeID"
    = Found (row_object [ "Timestamp"; "RecipeID"; "Recipe Name" ]
                        [ "Timestamp"; "RecipeID"; "Recipe Name" ]) items.
Proof.
  exact (get_recipe_by_id_header [ "Timestamp"; "RecipeID"; "Recipe Name" ]
           [ "Timestamp"; "RecipeID"; "Line" ] _ _ "RecipeID" eq_refl).
Defined.

End ReadRoutes.

(** ** The route table *)

Section Routing.
Local Open Scope string_scope.

Lemma lower_not_slash (c d : ascii) :
  lower c <> "/"%char -> Ascii.eqb (lower c) (lower d) = true -> d <> "/"%char.
Proof.
  intros Hc H ->. apply Ascii.eqb_eq in H. apply Hc. rewrite H. reflexivity.
Qed.

Lemma strip_param_cons (d : ascii) (path : string) :
  d <> "/"%char -> strip_param (String d path) = (false, snd (strip_param path)).
Proof.
  intros Hd. cbn [strip_param].
  destruct (Ascii.eqb_spec d "/"); [ contradiction | reflexivity ].
Qed.

(** A path that ends in [ping] after its last slash also fits a
    parameter there. *)
Lemma strip_literal_ping (path rest : string) :
  strip_literal "ping" path = Some rest ->
  String.eqb rest "" || String.eqb rest "/" = true ->
  strip_param path = (false, rest).
Proof.
  intros H Hrest.
  destruct path as [ | d1 [ | d2 [ | d3 [ | d4 path ] ] ] ]; cbn [strip_literal] in H;
    repeat match type of H with
           | (if ?b then _ else _) = _ => destruct b eqn:?; try discriminate H
           | None = Some _ => discriminate H
           end.
  injection H as ->.
  rewrite !strip_param_cons
    by (eapply lower_not_slash; [ | eassumption ]; discriminate).
  apply orb_true_iff in Hrest.
  destruct Hrest as [ H | H ]; apply String.eqb_eq in H; subst; reflexivity.
Qed.

Lemma ping_fits_id (path : string) :
  path_matches [ Literal "api"; Literal "recipes"; Literal "ping" ] path = true ->
  path_matches [ Literal "api"; Literal "recipes"; Param "id" ] path = true.
Proof.
  cbn [path_matches].
  destruct path as [ | c1 p1 ]; [ discriminate | ].
  destruct (Ascii.eqb c1 "/"); [ | discriminate ]. cbn [andb].
  destruct (strip_literal "api" p1) as [ [ | c2 p2 ] | ]; try discriminate.
  destruct (Ascii.eqb c2 "/"); [ | discriminate ]. cbn [andb].
  destruct (strip_literal "recipes" p2) as [ [ | c3 p3 ] | ]; try discriminate.
  destruct (Ascii.eqb c3 "/"); [ | discriminate ]. cbn [andb].
  destruct (strip_literal "ping" p3) as [ rest | ] eqn:E; [ | discriminate ].
  intros Hrest. rewrite (strip_literal_ping p3 rest E Hrest). exact Hrest.
Qed.

Lemma ping_not_earlier (path : string) :
  path_matches [ Literal "api"; Literal "recipes"; Literal "ping" ] path = true ->
  path_matches [ Literal "api"; Literal "ingredients" ] path = false
  /\ path_matches [ Literal "api"; Literal "recipes" ] path = false.
Proof.
  cbn [path_matches].
  destruct path as [ | c1 p1 ]; [ discriminate | ].
  destruct (Ascii.eqb c1 "/"); [ | discriminate ]. cbn [andb].
  destruct (strip_literal "api" p1) as [ [ | c2 p2 ] | ]; try discriminate.
  destruct (Ascii.eqb c2 "/"); [ | discriminate ]. cbn [andb].
  destruct p2 as [ | d p2 ]; [ discriminate | ].
  change (strip_literal "recipes" (String d p2))
    with (if Ascii.eqb (lower "r") (lower d)
          then strip_literal "ecipes" p2 else None).
  change (strip_literal "ingredients" (String d p2))
    with (if Ascii.eqb (lower "i") (lower d)
          then strip_literal "ngredients" p2 else None).
  destruct (Ascii.eqb (lower "r") (lower d)) eqn:Er; [ | discriminate ].
  apply Ascii.eqb_eq in Er. rewrite <- Er.
  change (Ascii.eqb (lower "i") (lower "r")) with false. cbv iota.
  destruct (strip_literal "ecipes" p2) as [ [ | c3 p3 ] | ]; try discriminate.
  destruct (Ascii.eqb c3 "/") eqn:E3; [ | discriminate ]. cbn [andb].
  destruct p3 as [ | d3 p3 ]; [ discriminate | ]. intros _.
  split; [ reflexivity | ]. cbn [path_matches].
  apply orb_false_iff. split; [ reflexivity | ].
  apply String.eqb_neq. discriminate.
Qed.

(** X17.  The route [/api/recipes/ping] is registered after
    [/api/recipes/:id], whose pattern fits every path that the ping
    pattern fits: no request reaches the ping handler, and a [GET] of
    such a path is answered by the recipe handler with [ping] as the
    identifier. *)
Theorem ping_unreachable (method : Method) (path : string) :
  dispatch method path <> Some HPing
  /\ (path_matches [ Literal "api"; Literal "recipes"; Literal "ping" ] path
      = true ->
      dispatch GET path = Some HRecipeById).
Proof.
  assert (Hid : forall m,
             method_matches GET m
             && path_matches [ Literal "api"; Literal "recipes"; Literal "ping" ]
                             path = true ->
             method_matches GET m
             && path_matches [ Literal "api"; Literal "recipes"; Param "id" ]
                             path = true).
  { intros m H. apply andb_true_iff in H. destruct H as [-> H].
    apply ping_fits_id, H. }
  split.
  - unfold dispatch, routes. cbn [List.find fst snd].
    repeat match goal with
           | |- snd <$> (if ?b then _ else _) <> _ =>
               destruct b eqn:?; [ discriminate | ]
           end.
    match goal with
    | |- snd <$> (if ?b then _ else _) <> _ =>
        destruct b eqn:Eping; [ | discriminate ]
    end.
    apply Hid in Eping. congruence.
  - intros H. unfold dispatch, routes.
    cbn [List.find fst snd method_matches andb].
    destruct (ping_not_earlier path H) as [-> ->].
    rewrite (ping_fits_id path H). reflexivity.
Qed.

Lemma ping_unreachable_example :
  dispatch GET "/api/recipes/ping" = Some HRecipeById.
Proof.
  apply (proj2 (ping_unreachable GET "/api/recipes/ping")). reflexivity.
Defined.

End Routing.

(** ** The other nutrient formulas *)

Section Formulas.
Local Open Scope float_scope.

(** X18.  For retinol and carotene contents that are not negative, the
    vitamin A value is a Number that is not negative and not below the
    retinol content: the carotenes only add to it. *)
Theorem calculateVitaminA_lower_bound (retinol betaCarotene alphaCarotene : number) :
  (0 <=? retinol) = true ->
  (0 <=? betaCarotene) = true ->
  (0 <=? alphaCarotene) = true ->
  (retinol <=? calculateVitaminA retinol betaCarotene alphaCarotene) = true
  /\ (0 <=? calculateVitaminA retinol betaCarotene alphaCarotene) = true.
Proof.
  intros Hr Hb Ha. unfold calculateVitaminA.
  pose proof (div_nonneg betaCarotene 12 Hb eq_refl eq_refl) as Hb'.
  pose proof (div_nonneg alphaCarotene 24 Ha eq_refl eq_refl) as Ha'.
  destruct (add_nonneg_ge retinol (betaCarotene / 12) Hr Hb') as [H1 H2].
  destruct (add_nonneg_ge _ (alphaCarotene / 24) H2 Ha') as [H3 H4].
  split; [ | exact H4 ].
  exact (leb_trans_nonneg _ _ _ Hr H1 H3).
Qed.

(** 12 of retinol with 24 and 48 of the carotenes. *)
Lemma calculateVitaminA_lower_bound_example :
  (12 <=? calculateVitaminA 12 24 48) = true
  /\ (0 <=? calculateVitaminA 12 24 48) = true.
Proof.
  apply (calculateVitaminA_lower_bound 12 24 48); reflexivity.
Defined.

(** X19.  For fatty acid contents that are not negative, the omega-3
    and omega-6 values of a non-vegetarian food are not below those that
    the vegetarian formulas give for the same first fatty acid; the last
    argument may be left out, and then counts as [0]. *)
Theorem omega_nonveg_lower_bound (a b c : number) (d : option number) :
  (0 <=? a) = true -> (0 <=? b) = true -> (0 <=? c) = true ->
  (0 <=? or_default d) = true ->
  (calculateOmega3Veg a <=? calculateOmega3NonVeg a b c d) = true
  /\ (calculateOmega6Veg a <=? calculateOmega6NonVeg a b d) = true.
Proof.
  intros Ha Hb Hc Hd.
  unfold calculateOmega3Veg, calculateOmega3NonVeg, calculateOmega6Veg,
    calculateOmega6NonVeg.
  destruct (add_nonneg_ge a b Ha Hb) as [H1 H2].
  destruct (add_nonneg_ge _ c H2 Hc) as [H3 H4].
  destruct (add_nonneg_ge _ (or_default d) H4 Hd) as [H5 _].
  destruct (add_nonneg_ge _ (or_default d) H2 Hd) as [H6 _].
  split.
  - apply (leb_trans_nonneg _ _ _ Ha H1).
    exact (leb_trans_nonneg _ _ _ H2 H3 H5).
  - exact (leb_trans_nonneg _ _ _ Ha H1 H6).
Qed.

Lemma omega_nonveg_lower_bound_example :
  (calculateOmega3Veg 1 <=? calculateOmega3NonVeg 1 2 3 None) = true
  /\ (calculateOmega6Veg 1 <=? calculateOmega6NonVeg 1 2 None) = true.
Proof.
  apply (omega_nonveg_lower_bound 1 2 3 None); reflexivity.
Defined.

End Formulas.

(** ** The recipe handler and the spreadsheet service *)

Section Service.
Local Open Scope string_scope.

Lemma perform_ext (service service' : Service) (calls : list SheetsCall) :
  (forall range, append_succeeds service range = append_succeeds service' range) ->
  perform service calls = perform service' calls.
Proof.
  intros H. induction calls as [ | [range values] rest IH ]; [ reflexivity | ].
  cbn [perform]. rewrite H, IH. reflexivity.
Qed.

(** X20.  Saving a recipe is not atomic.  When the append of the recipe
    row succeeds and the append of the item rows throws, the handler
    answers 500 and the recipe row stays appended, without any of its
    items. *)
Theorem post_recipes_not_atomic (service : Service) (ts rid : string)
    (body : RequestBody) (nutrientValues unitValues : Values) :
  client_ok service = true ->
  read_range service "NutrientData!A:AH" = Some nutrientValues ->
  read_range service "UnitMap!A:D" = Some unitValues ->
  append_succeeds service "Recipes!A:A" = true ->
  append_succeeds service "RecipeItems!A:A" = false ->
  matched_lines (getNutrientData nutrientValues) (ingredients body) <> [] ->
  post_recipes_handler service ts rid body
  = ([ Append "Recipes!A:A"
         [recipeRow ts rid body
            (totalNutrition
               (aggregate ts rid (getNutrientData nutrientValues)
                  (ingredients body)))] ],
     SaveFailed).
Proof.
  intros Hc Hn Hu Hr Hi Hlines. unfold post_recipes_handler.
  rewrite Hc.
  change (NUTRIENT_SHEET ++ "!A:AH") with "NutrientData!A:AH".
  change (UNIT_MAP_SHEET ++ "!A:D") with "UnitMap!A:D".
  rewrite Hn, Hu. cbv zeta. unfold post_recipes. cbn [fst snd].
  rewrite aggregate_rows.
  destruct (matched_lines (getNutrientData nutrientValues) (ingredients body))
    as [ | line lines ] eqn:E; [ contradiction Hlines; reflexivity | ].
  cbn [fmap list_fmap length Nat.ltb Nat.leb perform].
  change (RECIPE_SHEET ++ "!A:A") with "Recipes!A:A".
  change (RECIPE_ITEMS_SHEET ++ "!A:A") with "RecipeItems!A:A".
  rewrite Hr, Hi. reflexivity.
Qed.

Lemma post_recipes_not_atomic_example :
  (post_recipes_handler Examples.items_append_fails "t" "r"
     (Examples.body 1 [Examples.line "A001" 100])).2
  = SaveFailed.
Proof.
  refine (f_equal snd
            (post_recipes_not_atomic Examples.items_append_fails "t" "r"
               (Examples.body 1 [Examples.line "A001" 100])
               (Some Examples.nutrient_sheet) (Some Examples.unit_sheet)
               eq_refl eq_refl eq_refl eq_refl eq_refl _)).
  intros H. apply (f_equal length) in H. vm_compute in H. discriminate H.
Defined.

(** X21.  The handler reads the unit sheet and makes no use of what it
    reads.  When the read throws, the request fails with status 500 and
    nothing is appended; when it succeeds, the appends and the reply are
    the same whatever the unit sheet holds. *)
Theorem unit_sheet_without_effect (service service' : Service)
    (ts rid : string) (body : RequestBody) :
  (read_range service "UnitMap!A:D" = None ->
   post_recipes_handler service ts rid body = ([], SaveFailed))
  /\ (client_ok service = client_ok service' ->
      (forall range, range <> "UnitMap!A:D" ->
         read_range service range = read_range service' range) ->
      (forall range,
         append_succeeds service range = append_succeeds service' range) ->
      is_Some (read_range service "UnitMap!A:D") ->
      is_Some (read_range service' "UnitMap!A:D") ->
      post_recipes_handler service ts rid body
      = post_recipes_handler service' ts rid body).
Proof.
  unfold post_recipes_handler.
  change (NUTRIENT_SHEET ++ "!A:AH") with "NutrientData!A:AH".
  change (UNIT_MAP_SHEET ++ "!A:D") with "UnitMap!A:D".
  split.
  - intros ->. destruct (client_ok service); [ | reflexivity ].
    destruct (read_range service "NutrientData!A:AH"); reflexivity.
  - intros <- Hread Happend [u ->] [u' ->].
    rewrite <- (Hread "NutrientData!A:AH") by discriminate.
    destruct (client_ok service); [ | reflexivity ].
    destruct (read_range service "NutrientData!A:AH"); [ | reflexivity ].
    cbv zeta. rewrite (perform_ext service service' _ Happend). reflexivity.
Qed.

Lemma unit_sheet_without_effect_example :
  post_recipes_handler Examples.items_append_fails "t" "r"
    (Examples.body 1 [Examples.line "A001" 100])
  = post_recipes_handler Examples.items_append_fails_no_units "t" "r"
      (Examples.body 1 [Examples.line "A001" 100]).
Proof.
  apply (proj2 (unit_sheet_without_effect Examples.items_append_fails
                  Examples.items_append_fails_no_units "t" "r"
                  (Examples.body 1 [Examples.line "A001" 100]))).
  - reflexivity.
  - intros range Hne. cbn [read_range Examples.items_append_fails
                           Examples.items_append_fails_no_units].
    destruct (String.eqb range "NutrientData!A:AH"); [ reflexivity | ].
    destruct (String.eqb_spec range "UnitMap!A:D"); [ contradiction | reflexivity ].
  - reflexivity.
  - eexists. reflexivity.
  - eexists. reflexivity.
Defined.

End Service.
